(** * Wavenet: the utility string functions and the analysis driver

    A shallow embedding of [Wavenet/Utilities.h] (the inline string and
    arithmetic helpers) and of [examples/Analyse.cxx] (the [main] of the
    analysis program), with the properties of the specification stated
    and settled against them.

    Conventions of the embedding:
    - [std::string] is [string], [char] is [ascii];
    - [unsigned] is a [Z] kept in [0, 2^32) with the wrap-around written
      out, [size_t] likewise in [0, 2^64);
    - [double] is modelled by the rational it denotes ([Qc]) where the
      program only stores and compares finite values (the cost logs), and
      by IEEE 754 binary64 ([spec_float] at precision 53) where the result
      turns on the comparisons of any double, NaN and the infinities
      included (the overlaps of the audit);
    - [std::vector] is [list], and [vector::at] is the bounds-checked
      access that throws [std::out_of_range];
    - the file system is a finite map from paths to file contents;
    - every call that reaches the engine, the generator, the disk or the
      canvas leaves an [event] in the trace of the program state. *)

From Stdlib Require Import ZArith QArith Qcanon Ascii String List Lia DecimalString DecimalZ.
From Stdlib Require Import SpecFloat.
From stdpp Require Import base tactics option list list_numbers numbers strings gmap.

Local Open Scope Z_scope.
Local Open Scope string_scope.

(** ** Machine integers *)

Definition UINT_MOD : Z := 2 ^ 32.
Definition SIZE_MOD : Z := 2 ^ 64.

(** Arithmetic in [unsigned]. *)
Definition u32 (x : Z) : Z := x mod UINT_MOD.
(** Arithmetic in [size_t]. *)
Definition usize (x : Z) : Z := x mod SIZE_MOD.

(** ** Utilities.h *)

Module Utilities.

(** [template<class T> inline T sq(const T& x) { return x * x; }]
    at [T = unsigned]. *)
Definition sq (x : Z) : Z := u32 (x * x).

(** *** String predicates *)

(** [std::isdigit] in the "C" locale. *)
Definition isdigit (c : ascii) : bool :=
  let n := nat_of_ascii c in (48 <=? n)%nat && (n <=? 57)%nat.

(** [strcmp(&c, lit) == 0] for a literal [lit] of one character [l]
    (not NUL).  The first argument points at the single [char c]; [strcmp]
    compares [c] with [l] and, when they agree, goes on to the byte stored
    after [c], which it compares with the literal's terminating NUL.
    [next] is that byte. *)
Definition strcmp_is_zero (c next l : ascii) : bool :=
  Ascii.eqb c l && Ascii.eqb next zero.

(** [std::find_if(s.begin(), s.end(), p) == s.end()]: no character of [s]
    satisfies [p].  The predicate also receives the position, through which
    the bytes behind the lambda's parameter are looked up. *)
Fixpoint find_if_is_end (p : nat -> ascii -> bool) (pos : nat) (s : string) : bool :=
  match s with
  | EmptyString => true
  | String c s' => if p pos c then false else find_if_is_end p (S pos) s'
  end.

Definition string_empty (s : string) : bool :=
  match s with EmptyString => true | _ => false end.

Section StringPredicates.

(** The byte found in memory behind the lambda's [char c] when it is
    called on the character at a given position.  The source does not
    determine it. *)
Variable behind : nat -> ascii.

(** [[](char c) { return !(std::isdigit(c) || strcmp(&c, ".") == 0
                            || (strcmp(&c, " ") == 0)); }] *)
Definition isNumber_lambda (pos : nat) (c : ascii) : bool :=
  negb (isdigit c || strcmp_is_zero c (behind pos) "."
                  || strcmp_is_zero c (behind pos) " ").

(** [return !s.empty() && std::find_if(...) == s.end();] *)
Definition isNumber (s : string) : bool :=
  negb (string_empty s) && find_if_is_end isNumber_lambda 0 s.

(** [[](char c) { return !(strcmp(&c, " ") == 0); }] *)
Definition isEmpty_lambda (pos : nat) (c : ascii) : bool :=
  negb (strcmp_is_zero c (behind pos) " ").

Definition isEmpty (s : string) : bool :=
  negb (string_empty s) && find_if_is_end isEmpty_lambda 0 s.

End StringPredicates.

(** The character classes the two predicates are described by. *)
Definition numeric_char (c : ascii) : Prop :=
  isdigit c = true \/ c = "."%char \/ c = " "%char.

Definition blank_char (c : ascii) : Prop := c = " "%char.

Fixpoint all_chars (P : ascii -> Prop) (s : string) : Prop :=
  match s with
  | EmptyString => True
  | String c s' => P c /\ all_chars P s'
  end.

(** *** split *)

(** The characters [std::getline(ss, item, delim)] extracts from a
    non-exhausted stream: everything up to the first [delim], which is
    consumed but not stored, or up to the end of the input.  Returns the
    item and the unread rest of the stream. *)
Fixpoint getline_extract (ss : string) (delim : ascii) : string * string :=
  match ss with
  | EmptyString => (EmptyString, EmptyString)
  | String c rest =>
      if Ascii.eqb c delim then (EmptyString, rest)
      else let '(item, rest') := getline_extract rest delim in
           (String c item, rest')
  end.

(** [std::getline(ss, item, delim)] as the loop condition sees it: [None]
    when the stream has nothing left (no character is extracted and the
    fail bit is set), the item and the advanced stream otherwise. *)
Definition getline (ss : string) (delim : ascii) : option (string * string) :=
  match ss with
  | EmptyString => None
  | _ => Some (getline_extract ss delim)
  end.

(** [while (std::getline(ss, item, delim)) { elems.push_back(item); }] *)
Fixpoint split_loop (fuel : nat) (ss : string) (delim : ascii)
         (elems : list string) : option (list string) :=
  match fuel with
  | O => None
  | S fuel' =>
      match getline ss delim with
      | Some (item, ss') => split_loop fuel' ss' delim (elems ++ [item])
      | None => Some elems
      end
  end.

(** [split]: the loop is entered with the whole of [s] unread and an empty
    [elems]; one round more than [s] has characters always suffices
    ([split_loop_total]). *)
Definition split (s : string) (delim : ascii) : list string :=
  default [] (split_loop (S (String.length s)) s delim []).

(** Joining with the delimiter between consecutive elements. *)
Definition join (delim : ascii) (elems : list string) : string :=
  String.concat (String delim EmptyString) elems.

Fixpoint last_char (s : string) : option ascii :=
  match s with
  | EmptyString => None
  | String c EmptyString => Some c
  | String _ s' => last_char s'
  end.

Definition ends_with (s : string) (d : ascii) : Prop := last_char s = Some d.

Fixpoint occurs (d : ascii) (s : string) : Prop :=
  match s with
  | EmptyString => False
  | String c s' => c = d \/ occurs d s'
  end.

(** The number of occurrences of a character. *)
Fixpoint count_char (d : ascii) (s : string) : nat :=
  match s with
  | EmptyString => O
  | String c s' => if Ascii.eqb c d then S (count_char d s') else count_char d s'
  end.

End Utilities.

(** ** examples/Analyse.cxx *)

Module Analyse.

(** *** Values *)

(** [arma::Mat<double>], as the list of its rows. *)
Definition Mat : Type := list (list Qc).

(** [double] as IEEE 754 binary64: zeros, infinities, NaN and the finite
    numbers [(-1)^s * m * 2^e].  The doubles are the values that are valid
    at precision 53 and exponent bound 1024; what is proved below of a
    [double] holds of every value of the type. *)
Definition double : Type := spec_float.
Definition dbl_prec : Z := 53.
Definition dbl_emax : Z := 1024.

(** The double of an integer, and the double that a decimal literal of
    the value [num / den] denotes: the quotient rounded to the nearest
    double. *)
Definition dbl_of_Z (n : Z) : double := binary_normalize dbl_prec dbl_emax n 0 false.
Definition dbl_literal (num den : Z) : double :=
  SFdiv dbl_prec dbl_emax (dbl_of_Z num) (dbl_of_Z den).

(** [a < b] and [a <= b] on doubles: false when either side is NaN. *)
Definition dbl_lt (a b : double) : bool := SFltb a b.
Definition dbl_le (a b : double) : bool := SFleb a b.

Definition dbl_is_nan (x : double) : bool :=
  match x with S754_nan => true | _ => false end.

(** A basis function: an [arma::Mat<double>] whose entries enter the
    arithmetic of the audit. *)
Definition DMat : Type := list (list double).

(** Modelled from the spec: the enumeration [wavenet::GeneratorMode] of
    Wavenet/Generators.h, whose declaration is not part of the sources; the
    four variants are the ones [main] switches over (the [default] branch
    of the switch, for a value outside the enumeration, has no
    counterpart). *)
Inductive GeneratorMode : Type := File | Uniform | Needle | Gaussian.

(** Modelled from the spec: what [main] consumes of a [wavenet::Wavenet]
    (Wavenet/Wavenet.h is not part of the sources): the active filter, the
    filter log and the cost log; [load] replaces all of it with what a
    snapshot file holds, [save] writes all of it. *)
Record Wavenet : Type := mkWavenet {
  w_filter : Mat;
  w_filterLog : list Mat;
  w_costLog : list Qc
}.

(** [TGraph]: the points of the graph. *)
Definition TGraph : Type := list (Qc * Qc).

(** What a file on disk holds. *)
Inductive file : Type :=
| SnapFile (w : Wavenet)
| MatFile (m : Mat).

(** Modelled from the spec: a [wavenet::GeneratorBase] behind the pointer
    [generator] (Wavenet/Generators.h is not part of the sources): its
    variant, its readiness ([good()]) and its shape. *)
Record Generator : Type := mkGenerator {
  g_kind : GeneratorMode;
  g_good : bool;
  g_shape : list Z
}.

(** Modelled from the spec: a [wavenet::Snapshot] (Wavenet/Snapshot.h is
    not part of the sources): the numbered file name pattern and the
    cursor, constructed at number 1. *)
Record Snapshot : Type := mkSnapshot {
  snap_pattern : string;
  snap_number : Z
}.

(** The calls into the engine, the generator, the disk and the canvas. *)
Inductive event : Type :=
| EngineSave (path : string)
| EngineLoad (path : string)
| EnginePrint
| GeneratorNext
| GeneratorClose
| CanvasSaveAs (path : string)
| CostMapSweep
| MatSave (path : string)
| MatLoad (path : string)
| SetFilter (iCoeff : Z)
| BasisFunction (width height row col : Z)
| HistFill (x : double).

(** The program state: the calls made so far (the latest first), the
    disk and the engine. *)
Record State : Type := mkState {
  calls : list event;
  disk : gmap string file;
  wavenet : Wavenet
}.

(** The calls in the order they were made. *)
Definition trace (st : State) : list event := reverse (calls st).

(** How a piece of [main] ends: it falls through with a value, throws
    ([std::out_of_range] is the only exception the model raises), or
    returns from [main].  [OutOfFuel] marks a loop of the model that was
    given too few rounds; [main] never ends so ([main_has_fuel]). *)
Inductive result (A : Type) : Type :=
| Normal (a : A)
| Thrown
| Returned (code : Z)
| OutOfFuel.
Arguments Normal {A} a.
Arguments Thrown {A}.
Arguments Returned {A} code.
Arguments OutOfFuel {A}.

Definition Exec (A : Type) : Type := State -> result A * State.

Definition ret {A} (a : A) : Exec A := fun st => (Normal a, st).

Definition bind {A B} (m : Exec A) (k : A -> Exec B) : Exec B :=
  fun st =>
    match m st with
    | (Normal a, st') => k a st'
    | (Thrown, st') => (Thrown, st')
    | (Returned c, st') => (Returned c, st')
    | (OutOfFuel, st') => (OutOfFuel, st')
    end.

Declare Scope exec_scope.
Delimit Scope exec_scope with exec.
Notation "x <- m ;; k" := (bind m (fun x => k))
  (at level 100, m at next level, right associativity) : exec_scope.
Notation "m ;; k" := (bind m (fun _ => k))
  (at level 100, right associativity) : exec_scope.
Local Open Scope exec_scope.

Definition throw {A} : Exec A := fun st => (Thrown, st).
Definition return_from_main {A} (code : Z) : Exec A := fun st => (Returned code, st).
Definition out_of_fuel {A} : Exec A := fun st => (OutOfFuel, st).

Definition emit (e : event) : Exec unit :=
  fun st => (Normal tt, mkState (e :: calls st) (disk st) (wavenet st)).

Definition get_wavenet : Exec Wavenet := fun st => (Normal (wavenet st), st).

(** [for (unsigned i = lo; i < lo + n; i++) body], with the loop-carried
    variables in [s]. *)
Fixpoint for_range {S : Type} (i : Z) (n : nat) (body : Z -> S -> Exec S) (s : S)
  : Exec S :=
  match n with
  | O => ret s
  | S n' => s' <- body i s ;; for_range (i + 1) n' body s'
  end.

(** [v.at(i)]: [i] is converted to [size_t]. *)
Definition vector_at {A} (v : list A) (i : Z) : Exec A :=
  if decide (usize i < Z.of_nat (length v)) then
    match v !! Z.to_nat (usize i) with
    | Some a => ret a
    | None => throw
    end
  else throw.

(** [v.at(i) = a]. *)
Definition vector_at_put {A} (v : list A) (i : Z) (a : A) : Exec (list A) :=
  if decide (usize i < Z.of_nat (length v)) then
    ret (<[Z.to_nat (usize i) := a]> v)
  else throw.

(** *** Strings and paths *)

(** [std::to_string] of an [int] or an [unsigned]. *)
Definition to_string (n : Z) : string := NilZero.string_of_int (Z.to_int n).

Fixpoint zeros (n : nat) : string :=
  match n with O => EmptyString | S n' => String "0" (zeros n') end.

(** The conversions ["%06u"] and ["%06d"]: decimal, padded with zeros to
    six characters, the sign of a negative number first and counted among
    the six. *)
Definition pad6 (n : Z) : string :=
  if decide (n < 0) then
    let digits := to_string (- n) in
    String "-" (zeros (5 - String.length digits) ++ digits)
  else
    let digits := to_string n in
    zeros (6 - String.length digits) ++ digits.

(** The [int] that ["%d"] reads where an [unsigned] was passed: the same
    32 bits, in two's complement. *)
Definition int_of_unsigned (n : Z) : Z :=
  if decide (n < 2 ^ 31) then n else n - UINT_MOD.

(** [snprintf] of a format with one conversion [conv] (["%06u"] or
    ["%06d"]), which is replaced by the padded number. *)
Fixpoint sprintf1 (conv : string) (format : string) (n : Z) : string :=
  match format with
  | EmptyString => EmptyString
  | String c format' =>
      if String.prefix conv format
      then pad6 n ++ String.substring (String.length conv) (String.length format) format
      else String c (sprintf1 conv format' n)
  end.

(** Modelled from the spec: [Snapshot::file()], the path resolved from the
    pattern and the number. *)
Definition Snapshot_file (snap : Snapshot) : string :=
  sprintf1 "%06u" (snap_pattern snap) (snap_number snap).

(** [wavenet::fileExists] of Utilities.h: true iff the file can be opened
    for reading. *)
Definition fileExists (filename : string) : Exec bool :=
  fun st => (Normal (bool_decide (is_Some (disk st !! filename))), st).

(** Modelled from the spec: [Snapshot::exists()], true iff the file at the
    resolved path is present. *)
Definition Snapshot_exists (snap : Snapshot) : Exec bool :=
  fileExists (Snapshot_file snap).

(** Modelled from the spec: [Snapshot::operator++] and
    [Snapshot::setNumber]. *)
Definition Snapshot_advance (snap : Snapshot) : Snapshot :=
  mkSnapshot (snap_pattern snap) (snap_number snap + 1).
Definition Snapshot_setNumber (snap : Snapshot) (n : Z) : Snapshot :=
  mkSnapshot (snap_pattern snap) n.

(** Modelled from the spec: [Wavenet::save] writes the state to the path,
    [Wavenet::load] replaces the state by the one stored at the path.  The
    spec asks callers to check [exists()] before a load and leaves open
    what a load does at a path that holds no snapshot; there the model has
    the call return with the engine as it was. *)
Definition wavenet_save (path : string) : Exec unit :=
  fun st => (Normal tt,
             mkState (EngineSave path :: calls st)
                     (<[path := SnapFile (wavenet st)]> (disk st))
                     (wavenet st)).

Definition wavenet_load (path : string) : Exec unit :=
  fun st => (Normal tt,
             mkState (EngineLoad path :: calls st)
                     (disk st)
                     (match disk st !! path with
                      | Some (SnapFile w) => w
                      | _ => wavenet st
                      end)).

Definition wavenet_setFilter (iCoeff : Z) (filter : Mat) : Exec unit :=
  fun st => (Normal tt,
             mkState (SetFilter iCoeff :: calls st)
                     (disk st)
                     (mkWavenet filter (w_filterLog (wavenet st)) (w_costLog (wavenet st)))).

(** [arma::Mat::save] and [arma::Mat::load]; a failed load leaves the
    matrix empty. *)
Definition mat_save (m : Mat) (path : string) : Exec unit :=
  fun st => (Normal tt,
             mkState (MatSave path :: calls st)
                     (<[path := MatFile m]> (disk st))
                     (wavenet st)).

Definition mat_load (path : string) : Exec Mat :=
  fun st => (Normal (match disk st !! path with
                     | Some (MatFile m) => m
                     | _ => []
                     end),
             mkState (MatLoad path :: calls st) (disk st) (wavenet st)).

(** *** std::regex_replace(project, std::regex(".N(\\d+)"), "") *)

(** What the unescaped [.] of the pattern does not match. *)
Definition line_terminator (c : ascii) : bool :=
  let n := nat_of_ascii c in (n =? 10)%nat || (n =? 13)%nat.

Fixpoint count_digits (s : string) : nat :=
  match s with
  | String c s' => if Utilities.isdigit c then S (count_digits s') else O
  | EmptyString => O
  end.

(** The length of the match of [.N(\d+)] that starts at the head of [s]. *)
Definition match_length (s : string) : option nat :=
  match s with
  | String c (String "N" rest) =>
      if line_terminator c then None
      else match count_digits rest with
           | O => None
           | S k => Some (2 + S k)%nat
           end
  | _ => None
  end.

(** All matches are removed, left to right; [skip] counts the characters
    of the current match still to be dropped. *)
Fixpoint regex_replace_go (skip : nat) (s : string) : string :=
  match s with
  | EmptyString => EmptyString
  | String c s' =>
      match skip with
      | S k => regex_replace_go k s'
      | O => match match_length s with
             | Some (S k) => regex_replace_go k s'
             | _ => String c (regex_replace_go O s')
             end
      end
  end.

Definition regex_replace_N_suffix (s : string) : string := regex_replace_go O s.


(** *** The collaborators of [main]

    The engine, the generators, Armadillo and ROOT are not part of the
    sources; what [main] obtains from them is taken as given. *)
Record Collaborators : Type := mkCollaborators {
  (** [generator->next()]: the sample a generator of the given variant and
      shape hands out as its [k]-th. *)
  generator_next : GeneratorMode -> list Z -> Z -> Mat;
  (** [wavenet.costMap(examples, 1.2, 300)]: the field of the raw, the
      sparsified and the regularised grid. *)
  wavenet_costMap : Wavenet -> list Mat -> Mat * Mat * Mat;
  (** [wavenet.basisFunction(width, height, row, col)]. *)
  wavenet_basisFunction : Wavenet -> Z -> Z -> Z -> Z -> DMat;
  (** [trace(f1 * f2.t())] of Armadillo: the double the library computes,
      in the order of summation it chooses. *)
  arma_trace_mul_t : DMat -> DMat -> double;
  (** [wavenet::costGraph(costLog)]. *)
  costGraph : list Qc -> TGraph;
  (** [TGraph::GetMinimum()] and [TGraph::GetMaximum()]. *)
  TGraph_GetMinimum : TGraph -> Qc;
  TGraph_GetMaximum : TGraph -> Qc;
  (** [arma::as_scalar(filter.row(r))]. *)
  as_scalar_row : Mat -> Z -> Qc
}.

(** *** The clamp of line 334 *)

(** The literals [-0.5], [1.5], [-0.499] and [1.499]. *)
Definition display_low : double := SFopp (dbl_literal 5 10).
Definition display_high : double := dbl_literal 15 10.
Definition fill_low : double := SFopp (dbl_literal 499 1000).
Definition fill_high : double := dbl_literal 1499 1000.

(** [norm < -0.5 ? -0.499 : (norm > 1.5 ? 1.499 : norm)] *)
Definition clamp_norm (norm : double) : double :=
  if dbl_lt norm display_low then fill_low
  else if dbl_lt display_high norm then fill_high
  else norm.

(** *** The names [main] builds *)

Definition mode_name (mode : GeneratorMode) : string :=
  match mode with
  | File => "File"
  | Uniform => "Uniform"
  | Needle => "Needle"
  | Gaussian => "Gaussian"
  end.

(** [project = "Run." + <mode> + ".N" + to_string(Nfilter)] *)
Definition project_of (mode : GeneratorMode) (Nfilter : Z) : string :=
  "Run." ++ mode_name mode ++ ".N" ++ to_string Nfilter.

(** [outdir = "./output/" + project + "/"] *)
Definition outdir_of (project : string) : string := "./output/" ++ project ++ "/".

(** [pattern = outdir + "snapshots/" + project + ".%06u.snap"] *)
Definition pattern_of (project : string) : string :=
  outdir_of project ++ "snapshots/" ++ project ++ ".%06u.snap".

Definition costMapName (project : string) : string :=
  "output/costMap." ++ regex_replace_N_suffix project ++ ".mat".
Definition costMapRegName (project : string) : string :=
  "output/costMapReg." ++ regex_replace_N_suffix project ++ ".mat".
Definition costMapSparseName (project : string) : string :=
  "output/costMapSparse." ++ regex_replace_N_suffix project ++ ".mat".

(** [snprintf(buff, sizeof(buff), (outdir + "movie/bestBasis_%06d.png").c_str(), iFrame)]
    into [char buff[100]]: at most 99 characters are kept.  [iFrame] is an
    [unsigned] and ["%06d"] prints an [int]. *)
Definition frame_path (outdir : string) (iFrame : Z) : string :=
  String.substring 0 99
    (sprintf1 "%06d" (outdir ++ "movie/bestBasis_%06d.png") (int_of_unsigned iFrame)).

(** *** The variables of the snapshot scan *)

Record ScanVars : Type := mkScanVars {
  sv_snap : Snapshot;
  sv_minCost : Qc;
  sv_maxCost : Qc;
  sv_bestBasis : Z;
  sv_longestCost : Z;
  sv_costGraphs : list TGraph;
  sv_filterGraphs : list TGraph
}.

Section Main.

Variable ext : Collaborators.
(** [const int M = 5;] and [int Nfilter = 4;], the two settings at the
    head of [main]. *)
Variable M : Z.
Variable Nfilter : Z.

(** Lines 81-93: the generator behind [generator].  For [File] the
    pointer is what line 83 leaves in it ([wired]; the source has the
    construction commented out, so that [nullptr] stays). *)
Definition select_generator (mode : GeneratorMode) (wired : option Generator)
  : Exec Generator :=
  match mode with
  | File =>
      match wired with
      | None => return_from_main 1
      | Some g => if negb (g_good g) then return_from_main 1 else ret g
      end
  | Needle => ret (mkGenerator Needle true [])
  | Uniform => ret (mkGenerator Uniform true [])
  | Gaussian => ret (mkGenerator Gaussian true [])
  end.

Definition Generator_setShape (g : Generator) (shape : list Z) : Generator :=
  mkGenerator (g_kind g) (g_good g) shape.

(** [generator->shape()[k]] *)
Definition shape_at (g : Generator) (k : nat) : Z := default 0 (g_shape g !! k).

(** Lines 98-105. *)
Definition draw_example (g : Generator) (project : string) (i : Z)
           (examples : list Mat) : Exec (list Mat) :=
  emit GeneratorNext ;;
  let examples := (examples ++ [generator_next ext (g_kind g) (g_shape g) i])%list in
  _ <- vector_at examples i ;;
  emit (CanvasSaveAs (outdir_of project ++ "exampleSignal." ++ to_string (i + 1)
                        ++ "." ++ project ++ ".pdf")) ;;
  ret examples.

Definition draw_examples (g : Generator) (project : string) : Exec (list Mat) :=
  examples <- for_range 0 10 (draw_example g project) [] ;;
  emit GeneratorClose ;;
  ret examples.

(** Lines 146-149: the coordinates of the filter graph. *)
Definition filter_point (filterLog : list Mat) (i : Z) (xy : TGraph) : Exec TGraph :=
  fx <- vector_at filterLog i ;;
  fy <- vector_at filterLog i ;;
  ret (xy ++ [(as_scalar_row ext fx 0, as_scalar_row ext fy 1)])%list.

(** Lines 116-154: the body of the scan loop. *)
Definition scan_body (v : ScanVars) : Exec ScanVars :=
  let number := snap_number (sv_snap v) in
  wavenet_load (Snapshot_file (sv_snap v)) ;;
  emit EnginePrint ;;
  w <- get_wavenet ;;
  let filterLog := w_filterLog w in
  let costLog := w_costLog w in
  let size := Z.of_nat (length costLog) in
  let longestCost :=
    if decide (sv_longestCost v < size) then u32 size else sv_longestCost v in
  let Ncoeffs := u32 (Z.of_nat (length filterLog)) in
  costGraphs <- vector_at_put (sv_costGraphs v) (number - 1) (costGraph ext costLog) ;;
  gmin <- vector_at costGraphs (number - 1) ;;
  gmax <- vector_at costGraphs (number - 1) ;;
  let tmpMax := TGraph_GetMaximum ext gmax in
  c <- vector_at costLog (size - 2) ;;
  best <- (if decide (c < sv_minCost v)%Qc
           then c' <- vector_at costLog (size - 2) ;; ret (number - 1, c')
           else ret (sv_bestBasis v, sv_minCost v)) ;;
  let maxCost :=
    if bool_decide (sv_maxCost v < tmpMax)%Qc && bool_decide (Q2Qc 0 < tmpMax)%Qc
    then tmpMax else sv_maxCost v in
  xy <- for_range 0 (Z.to_nat Ncoeffs) (filter_point filterLog) [] ;;
  filterGraphs <- vector_at_put (sv_filterGraphs v) (number - 1) xy ;;
  ret (mkScanVars (Snapshot_advance (sv_snap v)) (snd best) maxCost (fst best)
                  longestCost costGraphs filterGraphs).

(** Lines 114-156: [while (snap.exists() && snap.number() <= M) { ... }] *)
Fixpoint scan_loop (fuel : nat) (v : ScanVars) : Exec ScanVars :=
  match fuel with
  | O => out_of_fuel
  | S fuel' =>
      present <- Snapshot_exists (sv_snap v) ;;
      if present && bool_decide (snap_number (sv_snap v) <= M)%Z
      then v' <- scan_body v ;; scan_loop fuel' v'
      else ret v
  end.

(** Lines 73-76 and 109-113: the variables as the loop finds them. *)
Definition scan_init (project : string) : ScanVars :=
  mkScanVars (mkSnapshot (pattern_of project) 1)
             (Qc_of_Z 99999) (Q2Qc 0) 0 0
             (replicate (Z.to_nat M) []) (replicate (Z.to_nat M) []).

Definition scan (project : string) : Exec ScanVars :=
  scan_loop (S (Z.to_nat M)) (scan_init project).

(** Lines 160-186: the cost graphs are read back and the canvas saved.  The
    reads of one round are all of [costGraphs.at(m)]; one stands for them. *)
Definition draw_cost_graphs (project : string) (v : ScanVars) : Exec unit :=
  for_range 0 (Z.to_nat (u32 M))
    (fun m _ => _ <- vector_at (sv_costGraphs v) m ;; ret tt) tt ;;
  for_range 0 (Z.to_nat (u32 M))
    (fun m _ => _ <- vector_at (sv_costGraphs v) m ;; ret tt) tt ;;
  emit (CanvasSaveAs (outdir_of project ++ "CostGraph" ++ ".pdf")).

(** Lines 206-234: the cost maps, computed or read back.  The value is
    [(costMap, costMapSparse, costMapReg)] as the branch leaves them. *)
Definition cost_maps (project : string) (examples : list Mat) : Exec (Mat * Mat * Mat) :=
  present <- fileExists (costMapName project) ;;
  if negb present then
    emit CostMapSweep ;;
    w <- get_wavenet ;;
    let costs := wavenet_costMap ext w examples in
    mat_save (fst (fst costs)) (costMapName project) ;;
    mat_save (snd (fst costs)) (costMapSparseName project) ;;
    mat_save (snd costs) (costMapRegName project) ;;
    ret (fst (fst costs), [], [])
  else
    costMap <- mat_load (costMapName project) ;;
    costMapSparse <- mat_load (costMapSparseName project) ;;
    costMapReg <- mat_load (costMapRegName project) ;;
    ret (costMap, costMapSparse, costMapReg).

(** Lines 279-313: the filter graphs are read back, four times a round,
    and the canvas saved. *)
Definition draw_cost_map (project : string) (v : ScanVars) : Exec unit :=
  for_range 0 (Z.to_nat (u32 M))
    (fun m _ =>
       _ <- vector_at (sv_filterGraphs v) m ;;
       _ <- vector_at (sv_filterGraphs v) m ;;
       _ <- vector_at (sv_filterGraphs v) m ;;
       _ <- vector_at (sv_filterGraphs v) m ;; ret tt) tt ;;
  emit (CanvasSaveAs (outdir_of project ++ "CostMap.pdf")).

(** Lines 319-320: [snap.setNumber(bestBasis + 1); wavenet.load(snap.file());] *)
Definition load_best (v : ScanVars) : Exec unit :=
  wavenet_load (Snapshot_file (Snapshot_setNumber (sv_snap v) (sv_bestBasis v + 1))).

(** Lines 331-334: one pair of indices of the audit. *)
Definition audit_pair (sizex sizey i j : Z) : Exec unit :=
  emit (BasisFunction sizex sizey (i mod sizex) (j / sizey)) ;;
  w1 <- get_wavenet ;;
  let f1 := wavenet_basisFunction ext w1 sizex sizey (i mod sizex) (j / sizey) in
  emit (BasisFunction sizex sizey (i mod sizex) (j / sizey)) ;;
  w2 <- get_wavenet ;;
  let f2 := wavenet_basisFunction ext w2 sizex sizey (i mod sizex) (j / sizey) in
  let norm := arma_trace_mul_t ext f1 f2 in
  emit (HistFill (clamp_norm norm)).

(** Lines 329-340. *)
Definition audit (project : string) (sizex sizey : Z) : Exec unit :=
  for_range 0 (Z.to_nat (Utilities.sq sizex))
    (fun i _ =>
       for_range 0 (Z.to_nat (Utilities.sq sizey))
         (fun j _ => audit_pair sizex sizey i j) tt) tt ;;
  emit (CanvasSaveAs (outdir_of project ++ "NormDistributions.pdf")).

(** Line 380: the states the movie leaves out. *)
Definition skipped (Ncoeffs iCoeff : Z) : bool :=
  bool_decide (100 < iCoeff) && bool_decide (iCoeff < u32 (Ncoeffs - 100))
  && bool_decide (0 < iCoeff mod 4).

(** Lines 381-402: the pads of one frame. *)
Definition render_pads (sizex sizey dimx dimy : Z) : Exec unit :=
  for_range 0 (Z.to_nat dimx)
    (fun i _ =>
       for_range 0 (Z.to_nat dimy)
         (fun j _ => emit (BasisFunction sizex sizey i j)) tt) tt.

(** Lines 378-408: one round of the movie loop; the loop-carried variable
    is [iFrame]. *)
Definition movie_step (project : string) (filterLog : list Mat)
           (sizex sizey dimx dimy Ncoeffs : Z) (iCoeff : Z) (iFrame : Z) : Exec Z :=
  filter <- vector_at filterLog iCoeff ;;
  wavenet_setFilter iCoeff filter ;;
  if skipped Ncoeffs iCoeff then ret iFrame
  else
    render_pads sizex sizey dimx dimy ;;
    emit (CanvasSaveAs (frame_path (outdir_of project) iFrame)) ;;
    ret (u32 (iFrame + 1)).

(** Lines 343-410. *)
Definition movie (project : string) (sizex sizey : Z) : Exec Z :=
  let dim := 8 in
  let dimx := Z.min sizex dim in
  let dimy := Z.min sizey dim in
  w <- get_wavenet ;;
  let filterLog := w_filterLog w in
  let Ncoeffs := u32 (Z.of_nat (length filterLog)) in
  for_range 0 (Z.to_nat Ncoeffs)
    (movie_step project filterLog sizex sizey dimx dimy Ncoeffs) 0.

(** Lines 108-449: [main] from the snapshot scan on. *)
Definition analysis (project : string) (generator : Generator)
           (examples : list Mat) : Exec unit :=
  v <- scan project ;;
  draw_cost_graphs project v ;;
  _ <- cost_maps project examples ;;
  draw_cost_map project v ;;
  load_best v ;;
  let sizex := shape_at generator 0 in
  let sizey := shape_at generator 1 in
  audit project sizex sizey ;;
  _ <- movie project sizex sizey ;;
  return_from_main 1.

(** [main], parameterised by the mode of line 31 and by what line 83
    leaves in [generator]. *)
Definition main_with (mode : GeneratorMode) (wired : option Generator) : Exec unit :=
  let project := project_of mode Nfilter in
  wavenet_save (outdir_of project ++ "tmp.snap") ;;
  generator <- select_generator mode wired ;;
  let generator := Generator_setShape generator [16; 16] in
  examples <- draw_examples generator project ;;
  analysis project generator examples.

End Main.

(** [main] as the source has it: [mode = File], [M = 5], [Nfilter = 4], and
    the construction of the file generator commented out. *)
Definition main (ext : Collaborators) : Exec unit := main_with ext 5 4 File None.

(** A state to start from: nothing done yet, the given disk, and the engine
    as constructed. *)
Definition initial_state (d : gmap string file) (w : Wavenet) : State := mkState [] d w.

(** *** Vocabulary of the properties *)

(** The calls that put a file on disk, and the one that draws a sample. *)
Definition writes_file (e : event) : bool :=
  match e with
  | EngineSave _ | CanvasSaveAs _ | MatSave _ => true
  | _ => false
  end.

Definition draws_sample (e : event) : bool :=
  match e with GeneratorNext => true | _ => false end.

Definition synthesizes (e : event) : bool :=
  match e with BasisFunction _ _ _ _ => true | _ => false end.

Definition loads_snapshot (e : event) : bool :=
  match e with EngineLoad _ => true | _ => false end.

(** The file generator is absent or not ready. *)
Definition unready (wired : option Generator) : Prop :=
  match wired with
  | None => True
  | Some g => g_good g = false
  end.

(** The three cache artifacts of a project. *)
Definition cache_names (project : string) : list string :=
  [costMapName project; costMapSparseName project; costMapRegName project].

(** What [Mat::load] finds at a path. *)
Definition mat_at (d : gmap string file) (path : string) : Mat :=
  match d !! path with
  | Some (MatFile m) => m
  | _ => []
  end.

(** The path of snapshot [n] of a project. *)
Definition snapshot_path (project : string) (n : Z) : string :=
  Snapshot_file (mkSnapshot (pattern_of project) n).

(** The longest prefix of [l] on which [P] holds. *)
Fixpoint leading (P : Z -> bool) (l : list Z) : list Z :=
  match l with
  | [] => []
  | n :: l' => if P n then n :: leading P l' else []
  end.

Definition present (d : gmap string file) (project : string) (n : Z) : bool :=
  bool_decide (is_Some (d !! snapshot_path project n)).

(** The indices the scan is to visit when it starts at [n0]: upwards from
    [n0], up to [M], as far as the snapshot files exist. *)
Definition scan_indices (d : gmap string file) (project : string) (M n0 : Z) : list Z :=
  leading (present d project) (seqZ n0 (M + 1 - n0)).

(** What [Wavenet::load] leaves in the engine. *)
Definition load_result (d : gmap string file) (path : string) (w : Wavenet) : Wavenet :=
  match d !! path with
  | Some (SnapFile w') => w'
  | _ => w
  end.

(** The engine as it stands after each of the snapshots [l] has been
    loaded in turn, starting from [w]: the runs the scan sees. *)
Fixpoint scanned_runs (d : gmap string file) (project : string) (w : Wavenet)
         (l : list Z) : list Wavenet :=
  match l with
  | [] => []
  | n :: l' =>
      let w' := load_result d (snapshot_path project n) w in
      w' :: scanned_runs d project w' l'
  end.

(** The second-to-last entry of a cost log. *)
Definition penultimate (costLog : list Qc) : option Qc :=
  if decide (2 <= length costLog)%nat then costLog !! (length costLog - 2)%nat else None.

Definition penultimate_of (w : Wavenet) : Qc := default (Q2Qc 0) (penultimate (w_costLog w)).

Definition short_log (w : Wavenet) : Prop := (length (w_costLog w) < 2)%nat.

(** The movie keeps state [i] of [N]: it is among the first hundred, among
    the last hundred, or a fourth one. *)
Definition retained (N i : Z) : bool :=
  bool_decide (i < 100 \/ N - 100 <= i \/ i mod 4 = 0).

(** The number of kept states before state [i]. *)
Definition rank (N i : Z) : Z := Z.of_nat (length (List.filter (retained N) (seqZ 0 i))).

(** The syntheses of one frame: the pixels of the [dim x dim] neighbourhood
    clamped to the shape, column index outermost. *)
Definition frame_pixels (sizex sizey : Z) : list event :=
  i ← seqZ 0 (Z.min sizex 8); j ← seqZ 0 (Z.min sizey 8); [BasisFunction sizex sizey i j].

Definition is_frame (e : event) : bool :=
  match e with CanvasSaveAs _ => true | _ => false end.

(** The calls of the movie loop at state [i] of [N]: the filter is set,
    and for a kept state the frame is synthesized and saved under the
    number of kept states before it. *)
Definition movie_calls (project : string) (sizex sizey N i : Z) : list event :=
  SetFilter i ::
  (if retained N i
   then frame_pixels sizex sizey
        ++ [CanvasSaveAs (frame_path (outdir_of project) (rank N i))]
   else [])%list.

(** [m] runs to its end from any state whose engine is [w], makes the
    calls [l] and changes nothing else. *)
Definition emits_with (w : Wavenet) (m : Exec unit) (l : list event) : Prop :=
  forall st, wavenet st = w ->
    m st = (Normal tt, mkState (reverse l ++ calls st) (disk st) (wavenet st)).

(** The overlap the audit computes at a pair of indices. *)
Definition overlap (ext : Collaborators) (w : Wavenet) (W H i j : Z) : double :=
  let f := wavenet_basisFunction ext w W H (i mod W) (j / H) in
  arma_trace_mul_t ext f f.

(** [-0.5 <= x && x <= 1.5]: the range of the histogram's axis. *)
Definition in_display_range (x : double) : bool :=
  dbl_le display_low x && dbl_le x display_high.

(** What the audit does at a pair of indices. *)
Definition audit_calls (ext : Collaborators) (w : Wavenet) (W H i j : Z) : list event :=
  [BasisFunction W H (i mod W) (j / H);
   BasisFunction W H (i mod W) (j / H);
   HistFill (clamp_norm (overlap ext w W H i j))].

(** The calls of one round of the scan. *)
Definition scan_calls (project : string) (n : Z) : list event :=
  [EngineLoad (snapshot_path project n); EnginePrint].

Definition short_logb (w : Wavenet) : bool :=
  bool_decide (length (w_costLog w) < 2)%nat.

(** The position of the first run with a short cost log. *)
Fixpoint first_short (runs : list Wavenet) : option nat :=
  match runs with
  | [] => None
  | w :: runs' => if short_logb w then Some O else S <$> first_short runs'
  end.

(** [costLog.at(costLog.size() - 2)], where it does not throw. *)
Definition compared_cost (w : Wavenet) : Qc :=
  default (Q2Qc 0)
          (w_costLog w !! Z.to_nat (usize (Z.of_nat (length (w_costLog w)) - 2))).

(** Lines 135-138 on [(bestBasis, minCost)], for snapshot [n] holding [w]. *)
Definition select_step (acc : Z * Qc) (n : Z) (w : Wavenet) : Z * Qc :=
  if decide (compared_cost w < snd acc)%Qc then (n - 1, compared_cost w) else acc.

Fixpoint select (acc : Z * Qc) (idxs : list Z) (runs : list Wavenet) : Z * Qc :=
  match idxs, runs with
  | n :: idxs', w :: runs' => select (select_step acc n w) idxs' runs'
  | _, _ => acc
  end.

(** [m] never runs out of the rounds the model gives its loops. *)
Definition fueled {A : Type} (m : Exec A) : Prop :=
  forall st, fst (m st) <> OutOfFuel.

(** The calls of lines 98-105: ten samples are drawn, each one saved as a
    picture, and the generator is closed. *)
Definition example_calls (project : string) : list event :=
  ((i ← seqZ 0 10;
    [GeneratorNext;
     CanvasSaveAs (outdir_of project ++ "exampleSignal." ++ to_string (i + 1)
                     ++ "." ++ project ++ ".pdf")])
   ++ [GeneratorClose])%list.

(** [m] makes no early return from [main] with a code other than 1, and
    does not run out of rounds. *)
Definition returns_one_only {A : Type} (m : Exec A) : Prop :=
  forall st, match fst (m st) with
             | Returned code => code = 1
             | OutOfFuel => False
             | _ => True
             end.

(** [m] does not fall through: it returns from [main] or throws. *)
Definition leaves_main {A : Type} (m : Exec A) : Prop :=
  forall st a, fst (m st) <> Normal a.

(** Lines 145-151: the filter graph of a filter log, one point for each of
    the first [Ncoeffs] filter states. *)
Definition filter_graph (ext : Collaborators) (filterLog : list Mat) : TGraph :=
  (fun f => (as_scalar_row ext f 0, as_scalar_row ext f 1))
    <$> take (Z.to_nat (u32 (Z.of_nat (length filterLog)))) filterLog.

(** The graph vector after the graphs of the scanned runs have been put at
    their indices. *)
Fixpoint record_graphs (graph : Wavenet -> TGraph) (graphs : list TGraph)
         (idxs : list Z) (runs : list Wavenet) : list TGraph :=
  match idxs, runs with
  | n :: idxs', w :: runs' =>
      record_graphs graph (<[Z.to_nat (usize (n - 1)) := graph w]> graphs) idxs' runs'
  | _, _ => graphs
  end.

(** Lines 124-126 on [longestCost], for a run [w]. *)
Definition longest_step (longest : Z) (w : Wavenet) : Z :=
  let size := Z.of_nat (length (w_costLog w)) in
  if decide (longest < size) then u32 size else longest.

(** A synthesis at a pixel of the shape. *)
Definition in_shape (W H : Z) (e : event) : Prop :=
  match e with
  | BasisFunction w h row col => w = W /\ h = H /\ 0 <= row < W /\ 0 <= col < H
  | _ => True
  end.

Definition is_fill (e : event) : bool :=
  match e with HistFill _ => true | _ => false end.

(** The calls of the cost-map step on a disk. *)
Definition cost_map_calls (d : gmap string file) (project : string) : list event :=
  if bool_decide (is_Some (d !! costMapName project))
  then [MatLoad (costMapName project); MatLoad (costMapSparseName project);
        MatLoad (costMapRegName project)]
  else [CostMapSweep; MatSave (costMapName project);
        MatSave (costMapSparseName project); MatSave (costMapRegName project)].

(** The index [bestBasis] the scan ends with. *)
Definition best_index (idxs : list Z) (runs : list Wavenet) : Z :=
  fst (select (0, Qc_of_Z 99999) idxs runs).

(** The calls of the audit and of the movie on an engine. *)
Definition audit_trace (ext : Collaborators) (project : string) (w : Wavenet)
           (W H : Z) : list event :=
  ((i ← seqZ 0 (Utilities.sq W); j ← seqZ 0 (Utilities.sq H); audit_calls ext w W H i j)
   ++ [CanvasSaveAs (outdir_of project ++ "NormDistributions.pdf")])%list.

Definition movie_trace (project : string) (w : Wavenet) (W H : Z) : list event :=
  let N := Z.of_nat (length (w_filterLog w)) in
  i ← seqZ 0 N; movie_calls project W H N i.

End Analyse.

(** * Samples to run the model on *)

Module Samples.
Import Analyse.

(** A [trace(f1 * f2.t())] in binary64: entry [(r, r)] of the product is
    the dot product of row [r] of [f1] with row [r] of [f2]; the products
    are added to one accumulator, row after row, each row from its first
    entry to its last. *)
Fixpoint dot_from (acc : double) (u v : list double) : double :=
  match u, v with
  | a :: u', b :: v' =>
      dot_from (SFadd dbl_prec dbl_emax acc (SFmul dbl_prec dbl_emax a b)) u' v'
  | _, _ => acc
  end.

Fixpoint trace_from (acc : double) (f1 f2 : DMat) : double :=
  match f1, f2 with
  | r1 :: f1', r2 :: f2' => trace_from (dot_from acc r1 r2) f1' f2'
  | _, _ => acc
  end.

Definition trace_mul_t (f1 f2 : DMat) : double := trace_from (S754_zero false) f1 f2.

(** Collaborators that hand out fixed values. *)
Definition collaborators : Collaborators :=
  mkCollaborators (fun _ _ _ => [[Q2Qc 0]])
                  (fun _ _ => ([[Q2Qc 1]], [[Q2Qc 2]], [[Q2Qc 3]]))
                  (fun _ _ _ i j => [[dbl_of_Z i; dbl_of_Z j]])
                  trace_mul_t
                  (fun costLog => imap (fun k c => (Qc_of_Z (Z.of_nat k), c)) costLog)
                  (fun _ => Q2Qc 0) (fun _ => Q2Qc 0) (fun _ _ => Q2Qc 0).

(** The same, with an engine whose basis functions have come out as NaN. *)
Definition diverged : Collaborators :=
  mkCollaborators (fun _ _ _ => [[Q2Qc 0]])
                  (fun _ _ => ([[Q2Qc 1]], [[Q2Qc 2]], [[Q2Qc 3]]))
                  (fun _ _ _ _ _ => [[S754_nan]])
                  trace_mul_t
                  (fun costLog => imap (fun k c => (Qc_of_Z (Z.of_nat k), c)) costLog)
                  (fun _ => Q2Qc 0) (fun _ => Q2Qc 0) (fun _ _ => Q2Qc 0).

(** The engine as constructed: no filter, empty logs. *)
Definition fresh : Wavenet := mkWavenet [] [] [].

(** A run whose cost log ends in [c; 0], with three filter states. *)
Definition run (c : Z) : Wavenet :=
  mkWavenet [] [[[Q2Qc 1]]; [[Q2Qc 2]]; [[Q2Qc 3]]] [Q2Qc 1; Qc_of_Z c; Q2Qc 0].

(** A disk that holds the given runs as the snapshots 1, 2, ... of the
    project. *)
Definition snapshots (project : string) (runs : list Wavenet) : gmap string file :=
  list_to_map (imap (fun k w => (snapshot_path project (Z.of_nat (S k)), SnapFile w)) runs).

End Samples.

(** * Properties of the utility functions *)

Module UtilitiesSpec.
Import Utilities.

(** ** The string predicates *)

Lemma strcmp_is_zero_char c next l : strcmp_is_zero c next l = true -> c = l.
Proof.
  unfold strcmp_is_zero. intros H.
  apply andb_prop in H as [H _]. now apply Ascii.eqb_eq.
Qed.

Lemma isNumber_lambda_class behind pos c :
  isNumber_lambda behind pos c = false -> numeric_char c.
Proof.
  unfold isNumber_lambda, numeric_char. intros H.
  apply negb_false_iff in H.
  apply orb_prop in H as [H | H]; [apply orb_prop in H as [H | H] |].
  - now left.
  - right; left. exact (strcmp_is_zero_char _ _ _ H).
  - right; right. exact (strcmp_is_zero_char _ _ _ H).
Qed.

Lemma isEmpty_lambda_class behind pos c :
  isEmpty_lambda behind pos c = false -> blank_char c.
Proof.
  unfold isEmpty_lambda, blank_char. intros H.
  apply negb_false_iff in H. exact (strcmp_is_zero_char _ _ _ H).
Qed.

Lemma find_if_is_end_all (p : nat -> ascii -> bool) (P : ascii -> Prop) :
  (forall pos c, p pos c = false -> P c) ->
  forall s pos, find_if_is_end p pos s = true -> all_chars P s.
Proof.
  intros Hp. induction s as [| c s IH]; intros pos H; simpl in *; [exact I |].
  destruct (p pos c) eqn:E; [discriminate |].
  split; [exact (Hp _ _ E) | exact (IH _ H)].
Qed.

Lemma string_empty_false s : negb (string_empty s) = true -> s <> "".
Proof. destruct s; simpl; [discriminate | intros _; discriminate]. Qed.

(** When the byte behind the lambda's parameter is NUL at every call (so
    that [strcmp] sees a terminated string), the predicates hold of exactly
    the non-empty strings over their character class. *)
Lemma find_if_is_end_terminated (p : nat -> ascii -> bool) (P : ascii -> Prop) :
  (forall pos c, P c -> p pos c = false) ->
  forall s pos, all_chars P s -> find_if_is_end p pos s = true.
Proof.
  intros Hp. induction s as [| c s IH]; intros pos H; simpl in *; [reflexivity |].
  destruct H as [Hc Hs]. rewrite (Hp _ _ Hc). now apply IH.
Qed.

Lemma isNumber_terminated s :
  s <> "" -> all_chars numeric_char s -> isNumber (fun _ => zero) s = true.
Proof.
  intros Hne Hall. unfold isNumber. apply andb_true_intro. split.
  - destruct s; [congruence | reflexivity].
  - apply (find_if_is_end_terminated _ numeric_char); [| exact Hall].
    intros pos c [Hd | [-> | ->]]; unfold isNumber_lambda.
    + now rewrite Hd.
    + reflexivity.
    + reflexivity.
Qed.

Lemma isEmpty_terminated s :
  s <> "" -> all_chars blank_char s -> isEmpty (fun _ => zero) s = true.
Proof.
  intros Hne Hall. unfold isEmpty. apply andb_true_intro. split.
  - destruct s; [congruence | reflexivity].
  - apply (find_if_is_end_terminated _ blank_char); [| exact Hall].
    intros pos c ->. reflexivity.
Qed.

(** C10. On the empty string [isNumber] and [isEmpty] both return false,
    whatever lies in memory behind the lambda's parameter; and each of them
    returns true only for a non-empty string all of whose characters are in
    its class: digits, ['.'] and [' '] for [isNumber], [' '] for
    [isEmpty]. *)
Theorem string_predicates_need_content (behind : nat -> ascii) :
  isNumber behind "" = false /\
  isEmpty behind "" = false /\
  (forall s, isNumber behind s = true -> s <> "" /\ all_chars numeric_char s) /\
  (forall s, isEmpty behind s = true -> s <> "" /\ all_chars blank_char s).
Proof.
  split; [reflexivity |]. split; [reflexivity |]. split.
  - intros s H. unfold isNumber in H. apply andb_prop in H as [Hne Hall].
    split; [now apply string_empty_false |].
    exact (find_if_is_end_all _ _ (isNumber_lambda_class behind) _ _ Hall).
  - intros s H. unfold isEmpty in H. apply andb_prop in H as [Hne Hall].
    split; [now apply string_empty_false |].
    exact (find_if_is_end_all _ _ (isEmpty_lambda_class behind) _ _ Hall).
Qed.

Lemma string_predicates_need_content_witness :
  (isNumber (fun _ => zero) "12.5 " = true /\
   "12.5 " <> "" /\ all_chars numeric_char "12.5 ") /\
  (isEmpty (fun _ => zero) "  " = true /\
   "  " <> "" /\ all_chars blank_char "  ").
Proof.
  pose proof (string_predicates_need_content (fun _ => zero)) as (_ & _ & HN & HE).
  split.
  - split; [reflexivity | apply HN; reflexivity].
  - split; [reflexivity | apply HE; reflexivity].
Defined.

(** ** split *)

Lemma String_nonempty c s : String c s <> "".
Proof. discriminate. Qed.

Lemma getline_extract_shorter d : forall ss item rest,
  ss <> "" -> getline_extract ss d = (item, rest) ->
  (String.length rest < String.length ss)%nat.
Proof.
  induction ss as [| c ss IH]; intros item rest Hne H; [congruence |].
  simpl in H. destruct (Ascii.eqb c d).
  - inversion H; subst. simpl. lia.
  - destruct (getline_extract ss d) as [i r] eqn:E. inversion H; subst.
    destruct ss as [| c' ss'].
    + simpl in E. inversion E; subst. simpl. lia.
    + specialize (IH i rest (String_nonempty _ _) eq_refl). simpl in *. lia.
Qed.

Lemma split_loop_S fuel ss d elems :
  split_loop (S fuel) ss d elems =
  match getline ss d with
  | Some (item, ss') => split_loop fuel ss' d (elems ++ [item])
  | None => Some elems
  end.
Proof. reflexivity. Qed.

Lemma getline_String c ss d :
  getline (String c ss) d = Some (getline_extract (String c ss) d).
Proof. reflexivity. Qed.

(** The loop of [split] ends by itself: with more rounds than characters,
    it returns, and what it returns does not depend on the rounds given. *)
Lemma split_loop_total d : forall n ss,
  (String.length ss <= n)%nat ->
  forall fuel elems, (String.length ss < fuel)%nat ->
  split_loop fuel ss d elems = Some (elems ++ split ss d)%list.
Proof.
  induction n as [| n IH]; intros ss Hn fuel elems Hf.
  - destruct ss; [| simpl in Hn; lia].
    destruct fuel; [lia |]. simpl. unfold split. simpl. now rewrite List.app_nil_r.
  - destruct fuel as [| fuel]; [lia |].
    destruct ss as [| c ss]; [simpl; unfold split; simpl; now rewrite List.app_nil_r |].
    rewrite split_loop_S, getline_String.
    destruct (getline_extract (String c ss) d) as [item rest] eqn:E.
    pose proof (getline_extract_shorter d _ _ _ (String_nonempty _ _) E) as Hlt.
    cbn [String.length] in Hn, Hf, Hlt.
    rewrite IH by lia.
    unfold split at 2. rewrite split_loop_S, getline_String, E.
    cbn [String.length]. rewrite IH by lia. simpl.
    now rewrite <- List.app_assoc.
Qed.

Lemma split_empty d : split "" d = [].
Proof. reflexivity. Qed.

Lemma split_step d ss item rest :
  ss <> "" -> getline_extract ss d = (item, rest) ->
  split ss d = item :: split rest d.
Proof.
  intros Hne E. destruct ss as [| c ss]; [congruence |].
  unfold split at 1. rewrite split_loop_S, getline_String, E.
  pose proof (getline_extract_shorter d _ _ _ Hne E) as Hlt.
  cbn [String.length] in *.
  rewrite (split_loop_total d (String.length rest)) by lia.
  reflexivity.
Qed.

Lemma split_delim d s : split (String d s) d = "" :: split s d.
Proof.
  apply split_step; [discriminate |]. simpl. now rewrite Ascii.eqb_refl.
Qed.

Lemma split_other d c s :
  c <> d ->
  split (String c s) d =
  match split s d with
  | [] => [String c ""]
  | item :: elems => String c item :: elems
  end.
Proof.
  intros Hc. apply Ascii.eqb_neq in Hc.
  destruct (getline_extract s d) as [item rest] eqn:E.
  rewrite (split_step d (String c s) (String c item) rest);
    [| discriminate | simpl; now rewrite Hc, E].
  destruct s as [| c' s'].
  - simpl in E. inversion E; subst. reflexivity.
  - now rewrite (split_step d _ _ _ (String_nonempty _ _) E).
Qed.

Lemma split_nonempty d s : s <> "" -> split s d <> [].
Proof.
  intros Hne. destruct (getline_extract s d) as [item rest] eqn:E.
  now rewrite (split_step d s item rest Hne E).
Qed.

Lemma append_String c a b : String c a ++ b = String c (a ++ b).
Proof. reflexivity. Qed.

Lemma append_empty b : "" ++ b = b.
Proof. reflexivity. Qed.

Lemma split_at_delim d : forall a r,
  ~ occurs d a -> split (a ++ String d r) d = a :: split r d.
Proof.
  induction a as [| c a IH]; intros r Hno.
  - rewrite append_empty. apply split_delim.
  - simpl in Hno. rewrite append_String, split_other by tauto.
    rewrite IH by tauto. reflexivity.
Qed.

Lemma join_cons d item elems :
  elems <> [] ->
  join d (item :: elems) = item ++ String d (join d elems).
Proof. destruct elems; [congruence | reflexivity]. Qed.

Lemma join_split d : forall s,
  s = "" \/ ~ ends_with s d -> join d (split s d) = s.
Proof.
  induction s as [| c s IH]; intros H; [reflexivity |].
  destruct H as [H | H]; [discriminate |].
  destruct (ascii_dec c d) as [-> | Hc].
  - destruct s as [| c' s']; [exfalso; apply H; reflexivity |].
    rewrite split_delim, join_cons by (apply split_nonempty; discriminate).
    rewrite append_empty. f_equal. apply IH. right. exact H.
  - rewrite split_other by exact Hc.
    destruct s as [| c' s']; [reflexivity |].
    assert (IH' : join d (split (String c' s') d) = String c' s')
      by (apply IH; right; exact H).
    destruct (split (String c' s') d) as [| item elems] eqn:E;
      [exfalso; exact (split_nonempty d _ (String_nonempty _ _) E) |].
    destruct elems as [| e elems].
    + change (join d [item]) with item in IH'.
      change (join d [String c item]) with (String c item). now rewrite IH'.
    + rewrite join_cons in IH' by discriminate.
      rewrite join_cons by discriminate.
      now rewrite append_String, IH'.
Qed.

(** C9. For every delimiter [d] and every string [s] that is empty or does
    not end with [d], joining [split s d] with [d] gives [s] back.  Every
    delimiter closes the element before it, so that consecutive delimiters
    leave an empty element between them, and a delimiter at the very end
    opens no further element: [split (a ++ d :: r) d = a :: split r d]
    whenever [d] does not occur in [a], and nothing is split off the empty
    string. *)
Theorem split_join_roundtrip (d : ascii) :
  (forall s, s = "" \/ ~ ends_with s d -> join d (split s d) = s) /\
  (forall a r, ~ occurs d a -> split (a ++ String d r) d = a :: split r d) /\
  split "" d = [].
Proof.
  split; [exact (join_split d) |]. split; [exact (split_at_delim d) |].
  apply split_empty.
Qed.

Lemma split_join_roundtrip_witness :
  join "," (split ",a,,b" ",") = ",a,,b" /\
  split ("a" ++ String "," (String "," "b")) "," = "a" :: split ",b" "," /\
  split ("a" ++ String "," "") "," = ["a"].
Proof.
  pose proof (split_join_roundtrip ","%char) as (HJ & HS & HE).
  split; [apply HJ; right; unfold ends_with; simpl; congruence |].
  split; [apply HS; simpl; intros [H | []]; discriminate |].
  rewrite HS by (simpl; intros [H | []]; discriminate). now rewrite HE.
Defined.

End UtilitiesSpec.

(** * Properties of the analysis program *)

Module AnalyseSpec.
Import Analyse.

(** ** Strings *)

Lemma append_String_l c a b : String c a ++ b = String c (a ++ b).
Proof. reflexivity. Qed.

Lemma append_empty_l b : "" ++ b = b.
Proof. reflexivity. Qed.

(** ** The state and its trace *)

Lemma trace_emitted e c d w :
  trace (mkState (e :: c) d w) = (trace (mkState c d w) ++ [e])%list.
Proof. unfold trace. simpl. apply reverse_cons. Qed.

Lemma trace_calls_app l st d w :
  trace (mkState (l ++ calls st) d w) = (trace st ++ reverse l)%list.
Proof. unfold trace. simpl. apply reverse_app. Qed.

Lemma bind_normal {A B} (m : Exec A) (k : A -> Exec B) st a st' :
  m st = (Normal a, st') -> bind m k st = k a st'.
Proof. unfold bind. now intros ->. Qed.

Lemma bind_thrown {A B} (m : Exec A) (k : A -> Exec B) st st' :
  m st = (Thrown, st') -> bind m k st = (Thrown, st').
Proof. unfold bind. now intros ->. Qed.

Lemma bind_returned {A B} (m : Exec A) (k : A -> Exec B) st code st' :
  m st = (Returned code, st') -> bind m k st = (Returned code, st').
Proof. unfold bind. now intros ->. Qed.

Lemma bind_out_of_fuel {A B} (m : Exec A) (k : A -> Exec B) st st' :
  m st = (OutOfFuel, st') -> bind m k st = (OutOfFuel, st').
Proof. unfold bind. now intros ->. Qed.

(** ** The generator check (lines 79-93) *)

(** C2, as the program has it.  When the mode is [File] and the generator
    is absent or not ready, [main] returns 1 having made one call only:
    the save of the engine state to [tmp.snap] in the output directory
    (line 79).  No sample is drawn and no canvas, matrix or frame is
    saved. *)
Theorem unready_file_generator_stops (ext : Collaborators) (M Nfilter : Z)
        (wired : option Generator) (st : State) :
  unready wired ->
  let tmp := outdir_of (project_of File Nfilter) ++ "tmp.snap" in
  let out := main_with ext M Nfilter File wired st in
  fst out = Returned 1 /\
  trace (snd out) = (trace st ++ [EngineSave tmp])%list /\
  disk (snd out) = <[tmp := SnapFile (wavenet st)]> (disk st).
Proof.
  intros Hw tmp out. subst out. unfold main_with. fold tmp.
  assert (Hsel : forall s, select_generator File wired s = (Returned 1, s)).
  { intros s. unfold select_generator. destruct wired as [g |]; [| reflexivity].
    simpl in Hw. now rewrite Hw. }
  rewrite (bind_normal (wavenet_save tmp) _ st tt _ eq_refl).
  rewrite (bind_returned _ _ _ 1 _ (Hsel _)).
  cbn [fst snd disk]. repeat split. apply trace_emitted.
Qed.

Lemma unready_file_generator_stops_witness :
  let out := main Samples.collaborators (initial_state ∅ Samples.fresh) in
  fst out = Returned 1 /\
  trace (snd out) = [EngineSave "./output/Run.File.N4/tmp.snap"] /\
  disk (snd out) = <["./output/Run.File.N4/tmp.snap" := SnapFile Samples.fresh]> ∅.
Proof.
  pose proof (unready_file_generator_stops Samples.collaborators 5 4 None
                (initial_state ∅ Samples.fresh) I) as H.
  exact H.
Defined.

(** C2 as the specification words it does not hold: by the time [main] returns in [File]
    mode with no generator, a call that writes a file has been made. *)
Lemma file_mode_has_saved_the_engine :
  let out := main Samples.collaborators (initial_state ∅ Samples.fresh) in
  ~ (fst out = Returned 1 /\
     Forall (fun e => draws_sample e = false /\ writes_file e = false) (trace (snd out))).
Proof.
  intros out [_ H]. subst out.
  apply Forall_inv in H. destruct H as [_ H]. discriminate H.
Qed.

(** ** The cost-map cache (lines 206-234) *)

(** C1, as the program has it.  The raw artifact alone decides.  When it
    is missing, the three grids are computed in one sweep and each is
    saved under its name; when it is present, nothing is computed and the
    three matrices are read from the three names, whether or not the
    sparsified and the regularised artifact exist (a missing one leaves
    its matrix empty). *)
Theorem cost_maps_gated_on_raw (ext : Collaborators) (project : string)
        (examples : list Mat) (st : State) :
  let raw := costMapName project in
  let sparse := costMapSparseName project in
  let reg := costMapRegName project in
  let costs := wavenet_costMap ext (wavenet st) examples in
  let out := cost_maps ext project examples st in
  wavenet (snd out) = wavenet st /\
  (disk st !! raw = None ->
     fst out = Normal (fst (fst costs), [], []) /\
     trace (snd out) =
       (trace st ++ [CostMapSweep; MatSave raw; MatSave sparse; MatSave reg])%list /\
     disk (snd out) =
       <[reg := MatFile (snd costs)]>
         (<[sparse := MatFile (snd (fst costs))]>
            (<[raw := MatFile (fst (fst costs))]> (disk st)))) /\
  (is_Some (disk st !! raw) ->
     fst out = Normal (mat_at (disk st) raw, mat_at (disk st) sparse, mat_at (disk st) reg) /\
     trace (snd out) = (trace st ++ [MatLoad raw; MatLoad sparse; MatLoad reg])%list /\
     disk (snd out) = disk st).
Proof.
  intros raw sparse reg costs out. subst out.
  unfold cost_maps, bind, fileExists. cbn [fst snd].
  fold raw sparse reg.
  destruct (disk st !! raw) as [f |] eqn:E.
  - rewrite bool_decide_eq_true_2 by eauto. simpl.
    split; [reflexivity |]. split; [intros; discriminate |].
    intros _. unfold mat_at. rewrite E.
    split; [reflexivity |]. split; [| reflexivity].
    rewrite !trace_emitted. destruct st; simpl.
    now rewrite <- !List.app_assoc.
  - rewrite bool_decide_eq_false_2 by (intros [? ?]; discriminate). simpl.
    split; [reflexivity |]. split.
    + intros _. split; [reflexivity |]. split; [| reflexivity].
      rewrite !trace_emitted. destruct st; simpl.
      now rewrite <- !List.app_assoc.
    + intros [? ?]; discriminate.
Qed.

Lemma cost_maps_gated_on_raw_witness :
  let project := "Run.Needle.N4" in
  let st0 := initial_state ∅ Samples.fresh in
  let st1 := initial_state {[ costMapName project := MatFile [[Q2Qc 7]] ]} Samples.fresh in
  (disk st0 !! costMapName project = None /\
   fst (cost_maps Samples.collaborators project [] st0) = Normal ([[Q2Qc 1]], [], []) /\
   trace (snd (cost_maps Samples.collaborators project [] st0)) =
     [CostMapSweep; MatSave "output/costMap.Run.Needle.mat";
      MatSave "output/costMapSparse.Run.Needle.mat";
      MatSave "output/costMapReg.Run.Needle.mat"]) /\
  (is_Some (disk st1 !! costMapName project) /\
   fst (cost_maps Samples.collaborators project [] st1) = Normal ([[Q2Qc 7]], [], []) /\
   trace (snd (cost_maps Samples.collaborators project [] st1)) =
     [MatLoad "output/costMap.Run.Needle.mat";
      MatLoad "output/costMapSparse.Run.Needle.mat";
      MatLoad "output/costMapReg.Run.Needle.mat"]).
Proof.
  intros project st0 st1. split.
  - assert (H0 : disk st0 !! costMapName project = None) by reflexivity.
    split; [exact H0 |].
    destruct (cost_maps_gated_on_raw Samples.collaborators project [] st0)
      as (_ & Hmiss & _).
    destruct (Hmiss H0) as (Hr & Ht & _). split; [exact Hr | exact Ht].
  - assert (H1 : is_Some (disk st1 !! costMapName project)) by (vm_compute; eauto).
    split; [exact H1 |].
    destruct (cost_maps_gated_on_raw Samples.collaborators project [] st1)
      as (_ & _ & Hhit).
    destruct (Hhit H1) as (Hr & Ht & _). split; [exact Hr | exact Ht].
Defined.

(** C1 as the specification words it does not hold: with the raw artifact on disk and the
    other two missing, nothing is recomputed and nothing is written; the
    raw grid is read back and the other two matrices stay empty. *)
Lemma partial_cache_is_read_back :
  let project := "Run.Needle.N4" in
  let st := initial_state {[ costMapName project := MatFile [[Q2Qc 7]] ]} Samples.fresh in
  let out := cost_maps Samples.collaborators project [] st in
  ~ ((exists name, name ∈ cache_names project /\ disk st !! name = None) ->
     CostMapSweep ∈ trace (snd out) /\
     (forall name, name ∈ cache_names project -> MatSave name ∈ trace (snd out)) /\
     (forall name, MatLoad name ∉ trace (snd out))).
Proof.
  intros project st out H.
  destruct H as (_ & _ & H).
  - exists (costMapSparseName project). split; [| reflexivity].
    unfold cache_names. set_solver.
  - apply (H (costMapName project)). subst out. vm_compute. left.
Qed.

(** ** The names of the cache artifacts (lines 207-210) *)

Lemma count_digits_uint (d : Decimal.uint) :
  count_digits (NilEmpty.string_of_uint d) = String.length (NilEmpty.string_of_uint d).
Proof. induction d; simpl; congruence. Qed.

Lemma to_string_digits (n : Z) :
  0 <= n ->
  exists k, count_digits (to_string n) = S k /\ String.length (to_string n) = S k.
Proof.
  intros Hn. unfold to_string. destruct n as [| p | p]; [| | lia].
  - exists O. split; reflexivity.
  - simpl. destruct (Pos.to_uint p) eqn:E; simpl;
      try (eexists; split; [reflexivity | reflexivity]);
      rewrite count_digits_uint; eexists; split; reflexivity.
Qed.

Lemma regex_replace_go_skip : forall s k,
  (String.length s <= k)%nat -> regex_replace_go k s = "".
Proof.
  induction s as [| c s IH]; intros k Hk; [reflexivity |].
  simpl in Hk. destruct k as [| k]; [lia |]. simpl. apply IH. lia.
Qed.

(** A character that is not followed by ['N'] starts no match. *)
Lemma regex_replace_go_keep c c2 s :
  c2 <> "N"%char ->
  regex_replace_go 0 (String c (String c2 s)) = String c (regex_replace_go 0 (String c2 s)).
Proof.
  intros Hc.
  assert (Hm : match_length (String c (String c2 s)) = None).
  { unfold match_length.
    destruct c2 as [[] [] [] [] [] [] [] []]; try reflexivity. congruence. }
  change (regex_replace_go 0 (String c (String c2 s)))
    with (match match_length (String c (String c2 s)) with
          | Some (S k) => regex_replace_go k (String c2 s)
          | _ => String c (regex_replace_go 0 (String c2 s))
          end).
  now rewrite Hm.
Qed.

(** Neither does one followed by ['N'] and then by something other than
    a digit. *)
Lemma regex_replace_go_keep_N c c3 s :
  Utilities.isdigit c3 = false ->
  regex_replace_go 0 (String c (String "N" (String c3 s)))
  = String c (regex_replace_go 0 (String "N" (String c3 s))).
Proof.
  intros Hc.
  assert (Hm : match_length (String c (String "N" (String c3 s))) = None).
  { unfold match_length. cbn [count_digits]. rewrite Hc.
    now destruct (line_terminator c). }
  change (regex_replace_go 0 (String c (String "N" (String c3 s))))
    with (match match_length (String c (String "N" (String c3 s))) with
          | Some (S k) => regex_replace_go k (String "N" (String c3 s))
          | _ => String c (regex_replace_go 0 (String "N" (String c3 s)))
          end).
  now rewrite Hm.
Qed.

(** The suffix [".N<digits>"] is one match, and goes. *)
Lemma regex_replace_go_suffix (n : Z) :
  0 <= n -> regex_replace_go 0 (String "." (String "N" (to_string n))) = "".
Proof.
  intros Hn. destruct (to_string_digits n Hn) as (k & Hc & Hl).
  change (regex_replace_go 0 (String "." (String "N" (to_string n))))
    with (match match_length (String "." (String "N" (to_string n))) with
          | Some (S k) => regex_replace_go k (String "N" (to_string n))
          | _ => String "." (regex_replace_go 0 (String "N" (to_string n)))
          end).
  unfold match_length. cbn [line_terminator nat_of_ascii]. rewrite Hc.
  apply regex_replace_go_skip. simpl. lia.
Qed.

Lemma regex_replace_project (mode : GeneratorMode) (Nfilter : Z) :
  0 <= Nfilter ->
  regex_replace_N_suffix (project_of mode Nfilter) = "Run." ++ mode_name mode.
Proof.
  intros Hn. unfold regex_replace_N_suffix.
  destruct mode.
  - change (project_of File Nfilter)
      with ("Run.File" ++ String "." (String "N" (to_string Nfilter))).
    repeat rewrite ?append_String_l, ?append_empty_l.
    rewrite !regex_replace_go_keep by discriminate.
    now rewrite regex_replace_go_suffix.
  - change (project_of Uniform Nfilter)
      with ("Run.Uniform" ++ String "." (String "N" (to_string Nfilter))).
    repeat rewrite ?append_String_l, ?append_empty_l.
    rewrite !regex_replace_go_keep by discriminate.
    now rewrite regex_replace_go_suffix.
  - change (project_of Needle Nfilter)
      with ("Run" ++ String "." (String "N" (String "e"
              ("edle" ++ String "." (String "N" (to_string Nfilter)))))).
    repeat rewrite ?append_String_l, ?append_empty_l.
    rewrite !regex_replace_go_keep by discriminate.
    rewrite regex_replace_go_keep_N by reflexivity.
    rewrite !regex_replace_go_keep by discriminate.
    now rewrite regex_replace_go_suffix.
  - change (project_of Gaussian Nfilter)
      with ("Run.Gaussian" ++ String "." (String "N" (to_string Nfilter))).
    repeat rewrite ?append_String_l, ?append_empty_l.
    rewrite !regex_replace_go_keep by discriminate.
    now rewrite regex_replace_go_suffix.
Qed.

(** C6. The three cache names are the project name with its
    [".N<Nfilter>"] suffix removed by the substitution, between
    ["output/costMap."], ["output/costMapSparse."] or ["output/costMapReg."]
    and [".mat"]; the project ["Run.File.N4"] gives
    ["output/costMap.Run.File.mat"]. *)
Theorem cache_names_strip_filter_count (mode : GeneratorMode) (Nfilter : Z) :
  0 <= Nfilter ->
  costMapName (project_of mode Nfilter) = "output/costMap.Run." ++ mode_name mode ++ ".mat" /\
  costMapSparseName (project_of mode Nfilter)
    = "output/costMapSparse.Run." ++ mode_name mode ++ ".mat" /\
  costMapRegName (project_of mode Nfilter)
    = "output/costMapReg.Run." ++ mode_name mode ++ ".mat" /\
  costMapName "Run.File.N4" = "output/costMap.Run.File.mat".
Proof.
  intros Hn. unfold costMapName, costMapSparseName, costMapRegName.
  rewrite (regex_replace_project mode Nfilter Hn).
  repeat split; destruct mode; reflexivity.
Qed.

Lemma cache_names_strip_filter_count_witness :
  costMapName (project_of File 4) = "output/costMap.Run.File.mat" /\
  costMapSparseName (project_of File 4) = "output/costMapSparse.Run.File.mat" /\
  costMapRegName (project_of File 4) = "output/costMapReg.Run.File.mat" /\
  costMapName "Run.File.N4" = "output/costMap.Run.File.mat".
Proof. apply (cache_names_strip_filter_count File 4). lia. Defined.

(** ** Loops that only make calls *)

Lemma emits_with_emit w e : emits_with w (emit e) [e].
Proof. intros st _. reflexivity. Qed.

Lemma emits_with_bind w (m : Exec unit) (k : unit -> Exec unit) l1 l2 :
  emits_with w m l1 -> emits_with w (k tt) l2 ->
  emits_with w (bind m k) (l1 ++ l2).
Proof.
  intros Hm Hk st Hw. rewrite (bind_normal _ _ _ _ _ (Hm st Hw)).
  rewrite Hk by exact Hw. cbn [calls disk wavenet].
  now rewrite reverse_app, <- List.app_assoc.
Qed.

Lemma for_range_S {S : Type} i n (body : Z -> S -> Exec S) s :
  for_range i (Datatypes.S n) body s = bind (body i s) (fun s' => for_range (i + 1) n body s').
Proof. reflexivity. Qed.

Lemma seqZ_S_head lo (n : nat) :
  seqZ lo (Z.of_nat (S n)) = lo :: seqZ (lo + 1) (Z.of_nat n).
Proof.
  rewrite seqZ_cons by lia. f_equal. f_equal; lia.
Qed.

Lemma emits_with_for_range w (body : Z -> unit -> Exec unit) (f : Z -> list event) :
  (forall i, emits_with w (body i tt) (f i)) ->
  forall n lo,
    emits_with w (for_range lo n body tt) (i ← seqZ lo (Z.of_nat n); f i).
Proof.
  intros Hbody. induction n as [| n IH]; intros lo.
  - intros st _. destruct st. reflexivity.
  - rewrite for_range_S, seqZ_S_head, bind_cons.
    apply emits_with_bind; [apply Hbody |].
    apply IH.
Qed.

(** ** The orthonormality audit (lines 325-340) *)

Lemma sq_small (x : Z) : 0 <= x < 65536 -> Utilities.sq x = x * x.
Proof.
  intros Hx. unfold Utilities.sq, u32, UINT_MOD.
  apply Z.mod_small. nia.
Qed.

(** The order of binary64, as far as the clamp needs it. *)
Lemma SFcompare_swap (x y : double) :
  SFcompare y x = option_map CompOpp (SFcompare x y).
Proof.
  destruct x as [sx | sx | | sx mx ex], y as [sy | sy | | sy my ey]; simpl;
    try reflexivity; try (destruct sx; reflexivity); try (destruct sy; reflexivity);
    try (destruct sx, sy; reflexivity).
  destruct sx, sy; try reflexivity; simpl; f_equal;
    rewrite (Z.compare_antisym ex ey); destruct (ex ?= ey)%Z; simpl; try reflexivity;
    pose proof (Pos.compare_cont_antisym mx my Eq) as Ha; simpl in Ha;
    rewrite Ha; reflexivity.
Qed.

Lemma SFcompare_defined (x y : double) :
  dbl_is_nan x = false -> dbl_is_nan y = false -> SFcompare x y <> None.
Proof. destruct x, y; simpl; intros Hx Hy; discriminate. Qed.

Lemma dbl_not_lt_le (x y : double) :
  dbl_is_nan x = false -> dbl_is_nan y = false ->
  dbl_lt x y = false -> dbl_le y x = true.
Proof.
  intros Hx Hy. unfold dbl_lt, dbl_le, SFltb, SFleb. rewrite (SFcompare_swap x y).
  pose proof (SFcompare_defined x y Hx Hy) as Hd.
  destruct (SFcompare x y) as [[| |] |]; simpl; congruence.
Qed.

Lemma dbl_le_not_lt (x y : double) : dbl_le x y = true -> dbl_lt y x = false.
Proof.
  unfold dbl_lt, dbl_le, SFltb, SFleb. rewrite (SFcompare_swap x y).
  destruct (SFcompare x y) as [[| |] |]; simpl; congruence.
Qed.

(** The four literals of line 334, as the doubles they denote. *)
Lemma display_literals :
  display_low = S754_finite true 4503599627370496 (-53) /\
  display_high = S754_finite false 6755399441055744 (-52) /\
  fill_low = S754_finite true 8989184856231510 (-54) /\
  fill_high = S754_finite false 6750895841428374 (-52).
Proof. vm_compute. repeat split. Qed.

Lemma clamp_norm_below (x : double) :
  dbl_lt x display_low = true -> clamp_norm x = fill_low.
Proof. unfold clamp_norm. now intros ->. Qed.

Lemma clamp_norm_above (x : double) :
  dbl_lt display_high x = true -> clamp_norm x = fill_high.
Proof.
  intros Hhi. unfold clamp_norm. rewrite Hhi.
  destruct display_literals as (Hl & Hh & _). rewrite Hl. rewrite Hh in Hhi.
  destruct x as [s | s | | s m e]; try discriminate Hhi;
    destruct s; try discriminate Hhi; reflexivity.
Qed.

Lemma clamp_norm_inside (x : double) :
  in_display_range x = true -> clamp_norm x = x.
Proof.
  unfold in_display_range. intros Hin. apply andb_prop in Hin as [Hlo Hhi].
  unfold clamp_norm.
  now rewrite (dbl_le_not_lt _ _ Hlo), (dbl_le_not_lt _ _ Hhi).
Qed.

Lemma clamp_norm_in_range (x : double) :
  dbl_is_nan x = false -> in_display_range (clamp_norm x) = true.
Proof.
  intros Hx. unfold clamp_norm.
  destruct (dbl_lt x display_low) eqn:Hlo; [vm_compute; reflexivity |].
  destruct (dbl_lt display_high x) eqn:Hhi; [vm_compute; reflexivity |].
  unfold in_display_range.
  rewrite (dbl_not_lt_le x display_low Hx eq_refl Hlo).
  now rewrite (dbl_not_lt_le display_high x eq_refl Hx Hhi).
Qed.

Lemma clamp_norm_nan :
  clamp_norm S754_nan = S754_nan /\ in_display_range S754_nan = false.
Proof. split; reflexivity. Qed.

Section Audit.

Variable ext : Collaborators.

Lemma audit_pair_emits w W H i j :
  emits_with w (audit_pair ext W H i j) (audit_calls ext w W H i j).
Proof. intros st <-. reflexivity. Qed.

Lemma audit_emits_sq w project W H :
  emits_with w (audit ext project W H)
    ((i ← seqZ 0 (Utilities.sq W); j ← seqZ 0 (Utilities.sq H); audit_calls ext w W H i j)
     ++ [CanvasSaveAs (outdir_of project ++ "NormDistributions.pdf")]).
Proof.
  unfold audit.
  apply emits_with_bind; [| apply emits_with_emit].
  rewrite <- (Z2Nat.id (Utilities.sq W)) at 2
    by (unfold Utilities.sq, u32, UINT_MOD; apply Z.mod_pos_bound; lia).
  apply emits_with_for_range. intros i.
  rewrite <- (Z2Nat.id (Utilities.sq H)) at 2
    by (unfold Utilities.sq, u32, UINT_MOD; apply Z.mod_pos_bound; lia).
  apply emits_with_for_range. intros j.
  apply audit_pair_emits.
Qed.

Lemma audit_emits w project W H :
  0 <= W < 65536 -> 0 <= H < 65536 ->
  emits_with w (audit ext project W H)
    ((i ← seqZ 0 (W * W); j ← seqZ 0 (H * H); audit_calls ext w W H i j)
     ++ [CanvasSaveAs (outdir_of project ++ "NormDistributions.pdf")]).
Proof.
  intros HW HH. unfold audit.
  apply emits_with_bind; [| apply emits_with_emit].
  rewrite !sq_small by assumption.
  rewrite <- (Z2Nat.id (W * W)) at 2 by nia.
  apply emits_with_for_range. intros i.
  rewrite <- (Z2Nat.id (H * H)) at 2 by nia.
  apply emits_with_for_range. intros j.
  apply audit_pair_emits.
Qed.

End Audit.

(** C7, as the program has it.  The audit runs over every pair [(i, j)]
    with [i < sq(W)] and [j < sq(H)], [i] outermost; the squares are taken
    in [unsigned], and are [W * W] and [H * H] for shapes below 65536.  At
    each pair it synthesizes the basis function twice at the same
    coordinates [(i mod W, j / H)] and fills the histogram with what the
    ternary of line 334 makes of the overlap [trace(f1 * f2.t())]: an
    overlap below -0.5 is filled as -0.499, one above 1.5 as 1.499, one
    inside [[-0.5, 1.5]] as it is, so that every overlap that is a number
    is filled inside that range.  An overlap that is NaN fails both
    comparisons and is filled as it is, outside the range.  The audit ends
    by saving the canvas and changes neither the disk nor the engine. *)
Theorem audit_fills_clamped_overlaps (ext : Collaborators) (project : string)
        (W H : Z) (st : State) :
  0 <= W < UINT_MOD -> 0 <= H < UINT_MOD ->
  let out := audit ext project W H st in
  let f i j := wavenet_basisFunction ext (wavenet st) W H (i mod W) (j / H) in
  fst out = Normal tt /\
  trace (snd out) =
    (trace st
     ++ (i ← seqZ 0 (Utilities.sq W); j ← seqZ 0 (Utilities.sq H);
         [BasisFunction W H (i mod W) (j / H);
          BasisFunction W H (i mod W) (j / H);
          HistFill (clamp_norm (arma_trace_mul_t ext (f i j) (f i j)))])
     ++ [CanvasSaveAs (outdir_of project ++ "NormDistributions.pdf")])%list /\
  (W < 65536 -> Utilities.sq W = W * W) /\
  (H < 65536 -> Utilities.sq H = H * H) /\
  disk (snd out) = disk st /\
  wavenet (snd out) = wavenet st /\
  (forall x : double, dbl_lt x display_low = true -> clamp_norm x = fill_low) /\
  (forall x : double, dbl_lt display_high x = true -> clamp_norm x = fill_high) /\
  (forall x : double, in_display_range x = true -> clamp_norm x = x) /\
  (forall x : double, dbl_is_nan x = false -> in_display_range (clamp_norm x) = true) /\
  clamp_norm S754_nan = S754_nan /\
  in_display_range S754_nan = false.
Proof.
  intros HW HH out f. subst out.
  rewrite (audit_emits_sq ext (wavenet st) project W H st eq_refl).
  cbn [fst snd disk wavenet].
  split; [reflexivity |]. split.
  { rewrite trace_calls_app, reverse_involutive. reflexivity. }
  split; [intros Hs; apply sq_small; lia |].
  split; [intros Hs; apply sq_small; lia |].
  split; [reflexivity |]. split; [reflexivity |].
  split; [exact clamp_norm_below |]. split; [exact clamp_norm_above |].
  split; [exact clamp_norm_inside |]. split; [exact clamp_norm_in_range |].
  exact clamp_norm_nan.
Qed.

Lemma audit_fills_clamped_overlaps_witness :
  let out := audit Samples.collaborators "Run.Needle.N4" 3 1
                   (initial_state ∅ Samples.fresh) in
  fst out = Normal tt /\
  trace (snd out) =
    [BasisFunction 3 1 0 0; BasisFunction 3 1 0 0; HistFill (dbl_of_Z 0);
     BasisFunction 3 1 1 0; BasisFunction 3 1 1 0; HistFill (dbl_of_Z 1);
     BasisFunction 3 1 2 0; BasisFunction 3 1 2 0; HistFill fill_high;
     BasisFunction 3 1 0 0; BasisFunction 3 1 0 0; HistFill (dbl_of_Z 0);
     BasisFunction 3 1 1 0; BasisFunction 3 1 1 0; HistFill (dbl_of_Z 1);
     BasisFunction 3 1 2 0; BasisFunction 3 1 2 0; HistFill fill_high;
     BasisFunction 3 1 0 0; BasisFunction 3 1 0 0; HistFill (dbl_of_Z 0);
     BasisFunction 3 1 1 0; BasisFunction 3 1 1 0; HistFill (dbl_of_Z 1);
     BasisFunction 3 1 2 0; BasisFunction 3 1 2 0; HistFill fill_high;
     CanvasSaveAs "./output/Run.Needle.N4/NormDistributions.pdf"] /\
  clamp_norm (S754_infinity true) = fill_low /\
  clamp_norm (S754_infinity false) = fill_high /\
  let f := [[dbl_literal 2 10; dbl_literal 58 100; dbl_literal 106 100]] in
  Samples.trace_mul_t f f = display_high /\
  clamp_norm (Samples.trace_mul_t f f) = display_high.
Proof.
  intros out.
  destruct (audit_fills_clamped_overlaps Samples.collaborators "Run.Needle.N4" 3 1
              (initial_state ∅ Samples.fresh)
              ltac:(split; [lia | reflexivity]) ltac:(split; [lia | reflexivity]))
    as (Hr & Ht & _ & _ & _ & _ & Hlo & Hhi & Hin & _).
  split; [exact Hr |]. split; [subst out; rewrite Ht; vm_compute; reflexivity |].
  split; [apply Hlo; reflexivity |]. split; [apply Hhi; reflexivity |].
  intros f. split; [vm_compute; reflexivity |].
  apply Hin. vm_compute. reflexivity.
Defined.

(** C7 as the specification words it does not hold where an overlap is
    NaN: with basis functions that have come out as NaN,
    [trace(f1 * f2.t())] is NaN, both comparisons of line 334 are false,
    and NaN is what is filled, which is no value of [[-0.5, 1.5]]. *)
Lemma nan_overlap_is_filled_unclamped :
  let out := audit Samples.diverged "Run.Needle.N4" 1 1 (initial_state ∅ Samples.fresh) in
  ~ (forall x : double, HistFill x ∈ trace (snd out) -> in_display_range x = true).
Proof.
  intros out Hall.
  assert (Ht : trace (snd out)
               = [BasisFunction 1 1 0 0; BasisFunction 1 1 0 0; HistFill S754_nan;
                  CanvasSaveAs "./output/Run.Needle.N4/NormDistributions.pdf"])
    by (vm_compute; reflexivity).
  specialize (Hall S754_nan). rewrite Ht in Hall.
  assert (Hin : in_display_range S754_nan = true) by (apply Hall; set_solver).
  discriminate Hin.
Qed.

(** ** The movie of basis functions (lines 343-410) *)

Lemma seqZ_to_nat lo n : seqZ lo (Z.of_nat (Z.to_nat n)) = seqZ lo n.
Proof.
  destruct (Z_le_gt_dec 0 n) as [Hn | Hn].
  - now rewrite Z2Nat.id.
  - rewrite (seqZ_nil lo n) by lia.
    replace (Z.to_nat n) with O by lia. reflexivity.
Qed.

Lemma render_pads_emits w sizex sizey :
  emits_with w (render_pads sizex sizey (Z.min sizex 8) (Z.min sizey 8))
             (frame_pixels sizex sizey).
Proof.
  unfold render_pads, frame_pixels.
  rewrite <- (seqZ_to_nat 0 (Z.min sizex 8)).
  apply emits_with_for_range. intros i.
  rewrite <- (seqZ_to_nat 0 (Z.min sizey 8)).
  apply emits_with_for_range. intros j.
  apply emits_with_emit.
Qed.

Lemma vector_at_in_range {A} (v : list A) (i : Z) (a : A) st :
  0 <= i < SIZE_MOD -> v !! Z.to_nat i = Some a -> vector_at v i st = (Normal a, st).
Proof.
  intros Hi Ha. unfold vector_at.
  assert (Hlt : (Z.to_nat i < length v)%nat) by (eapply lookup_lt_Some; eauto).
  assert (Hu : usize i = i) by (unfold usize; now apply Z.mod_small).
  rewrite Hu. destruct (decide (i < Z.of_nat (length v))); [| lia].
  now rewrite Ha.
Qed.

Lemma u32_small x : 0 <= x < UINT_MOD -> u32 x = x.
Proof. intros Hx. unfold u32. now apply Z.mod_small. Qed.

Lemma UINT_below_SIZE : UINT_MOD < SIZE_MOD.
Proof. reflexivity. Qed.

Lemma skipped_retained N i :
  0 <= i < N -> N < UINT_MOD -> skipped N i = negb (retained N i).
Proof.
  intros Hi HN. unfold skipped, retained.
  assert (Hm : 0 <= i mod 4 < 4) by (apply Z.mod_pos_bound; lia).
  destruct (Z_lt_ge_dec N 100) as [Hs | Hs].
  - rewrite (bool_decide_eq_false_2 (100 < i)) by lia.
    rewrite (bool_decide_eq_true_2 (i < 100 \/ _)) by lia. reflexivity.
  - rewrite u32_small by lia.
    destruct (bool_decide (i < 100 \/ N - 100 <= i \/ i mod 4 = 0)) eqn:E.
    + apply bool_decide_eq_true_1 in E. simpl.
      apply andb_false_iff.
      destruct (decide (i mod 4 = 0)) as [H4 | H4].
      * right. apply bool_decide_eq_false_2. lia.
      * left. apply andb_false_iff.
        destruct (decide (i < 100)).
        -- left. apply bool_decide_eq_false_2. lia.
        -- right. apply bool_decide_eq_false_2. lia.
    + apply bool_decide_eq_false_1 in E. simpl.
      assert (i <> 100) by (intros ->; apply E; right; right; reflexivity).
      rewrite !bool_decide_eq_true_2 by lia. reflexivity.
Qed.

Lemma rank_succ N i :
  0 <= i -> rank N (i + 1) = rank N i + (if retained N i then 1 else 0).
Proof.
  intros Hi. unfold rank.
  rewrite (seqZ_app 0 i 1) by lia. rewrite List.filter_app, List.length_app.
  change (seqZ (0 + i) 1) with [0 + i]. rewrite Z.add_0_l. simpl.
  destruct (retained N i); simpl; lia.
Qed.

Lemma rank_bounds N i : 0 <= rank N i <= Z.max 0 i.
Proof.
  unfold rank. pose proof (List.filter_length_le (retained N) (seqZ 0 i)) as H.
  rewrite length_seqZ in H. lia.
Qed.

Section Movie.

Variable project : string.
Variables sizex sizey : Z.
Variable filterLog : list Mat.

Local Abbreviation N := (Z.of_nat (length filterLog)).

Hypothesis HN : N < UINT_MOD.

(** One round of the loop. *)
Lemma movie_step_run iCoeff st :
  0 <= iCoeff < N ->
  w_filterLog (wavenet st) = filterLog ->
  exists st',
    movie_step project filterLog sizex sizey (Z.min sizex 8) (Z.min sizey 8)
               N iCoeff (rank N iCoeff) st
    = (Normal (rank N (iCoeff + 1)), st') /\
    calls st' = (reverse (movie_calls project sizex sizey N iCoeff) ++ calls st)%list /\
    disk st' = disk st /\
    w_filterLog (wavenet st') = filterLog.
Proof.
  intros Hi Hfl. unfold movie_step.
  destruct (lookup_lt_is_Some_2 filterLog (Z.to_nat iCoeff)) as [filter Hf];
    [lia |].
  pose proof UINT_below_SIZE as HU.
  rewrite (bind_normal _ _ _ _ _
             (vector_at_in_range filterLog iCoeff filter st ltac:(lia) Hf)).
  rewrite (bind_normal (wavenet_setFilter iCoeff filter) _ st tt _ eq_refl).
  rewrite skipped_retained by lia.
  rewrite rank_succ by lia.
  unfold movie_calls.
  destruct (retained N iCoeff); cbn [negb].
  - set (st1 := mkState _ _ _).
    rewrite (bind_normal _ _ _ _ _
               (render_pads_emits (wavenet st1) sizex sizey st1 eq_refl)).
    eexists. split.
    + unfold bind, emit, ret. cbn [calls disk wavenet].
      rewrite u32_small; [reflexivity |].
      pose proof (rank_bounds N iCoeff). lia.
    + cbn [calls disk wavenet]. subst st1. cbn [calls disk wavenet w_filterLog].
      split; [| split; [reflexivity | exact Hfl]].
      rewrite reverse_cons, reverse_app, reverse_singleton.
      cbn [app]. now rewrite <- List.app_assoc.
  - eexists. split; [unfold ret; rewrite Z.add_0_r; reflexivity |].
    cbn [calls disk wavenet w_filterLog].
    split; [reflexivity | split; [reflexivity | exact Hfl]].
Qed.

(** The rounds from [lo] on. *)
Lemma movie_loop_run : forall n lo st,
  0 <= lo -> lo + Z.of_nat n = N ->
  w_filterLog (wavenet st) = filterLog ->
  exists st',
    for_range lo n
      (movie_step project filterLog sizex sizey (Z.min sizex 8) (Z.min sizey 8) N)
      (rank N lo) st
    = (Normal (rank N N), st') /\
    calls st' = (reverse (i ← seqZ lo (Z.of_nat n); movie_calls project sizex sizey N i)
                 ++ calls st)%list /\
    disk st' = disk st.
Proof.
  induction n as [| n IH]; intros lo st Hlo Hn Hfl.
  - exists st. replace lo with N by lia. repeat split.
  - destruct (movie_step_run lo st ltac:(lia) Hfl) as (st1 & Hstep & Hc1 & Hd1 & Hfl1).
    destruct (IH (lo + 1) st1 ltac:(lia) ltac:(lia) Hfl1) as (st2 & Hrest & Hc2 & Hd2).
    exists st2. rewrite for_range_S, (bind_normal _ _ _ _ _ Hstep).
    split; [exact Hrest |]. split; [| congruence].
    rewrite Hc2, Hc1, seqZ_S_head, bind_cons, reverse_app.
    now rewrite <- List.app_assoc.
Qed.

End Movie.

Lemma frame_pixels_no_frame sizex sizey :
  List.filter is_frame (frame_pixels sizex sizey) = [].
Proof.
  unfold frame_pixels.
  assert (Hrow : forall i (l' : list Z),
             List.filter is_frame (j ← l'; [BasisFunction sizex sizey i j]) = []).
  { intros i. induction l' as [| j l' IH']; [reflexivity |].
    rewrite bind_cons. simpl. exact IH'. }
  induction (seqZ 0 (Z.min sizex 8)) as [| i l IH]; [reflexivity |].
  rewrite bind_cons, List.filter_app, IH, List.app_nil_r.
  apply Hrow.
Qed.

(** The frames saved up to state [i] carry the numbers [0 .. rank N i - 1]. *)
Lemma movie_frames_dense project sizex sizey N : forall n : nat,
  List.filter is_frame (i ← seqZ 0 (Z.of_nat n); movie_calls project sizex sizey N i)
  = (fun k => CanvasSaveAs (frame_path (outdir_of project) k))
      <$> seqZ 0 (rank N (Z.of_nat n)).
Proof.
  induction n as [| n IH]; [reflexivity |].
  rewrite Nat2Z.inj_succ, <- Z.add_1_r.
  rewrite (seqZ_app 0 (Z.of_nat n) 1) by lia.
  rewrite bind_app, List.filter_app, IH. clear IH.
  rewrite rank_succ by lia.
  change (seqZ (0 + Z.of_nat n) 1) with [0 + Z.of_nat n]. rewrite Z.add_0_l.
  rewrite bind_cons. change (@mbind list _ _ _ (movie_calls project sizex sizey N) [])
    with (@nil event). rewrite List.app_nil_r.
  unfold movie_calls. pose proof (rank_bounds N (Z.of_nat n)) as Hr.
  destruct (retained N (Z.of_nat n)).
  - cbn [List.filter is_frame]. rewrite List.filter_app, frame_pixels_no_frame.
    rewrite (seqZ_app 0 (rank N (Z.of_nat n)) 1) by lia.
    rewrite fmap_app. f_equal.
  - cbn [List.filter is_frame]. now rewrite Z.add_0_r, List.app_nil_r.
Qed.

(** C4. Over a filter log of [N] states the movie loop sets the filter to
    every state in turn and keeps state [i] iff it is among the first
    hundred, among the last hundred or a fourth one.  For each kept state,
    in the order of the log, the basis function of every pixel of the
    8 x 8 neighbourhood clamped to the shape is synthesized and one frame is
    saved, numbered by the count of kept states before it: the frames
    carry the numbers [0 .. K - 1], [K] the number of kept states, which
    is also what the frame counter ends at. *)
Theorem movie_frames (project : string) (W H : Z) (st : State) :
  let N := Z.of_nat (length (w_filterLog (wavenet st))) in
  N < UINT_MOD ->
  let out := movie project W H st in
  let K := Z.of_nat (length (List.filter (retained N) (seqZ 0 N))) in
  fst out = Normal K /\
  trace (snd out) =
    (trace st
     ++ (i ← seqZ 0 N;
         SetFilter i ::
         (if retained N i
          then (x ← seqZ 0 (Z.min W 8); y ← seqZ 0 (Z.min H 8); [BasisFunction W H x y])
               ++ [CanvasSaveAs (frame_path (outdir_of project) (rank N i))]
          else [])))%list /\
  List.filter is_frame (trace (snd out)) =
    (List.filter is_frame (trace st)
     ++ ((fun k => CanvasSaveAs (frame_path (outdir_of project) k)) <$> seqZ 0 K))%list /\
  (forall i, retained N i = true <-> i < 100 \/ N - 100 <= i \/ i mod 4 = 0) /\
  disk (snd out) = disk st.
Proof.
  intros N HN out K. subst out. unfold movie.
  rewrite (bind_normal get_wavenet _ st (wavenet st) st eq_refl).
  fold N. rewrite (u32_small N) by lia.
  destruct (movie_loop_run project W H (w_filterLog (wavenet st)) HN
              (Z.to_nat N) 0 st ltac:(lia) ltac:(lia) eq_refl)
    as (st' & Hrun & Hc & Hd).
  fold N in Hrun, Hc. change (rank N 0) with 0 in Hrun. rewrite Hrun.
  cbn [fst snd].
  assert (Ht : trace st' =
               (trace st ++ (i ← seqZ 0 N; movie_calls project W H N i))%list).
  { unfold trace. rewrite Hc, reverse_app, reverse_involutive.
    now rewrite Z2Nat.id by lia. }
  split; [reflexivity |]. split; [exact Ht |]. split; [| split; [| exact Hd]].
  - rewrite Ht, List.filter_app. f_equal.
    rewrite <- (Z2Nat.id N) at 1 by lia.
    rewrite movie_frames_dense. now rewrite Z2Nat.id by lia.
  - intros i. unfold retained. apply bool_decide_eq_true.
Qed.

Lemma movie_frames_witness :
  let st := initial_state ∅ (Samples.run 1) in
  let out := movie "Run.Needle.N4" 2 1 st in
  fst out = Normal 3 /\
  List.filter is_frame (trace (snd out)) =
    [CanvasSaveAs "./output/Run.Needle.N4/movie/bestBasis_000000.png";
     CanvasSaveAs "./output/Run.Needle.N4/movie/bestBasis_000001.png";
     CanvasSaveAs "./output/Run.Needle.N4/movie/bestBasis_000002.png"].
Proof.
  intros st out.
  destruct (movie_frames "Run.Needle.N4" 2 1 st ltac:(reflexivity))
    as (Hr & _ & Hf & _).
  split; [exact Hr | exact Hf].
Defined.

(** ** The snapshot scan (lines 109-156) *)

Lemma usize_le i : 0 <= i -> 0 <= usize i <= i.
Proof.
  intros Hi. unfold usize, SIZE_MOD. split.
  - apply Z.mod_pos_bound. reflexivity.
  - apply Z.mod_le; [exact Hi | reflexivity].
Qed.

Lemma vector_at_lt {A} (v : list A) (i : Z) st :
  usize i < Z.of_nat (length v) ->
  exists a, vector_at v i st = (Normal a, st) /\ v !! Z.to_nat (usize i) = Some a.
Proof.
  intros Hi. unfold vector_at.
  destruct (decide (usize i < Z.of_nat (length v))); [| contradiction].
  assert (H0 : 0 <= usize i) by (apply Z.mod_pos_bound; reflexivity).
  destruct (lookup_lt_is_Some_2 v (Z.to_nat (usize i)) ltac:(lia)) as [a Ha].
  exists a. now rewrite Ha.
Qed.

Lemma vector_at_ge {A} (v : list A) (i : Z) st :
  Z.of_nat (length v) <= usize i -> vector_at v i st = (Thrown, st).
Proof.
  intros Hi. unfold vector_at.
  destruct (decide (usize i < Z.of_nat (length v))); [lia | reflexivity].
Qed.

Lemma vector_at_put_lt {A} (v : list A) (i : Z) (a : A) st :
  usize i < Z.of_nat (length v) ->
  vector_at_put v i a st = (Normal (<[Z.to_nat (usize i) := a]> v), st).
Proof.
  intros Hi. unfold vector_at_put.
  destruct (decide (usize i < Z.of_nat (length v))); [reflexivity | contradiction].
Qed.

(** The filter graph is built without a throw: every index is below the
    length of the filter log. *)
Lemma filter_points_run ext (filterLog : list Mat) : forall n lo xy st,
  0 <= lo -> lo + Z.of_nat n <= Z.of_nat (length filterLog) ->
  exists xy', for_range lo n (filter_point ext filterLog) xy st = (Normal xy', st).
Proof.
  induction n as [| n IH]; intros lo xy st Hlo Hn.
  - exists xy. reflexivity.
  - rewrite for_range_S. unfold filter_point at 1.
    assert (Hi : usize lo < Z.of_nat (length filterLog))
      by (pose proof (usize_le lo Hlo); lia).
    destruct (vector_at_lt filterLog lo st Hi) as (f & Hf & _).
    unfold bind at 1. unfold bind at 1. rewrite Hf.
    unfold bind at 1. rewrite Hf. unfold ret at 1.
    apply IH; lia.
Qed.

Lemma u32_le x : 0 <= x -> 0 <= u32 x <= x.
Proof.
  intros Hx. unfold u32, UINT_MOD. split.
  - apply Z.mod_pos_bound. reflexivity.
  - apply Z.mod_le; [exact Hx | reflexivity].
Qed.

Lemma short_logb_true w : short_logb w = true <-> short_log w.
Proof. unfold short_logb, short_log. apply bool_decide_eq_true. Qed.

Lemma short_logb_false w : short_logb w = false <-> ~ short_log w.
Proof. unfold short_logb, short_log. apply bool_decide_eq_false. Qed.

Section Scan.

Variable ext : Collaborators.
Variable M : Z.
Variable project : string.

(** One round of the loop on snapshot [n]: the snapshot is loaded and
    printed; with a cost log of fewer than two entries the round throws
    there, otherwise it runs to its end. *)
Lemma scan_body_run (v : ScanVars) (st : State) (n : Z) :
  sv_snap v = mkSnapshot (pattern_of project) n ->
  1 <= n <= M ->
  length (sv_costGraphs v) = Z.to_nat M ->
  length (sv_filterGraphs v) = Z.to_nat M ->
  let w := load_result (disk st) (snapshot_path project n) (wavenet st) in
  let st1 := mkState (EnginePrint :: EngineLoad (snapshot_path project n) :: calls st)
                     (disk st) w in
  if short_logb w
  then scan_body ext v st = (Thrown, st1)
  else exists v',
      scan_body ext v st = (Normal v', st1) /\
      sv_snap v' = mkSnapshot (pattern_of project) (n + 1) /\
      (sv_bestBasis v', sv_minCost v')
        = select_step (sv_bestBasis v, sv_minCost v) n w /\
      length (sv_costGraphs v') = Z.to_nat M /\
      length (sv_filterGraphs v') = Z.to_nat M.
Proof.
  intros Hsnap Hn Hcg Hfg w st1.
  unfold scan_body. rewrite Hsnap. cbn [snap_number].
  change (Snapshot_file (mkSnapshot (pattern_of project) n))
    with (snapshot_path project n).
  set (st0 := mkState (EngineLoad (snapshot_path project n) :: calls st) (disk st) w).
  rewrite (bind_normal (wavenet_load (snapshot_path project n)) _ st tt st0 eq_refl).
  rewrite (bind_normal (emit EnginePrint) _ st0 tt st1 eq_refl).
  rewrite (bind_normal get_wavenet _ st1 w st1 eq_refl).
  cbv zeta.
  assert (Hidx : usize (n - 1) < Z.of_nat (length (sv_costGraphs v)))
    by (pose proof (usize_le (n - 1) ltac:(lia)); lia).
  rewrite (bind_normal _ _ _ _ _ (vector_at_put_lt _ _ _ st1 Hidx)).
  set (cg := <[Z.to_nat (usize (n - 1)) := costGraph ext (w_costLog w)]> (sv_costGraphs v)).
  assert (Hcg' : length cg = Z.to_nat M) by (subst cg; now rewrite length_insert).
  assert (Hidx' : usize (n - 1) < Z.of_nat (length cg)) by (rewrite Hcg', <- Hcg; exact Hidx).
  destruct (vector_at_lt cg (n - 1) st1 Hidx') as (g & Hg & _).
  rewrite (bind_normal _ _ _ _ _ Hg).
  rewrite (bind_normal _ _ _ _ _ Hg).
  destruct (short_logb w) eqn:Hshort.
  - apply short_logb_true in Hshort. unfold short_log in Hshort.
    apply bind_thrown. apply vector_at_ge.
    unfold usize, SIZE_MOD.
    destruct (w_costLog w) as [| c0 [| c1 l]]; simpl in *; try lia;
      vm_compute; discriminate.
  - apply short_logb_false in Hshort. unfold short_log in Hshort.
    set (size := Z.of_nat (length (w_costLog w))).
    assert (Hsz : usize (size - 2) < Z.of_nat (length (w_costLog w)))
      by (pose proof (usize_le (size - 2) ltac:(lia)); lia).
    destruct (vector_at_lt (w_costLog w) (size - 2) st1 Hsz) as (c & Hc & Hlook).
    rewrite (bind_normal _ _ _ _ _ Hc).
    assert (Hcc : c = compared_cost w)
      by (unfold compared_cost; fold size; now rewrite Hlook).
    assert (Hbest :
              (if decide (c < sv_minCost v)%Qc
               then bind (vector_at (w_costLog w) (size - 2)) (fun c' => ret (n - 1, c'))
               else ret (sv_bestBasis v, sv_minCost v)) st1
              = (Normal (select_step (sv_bestBasis v, sv_minCost v) n w), st1)).
    { unfold select_step. cbn [snd]. rewrite <- Hcc.
      destruct (decide (c < sv_minCost v)%Qc); [| reflexivity].
      now rewrite (bind_normal _ _ _ _ _ Hc). }
    rewrite (bind_normal _ _ _ _ _ Hbest).
    destruct (filter_points_run ext (w_filterLog w)
                (Z.to_nat (u32 (Z.of_nat (length (w_filterLog w))))) 0 [] st1
                ltac:(lia)
                ltac:(pose proof (u32_le (Z.of_nat (length (w_filterLog w))) ltac:(lia)); lia))
      as (xy & Hxy).
    rewrite (bind_normal _ _ _ _ _ Hxy).
    assert (Hidx2 : usize (n - 1) < Z.of_nat (length (sv_filterGraphs v)))
      by (rewrite Hfg, <- Hcg; exact Hidx).
    rewrite (bind_normal _ _ _ _ _ (vector_at_put_lt _ _ _ st1 Hidx2)).
    eexists. split; [reflexivity |].
    cbn [sv_snap sv_bestBasis sv_minCost sv_costGraphs sv_filterGraphs].
    split; [reflexivity |].
    split; [now destruct (select_step _ _ _) |].
    split; [exact Hcg' | now rewrite length_insert].
Qed.

End Scan.

Lemma last_default_cons {A} (x y : A) (l : list A) :
  default x (last (y :: l)) = default y (last l).
Proof.
  destruct l as [| z l]; [reflexivity |].
  rewrite last_cons_cons, (last_cons z l). now destruct (last l).
Qed.

Section ScanLoop.

Variable ext : Collaborators.
Variable M : Z.
Variable project : string.

Lemma scan_indices_unfold (d : gmap string file) (n : Z) :
  scan_indices d project M n =
  if present d project n && bool_decide (n <= M)
  then n :: scan_indices d project M (n + 1)
  else [].
Proof.
  unfold scan_indices. destruct (decide (n <= M)) as [Hn | Hn].
  - rewrite bool_decide_eq_true_2 by exact Hn. rewrite andb_true_r.
    rewrite seqZ_cons by lia. cbn [leading].
    replace (Z.succ n) with (n + 1) by lia.
    replace (Z.pred (M + 1 - n)) with (M + 1 - (n + 1)) by lia.
    reflexivity.
  - rewrite bool_decide_eq_false_2 by exact Hn. rewrite andb_false_r.
    now rewrite seqZ_nil by lia.
Qed.

(** The loop from snapshot [n] on.  It stops by itself within the rounds
    it is given.  It throws at the first run with a short cost log,
    having loaded the snapshots up to that one; with no such run it loads
    exactly the snapshots [scan_indices] lists, in their order, and ends
    with the selection of [select]. *)
Lemma scan_loop_run : forall (fuel : nat) (v : ScanVars) (st : State) (n : Z),
  sv_snap v = mkSnapshot (pattern_of project) n ->
  1 <= n ->
  Z.max 0 (M + 1 - n) < Z.of_nat fuel ->
  length (sv_costGraphs v) = Z.to_nat M ->
  length (sv_filterGraphs v) = Z.to_nat M ->
  let idxs := scan_indices (disk st) project M n in
  let runs := scanned_runs (disk st) project (wavenet st) idxs in
  match first_short runs with
  | Some p =>
      exists wp, runs !! p = Some wp /\
      scan_loop ext M fuel v st
      = (Thrown,
         mkState (reverse (take (S p) idxs ≫= scan_calls project) ++ calls st)
                 (disk st) wp)
  | None =>
      exists v',
      scan_loop ext M fuel v st
      = (Normal v',
         mkState (reverse (idxs ≫= scan_calls project) ++ calls st)
                 (disk st) (default (wavenet st) (last runs))) /\
      (sv_bestBasis v', sv_minCost v')
        = select (sv_bestBasis v, sv_minCost v) idxs runs /\
      sv_snap v' = mkSnapshot (pattern_of project) (n + Z.of_nat (length idxs)) /\
      length (sv_costGraphs v') = Z.to_nat M /\
      length (sv_filterGraphs v') = Z.to_nat M
  end.
Proof.
  induction fuel as [| fuel IH]; intros v st n Hsnap Hn Hfuel Hcg Hfg; [simpl in Hfuel; lia |].
  cbv zeta. rewrite scan_indices_unfold.
  cbn [scan_loop].
  assert (Hex : Snapshot_exists (sv_snap v) st = (Normal (present (disk st) project n), st))
    by (rewrite Hsnap; reflexivity).
  rewrite (bind_normal _ _ _ _ _ Hex). rewrite Hsnap. cbn [snap_number].
  destruct (present (disk st) project n && bool_decide (n <= M)) eqn:Hgo.
  - apply andb_prop in Hgo as [_ HnM]. apply bool_decide_eq_true_1 in HnM.
    cbn [scanned_runs first_short].
    pose proof (scan_body_run ext M project v st n Hsnap ltac:(lia) Hcg Hfg) as Hbody.
    cbv zeta in Hbody.
    set (w := load_result (disk st) (snapshot_path project n) (wavenet st)) in *.
    set (st1 := mkState (EnginePrint :: EngineLoad (snapshot_path project n) :: calls st)
                        (disk st) w) in *.
    destruct (short_logb w).
    + exists w. split; [reflexivity |].
      rewrite (bind_thrown _ _ _ _ Hbody). reflexivity.
    + destruct Hbody as (v1 & Hrun & Hsnap1 & Hsel1 & Hcg1 & Hfg1).
      rewrite (bind_normal _ _ _ _ _ Hrun).
      specialize (IH v1 st1 (n + 1) Hsnap1 ltac:(lia) ltac:(lia) Hcg1 Hfg1).
      cbv zeta in IH. cbn [disk wavenet st1] in IH.
      destruct (first_short
                  (scanned_runs (disk st) project w
                     (scan_indices (disk st) project M (n + 1)))) as [p |].
      * destruct IH as (wp & Hwp & Hloop). exists wp. split; [exact Hwp |].
        rewrite Hloop. cbn [fmap option_fmap option_map]. f_equal. f_equal.
        rewrite firstn_cons, bind_cons, reverse_app.
        subst st1. cbn [calls]. now rewrite <- List.app_assoc.
      * destruct IH as (v2 & Hloop & Hsel2 & Hsnap2 & Hcg2 & Hfg2).
        exists v2. cbn [fmap option_fmap option_map].
        rewrite Hloop. split; [| split; [| split; [| split; assumption]]].
        -- f_equal. f_equal.
           ++ rewrite bind_cons, reverse_app.
              subst st1. cbn [calls]. now rewrite <- List.app_assoc.
           ++ now rewrite last_default_cons.
        -- cbn [select]. now rewrite <- Hsel1.
        -- rewrite Hsnap2. f_equal. cbn [length]. lia.
  - cbn [scanned_runs first_short]. exists v.
    split; [destruct st; reflexivity |].
    split; [reflexivity |].
    split; [rewrite Hsnap; f_equal; simpl; lia |].
    split; assumption.
Qed.

(** The scan as [main] starts it. *)
Lemma scan_run (st : State) :
  let idxs := scan_indices (disk st) project M 1 in
  let runs := scanned_runs (disk st) project (wavenet st) idxs in
  match first_short runs with
  | Some p =>
      exists wp, runs !! p = Some wp /\
      scan ext M project st
      = (Thrown,
         mkState (reverse (take (S p) idxs ≫= scan_calls project) ++ calls st)
                 (disk st) wp)
  | None =>
      exists v',
      scan ext M project st
      = (Normal v',
         mkState (reverse (idxs ≫= scan_calls project) ++ calls st)
                 (disk st) (default (wavenet st) (last runs))) /\
      (sv_bestBasis v', sv_minCost v') = select (0, Qc_of_Z 99999) idxs runs /\
      sv_snap v' = mkSnapshot (pattern_of project) (1 + Z.of_nat (length idxs)) /\
      length (sv_costGraphs v') = Z.to_nat M /\
      length (sv_filterGraphs v') = Z.to_nat M
  end.
Proof.
  unfold scan.
  apply (scan_loop_run (S (Z.to_nat M)) (scan_init M project) st 1);
    [reflexivity | lia | lia | apply length_replicate | apply length_replicate].
Qed.

End ScanLoop.

(** *** What the scan visits *)

Lemma leading_seqZ (P : Z -> bool) : forall (len : nat) (a : Z),
  let l := leading P (seqZ a (Z.of_nat len)) in
  l = seqZ a (Z.of_nat (length l)) /\
  (length l <= len)%nat /\
  (forall n, a <= n < a + Z.of_nat (length l) -> P n = true) /\
  (length l = len \/ P (a + Z.of_nat (length l)) = false).
Proof.
  induction len as [| len IH]; intros a; cbv zeta.
  - change (seqZ a (Z.of_nat 0)) with (@nil Z). simpl.
    repeat split; [lia | intros; lia | now left].
  - rewrite seqZ_S_head. cbn [leading]. destruct (P a) eqn:Pa.
    + destruct (IH (a + 1)) as (Heq & Hle & Hall & Hstop).
      set (l := leading P (seqZ (a + 1) (Z.of_nat len))) in *.
      cbn [length]. split; [| split; [lia | split]].
      * rewrite seqZ_S_head. f_equal. exact Heq.
      * intros n Hn. destruct (decide (n = a)) as [-> | Hne]; [exact Pa |].
        apply Hall. lia.
      * destruct Hstop as [Hstop | Hstop]; [left; lia | right].
        rewrite <- Hstop. f_equal. lia.
    + simpl. repeat split; [lia | intros; lia |].
      right. now rewrite Z.add_0_r.
Qed.

(** The visited indices are [1 .. k] for some [k <= M]; all their files
    exist; and either [k = M] or the file of [k + 1] is missing. *)
Lemma scan_indices_spec (d : gmap string file) (project : string) (M : Z) :
  let idxs := scan_indices d project M 1 in
  let k := Z.of_nat (length idxs) in
  idxs = seqZ 1 k /\
  k <= Z.max 0 M /\
  (forall n, 1 <= n <= k -> present d project n = true) /\
  (M < k + 1 \/ present d project (k + 1) = false).
Proof.
  cbv zeta. unfold scan_indices.
  replace (M + 1 - 1) with M by lia.
  rewrite <- (seqZ_to_nat 1 M).
  destruct (leading_seqZ (present d project) (Z.to_nat M) 1) as (Heq & Hle & Hall & Hstop).
  set (l := leading (present d project) (seqZ 1 (Z.of_nat (Z.to_nat M)))) in *.
  split; [exact Heq |]. split; [lia |]. split.
  - intros n Hn. apply Hall. lia.
  - destruct Hstop as [Hstop | Hstop]; [left; lia | right].
    rewrite <- Hstop. f_equal. lia.
Qed.

Lemma scan_calls_loads project (l : list Z) :
  List.filter loads_snapshot (l ≫= scan_calls project)
  = (fun n => EngineLoad (snapshot_path project n)) <$> l.
Proof.
  induction l as [| n l IH]; [reflexivity |].
  rewrite bind_cons, fmap_cons. simpl. now rewrite IH.
Qed.

Lemma scanned_runs_length d project : forall l w,
  length (scanned_runs d project w l) = length l.
Proof. induction l as [| n l IH]; intros w; simpl; [reflexivity | now rewrite IH]. Qed.

Lemma take_seqZ (a : Z) (k len : nat) :
  (k <= len)%nat -> take k (seqZ a (Z.of_nat len)) = seqZ a (Z.of_nat k).
Proof.
  intros Hk. replace (Z.of_nat len) with (Z.of_nat k + Z.of_nat (len - k)) by lia.
  rewrite seqZ_app by lia.
  rewrite take_app_length'; [reflexivity |].
  rewrite length_seqZ. lia.
Qed.

(** C5. The scan loads the snapshots [1, 2, ..., k] in this order and no
    other: [k] is at most [M], the files of all of [1 .. k] exist, and
    when the scan runs to its end (it does unless a cost log is too short,
    see C8), [k] is where it had to stop: [k + 1] exceeds [M] or is the
    first index whose file is missing.  So no snapshot at or beyond the
    first missing index, and none beyond [M], is loaded. *)
Theorem scan_visits_leading_snapshots (ext : Collaborators) (M : Z) (project : string)
        (st : State) :
  let out := scan ext M project st in
  exists k : Z,
    0 <= k <= Z.max 0 M /\
    List.filter loads_snapshot (trace (snd out))
    = (List.filter loads_snapshot (trace st)
       ++ ((fun n => EngineLoad (snapshot_path project n)) <$> seqZ 1 k))%list /\
    (forall n, 1 <= n <= k -> present (disk st) project n = true) /\
    ((exists v, fst out = Normal v) ->
       M < k + 1 \/ present (disk st) project (k + 1) = false) /\
    fst out <> OutOfFuel /\
    disk (snd out) = disk st.
Proof.
  cbv zeta.
  pose proof (scan_run ext M project st) as Hrun. cbv zeta in Hrun.
  destruct (scan_indices_spec (disk st) project M) as (Heq & HkM & Hall & Hstop).
  set (idxs := scan_indices (disk st) project M 1) in *.
  set (runs := scanned_runs (disk st) project (wavenet st) idxs) in *.
  destruct (first_short runs) as [p |].
  - destruct Hrun as (wp & Hwp & ->). cbn [fst snd].
    assert (Hp : (S p <= length idxs)%nat).
    { apply lookup_lt_Some in Hwp. subst runs.
      rewrite scanned_runs_length in Hwp. lia. }
    exists (Z.of_nat (S p)). split; [lia |]. split; [| split; [| split; [| split]]].
    + rewrite trace_calls_app, reverse_involutive, List.filter_app, scan_calls_loads.
      rewrite Heq, take_seqZ by exact Hp. reflexivity.
    + intros n Hn. apply Hall. lia.
    + intros [v Hv]. discriminate Hv.
    + discriminate.
    + reflexivity.
  - destruct Hrun as (v' & -> & _). cbn [fst snd].
    exists (Z.of_nat (length idxs)). split; [lia |]. split; [| split; [| split; [| split]]].
    + rewrite trace_calls_app, reverse_involutive, List.filter_app, scan_calls_loads.
      now rewrite <- Heq.
    + exact Hall.
    + intros _. exact Hstop.
    + discriminate.
    + reflexivity.
Qed.

Lemma scan_visits_leading_snapshots_witness :
  let project := "Run.Needle.N4" in
  let d := Samples.snapshots project [Samples.run 5; Samples.run 3] in
  let out := scan Samples.collaborators 5 project (initial_state d Samples.fresh) in
  exists k : Z,
    0 <= k <= 5 /\
    List.filter loads_snapshot (trace (snd out))
    = (fun n => EngineLoad (snapshot_path project n)) <$> seqZ 1 k /\
    (forall n, 1 <= n <= k -> present d project n = true) /\
    (5 < k + 1 \/ present d project (k + 1) = false).
Proof.
  intros project d out.
  destruct (scan_visits_leading_snapshots Samples.collaborators 5 project
              (initial_state d Samples.fresh))
    as (k & Hk & Hloads & Hall & Hstop & _).
  exists k. split; [exact Hk |]. split; [exact Hloads |]. split; [exact Hall |].
  apply Hstop. eexists. vm_compute. reflexivity.
Defined.

(** *** What the scan requires of the cost logs *)

Lemma first_short_None runs :
  Forall (fun w => ~ short_log w) runs -> first_short runs = None.
Proof.
  induction 1 as [| w runs Hw _ IH]; [reflexivity |].
  cbn [first_short]. apply short_logb_false in Hw. now rewrite Hw, IH.
Qed.

Lemma first_short_Some runs :
  Exists short_log runs -> exists p, first_short runs = Some p.
Proof.
  induction 1 as [w runs Hw | w runs _ [p IH]]; cbn [first_short].
  - apply short_logb_true in Hw. rewrite Hw. eauto.
  - destruct (short_logb w); [eauto |]. rewrite IH. eauto.
Qed.

(** The first short run is short, and none before it is. *)
Lemma first_short_spec : forall runs p,
  first_short runs = Some p ->
  (exists w, runs !! p = Some w /\ short_log w) /\
  Forall (fun w => ~ short_log w) (take p runs).
Proof.
  induction runs as [| w runs IH]; intros p Hp; [discriminate |].
  cbn [first_short] in Hp. destruct (short_logb w) eqn:Hw.
  - inversion Hp; subst. split; [| constructor].
    exists w. split; [reflexivity | now apply short_logb_true].
  - destruct (first_short runs) as [q |]; [| discriminate].
    inversion Hp; subst. destruct (IH q eq_refl) as (Hq & Hbefore).
    split; [exact Hq |]. cbn [take]. constructor; [| exact Hbefore].
    now apply short_logb_false.
Qed.

(** C8. The scan needs two entries in the cost log of every snapshot it
    loads.  If some scanned run has fewer, the access
    [costLog.at(costLog.size() - 2)] is out of range and the scan ends in
    the exception, at the first such run.  If every scanned run has at
    least two, no checked access of the loop throws and the scan runs to
    its end; the indices [snap.number() - 1] into the two vectors of [M]
    graphs lie in [[0, M - 1]]. *)
Theorem scan_needs_two_costs (ext : Collaborators) (M : Z) (project : string)
        (st : State) :
  let idxs := scan_indices (disk st) project M 1 in
  let runs := scanned_runs (disk st) project (wavenet st) idxs in
  let out := scan ext M project st in
  (Exists short_log runs ->
     fst out = Thrown /\
     exists p w, runs !! p = Some w /\ short_log w /\
                 Forall (fun w' => ~ short_log w') (take p runs) /\
                 wavenet (snd out) = w) /\
  (Forall (fun w => ~ short_log w) runs -> exists v, fst out = Normal v) /\
  Forall (fun n => 0 <= n - 1 <= M - 1) idxs.
Proof.
  cbv zeta.
  pose proof (scan_run ext M project st) as Hrun. cbv zeta in Hrun.
  destruct (scan_indices_spec (disk st) project M) as (Heq & HkM & _ & _).
  set (idxs := scan_indices (disk st) project M 1) in *.
  set (runs := scanned_runs (disk st) project (wavenet st) idxs) in *.
  split; [| split].
  - intros Hex. destruct (first_short_Some runs Hex) as [p Hp].
    rewrite Hp in Hrun. destruct Hrun as (wp & Hwp & ->). cbn [fst snd wavenet].
    split; [reflexivity |].
    destruct (first_short_spec runs p Hp) as ((w & Hw & Hshort) & Hbefore).
    exists p, w. repeat split; try assumption. congruence.
  - intros Hall. rewrite (first_short_None runs Hall) in Hrun.
    destruct Hrun as (v' & -> & _). eauto.
  - rewrite Heq. apply Forall_seqZ. intros n Hn. lia.
Qed.

Lemma scan_needs_two_costs_witness :
  let project := "Run.Needle.N4" in
  let short := mkWavenet [] [] [Q2Qc 1] in
  let bad := initial_state (Samples.snapshots project [Samples.run 5; short; Samples.run 3])
                           Samples.fresh in
  let good := initial_state (Samples.snapshots project [Samples.run 5; Samples.run 3])
                            Samples.fresh in
  fst (scan Samples.collaborators 5 project bad) = Thrown /\
  exists v, fst (scan Samples.collaborators 5 project good) = Normal v.
Proof.
  intros project short bad good. split.
  - destruct (scan_needs_two_costs Samples.collaborators 5 project bad) as (Hthrow & _).
    apply Hthrow. vm_compute.
    apply Exists_cons_tl, Exists_cons_hd. lia.
  - destruct (scan_needs_two_costs Samples.collaborators 5 project good) as (_ & Hrun & _).
    apply Hrun. vm_compute.
    repeat (constructor; [lia |]). constructor.
Defined.

(** *** What the scan selects *)

(** The selection of lines 135-138 over the scanned runs: either no run
    compares below the bound it starts from, and the selection stays as it
    was; or it ends at the first of the runs whose compared cost is the
    least. *)
Lemma select_spec : forall (idxs : list Z) (runs : list Wavenet) (acc : Z * Qc),
  length idxs = length runs ->
  (Forall (fun w => (snd acc <= compared_cost w)%Qc) runs /\ select acc idxs runs = acc)
  \/
  (exists (p : nat) (n : Z) (w : Wavenet),
      idxs !! p = Some n /\ runs !! p = Some w /\
      select acc idxs runs = (n - 1, compared_cost w) /\
      (compared_cost w < snd acc)%Qc /\
      Forall (fun w' => (compared_cost w <= compared_cost w')%Qc) runs /\
      forall (q : nat) (w' : Wavenet),
        (q < p)%nat -> runs !! q = Some w' -> (compared_cost w < compared_cost w')%Qc).
Proof.
  induction idxs as [| n idxs IH]; intros runs acc Hlen.
  - destruct runs; [| discriminate]. left. split; [constructor | reflexivity].
  - destruct runs as [| w runs]; [discriminate |].
    injection Hlen as Hlen. cbn [select]. unfold select_step.
    destruct (decide (compared_cost w < snd acc)%Qc) as [Hlt | Hge].
    + destruct (IH runs (n - 1, compared_cost w) Hlen)
        as [[Hall Hsel] | (p & n' & w' & Hn' & Hw' & Hsel & Hlt' & Hall & Hfirst)];
        cbn [snd] in *; right.
      * exists O, n, w. repeat split; try reflexivity; try assumption.
        -- constructor; [apply Qcle_refl | exact Hall].
        -- intros q w' Hq. lia.
      * exists (S p), n', w'. repeat split; try assumption.
        -- eapply Qclt_trans; eassumption.
        -- constructor; [now apply Qclt_le_weak | exact Hall].
        -- intros q w'' Hq Hw''. destruct q as [| q]; cbn in Hw''.
           ++ injection Hw'' as <-. exact Hlt'.
           ++ apply (Hfirst q); [lia | exact Hw''].
    + apply Qcnot_lt_le in Hge.
      destruct (IH runs acc Hlen)
        as [[Hall Hsel] | (p & n' & w' & Hn' & Hw' & Hsel & Hlt' & Hall & Hfirst)].
      * left. split; [constructor; assumption | exact Hsel].
      * right. exists (S p), n', w'. repeat split; try assumption.
        -- constructor; [| exact Hall].
           apply Qclt_le_weak. eapply Qclt_le_trans; eassumption.
        -- intros q w'' Hq Hw''. destruct q as [| q]; cbn in Hw''.
           ++ injection Hw'' as <-. eapply Qclt_le_trans; eassumption.
           ++ apply (Hfirst q); [lia | exact Hw''].
Qed.

(** Under the sizes a [std::vector] can have, the compared cost is the
    second-to-last entry of the cost log. *)
Lemma compared_cost_penultimate (w : Wavenet) :
  (2 <= length (w_costLog w))%nat ->
  Z.of_nat (length (w_costLog w)) < SIZE_MOD ->
  compared_cost w = penultimate_of w.
Proof.
  intros H2 Hsize. unfold compared_cost, penultimate_of, penultimate.
  destruct (decide (2 <= length (w_costLog w))%nat); [| contradiction].
  unfold usize. rewrite Z.mod_small by lia.
  do 2 f_equal. lia.
Qed.

(** ** From the scan to the movie (lines 108-449) *)

Lemma trace_after (st st' : State) (l : list event) :
  calls st' = (reverse l ++ calls st)%list -> trace st' = (trace st ++ l)%list.
Proof. unfold trace. intros ->. now rewrite reverse_app, reverse_involutive. Qed.

Lemma for_range_silent (body : Z -> unit -> Exec unit) : forall n lo,
  (forall i st, lo <= i < lo + Z.of_nat n -> body i tt st = (Normal tt, st)) ->
  forall st, for_range lo n body tt st = (Normal tt, st).
Proof.
  induction n as [| n IH]; intros lo Hbody st; [reflexivity |].
  rewrite for_range_S, (bind_normal _ _ _ _ _ (Hbody lo st ltac:(lia))).
  apply IH. intros i st' Hi. apply Hbody. lia.
Qed.

Lemma vector_at_silent {A} (v : list A) (i : Z) st :
  0 <= i < Z.of_nat (length v) ->
  bind (vector_at v i) (fun _ => ret tt) st = (Normal tt, st).
Proof.
  intros Hi.
  destruct (vector_at_lt v i st ltac:(pose proof (usize_le i ltac:(lia)); lia))
    as (a & Ha & _).
  now rewrite (bind_normal _ _ _ _ _ Ha).
Qed.

Section Analysis.

Variable ext : Collaborators.
Variable M : Z.
Variable project : string.

Hypothesis HM : 0 <= M < UINT_MOD.

Lemma draw_cost_graphs_emits w (v : ScanVars) :
  length (sv_costGraphs v) = Z.to_nat M ->
  emits_with w (draw_cost_graphs M project v)
             [CanvasSaveAs (outdir_of project ++ "CostGraph" ++ ".pdf")].
Proof.
  intros Hlen st Hw. unfold draw_cost_graphs.
  assert (Hloop : forall s,
             for_range 0 (Z.to_nat (u32 M))
               (fun m _ => bind (vector_at (sv_costGraphs v) m) (fun _ => ret tt)) tt s
             = (Normal tt, s)).
  { apply for_range_silent. intros i s Hi. apply vector_at_silent.
    rewrite u32_small in Hi by exact HM. lia. }
  rewrite (bind_normal _ _ _ _ _ (Hloop st)).
  rewrite (bind_normal _ _ _ _ _ (Hloop st)).
  reflexivity.
Qed.

Lemma draw_cost_map_emits w (v : ScanVars) :
  length (sv_filterGraphs v) = Z.to_nat M ->
  emits_with w (draw_cost_map M project v)
             [CanvasSaveAs (outdir_of project ++ "CostMap.pdf")].
Proof.
  intros Hlen st Hw. unfold draw_cost_map.
  rewrite (bind_normal _ _ st tt st); [reflexivity |].
  apply for_range_silent. intros i s Hi.
  rewrite u32_small in Hi by exact HM.
  destruct (vector_at_lt (sv_filterGraphs v) i s
              ltac:(pose proof (usize_le i ltac:(lia)); lia)) as (a & Ha & _).
  now rewrite !(bind_normal _ _ _ _ _ Ha).
Qed.

(** The cost-map step runs to its end; it makes calls to the engine's
    sweep and to the matrix files only, leaves the engine as it is, and
    leaves every snapshot file on disk as it is. *)
Lemma cost_maps_calls (examples : list Mat) (st : State) :
  exists r l st',
    cost_maps ext project examples st = (Normal r, st') /\
    calls st' = (reverse l ++ calls st)%list /\
    wavenet st' = wavenet st /\
    Forall (fun e => synthesizes e = false) l /\
    (forall path w, disk st' !! path = Some (SnapFile w) ->
                    disk st !! path = Some (SnapFile w)).
Proof.
  clear HM. unfold cost_maps, bind, fileExists.
  destruct (bool_decide (is_Some (disk st !! costMapName project))); cbn [negb].
  - eexists _, [MatLoad _; MatLoad _; MatLoad _], _.
    split; [reflexivity |]. cbn [calls wavenet disk mat_load emit].
    split; [reflexivity |]. split; [reflexivity |].
    split; [repeat constructor | tauto].
  - eexists _, [CostMapSweep; MatSave _; MatSave _; MatSave _], _.
    split; [reflexivity |]. cbn [calls wavenet disk].
    split; [reflexivity |]. split; [reflexivity |].
    split; [repeat constructor |].
    intros path w Hl.
    repeat (apply lookup_insert_Some in Hl as [[_ Hl] | [_ Hl]]; [discriminate |]).
    exact Hl.
Qed.

(** The audit, whatever the shape. *)
Lemma audit_emits_any w W H :
  emits_with w (audit ext project W H)
    ((i ← seqZ 0 (Utilities.sq W); j ← seqZ 0 (Utilities.sq H); audit_calls ext w W H i j)
     ++ [CanvasSaveAs (outdir_of project ++ "NormDistributions.pdf")]).
Proof.
  unfold audit.
  apply emits_with_bind; [| apply emits_with_emit].
  rewrite <- (seqZ_to_nat 0 (Utilities.sq W)).
  apply emits_with_for_range. intros i.
  rewrite <- (seqZ_to_nat 0 (Utilities.sq H)).
  apply emits_with_for_range. intros j.
  apply audit_pair_emits.
Qed.

End Analysis.

Lemma audit_calls_no_load ext w W H (l l' : list Z) :
  Forall (fun e => loads_snapshot e = false)
         (i ← l; j ← l'; audit_calls ext w W H i j).
Proof.
  apply Forall_bind, Forall_forall. intros i _.
  apply Forall_bind, Forall_forall. intros j _.
  repeat constructor.
Qed.

Lemma movie_calls_no_load project W H N (l : list Z) :
  Forall (fun e => loads_snapshot e = false) (i ← l; movie_calls project W H N i).
Proof.
  apply Forall_bind, Forall_forall. intros i _. unfold movie_calls.
  constructor; [reflexivity |].
  destruct (retained N i); [| constructor].
  apply Forall_app. split; [| repeat constructor].
  unfold frame_pixels.
  apply Forall_bind, Forall_forall. intros x _.
  apply Forall_bind, Forall_forall. intros y _.
  repeat constructor.
Qed.

Lemma scan_calls_no_synthesis project (l : list Z) :
  Forall (fun e => synthesizes e = false) (l ≫= scan_calls project).
Proof.
  apply Forall_bind, Forall_forall. intros n _. repeat constructor.
Qed.

(** A snapshot file at the path of a scanned index is the run of that
    index. *)
Lemma scanned_runs_snapfile d project : forall (idxs : list Z) (w0 : Wavenet) p n w,
  idxs !! p = Some n ->
  d !! snapshot_path project n = Some (SnapFile w) ->
  scanned_runs d project w0 idxs !! p = Some w.
Proof.
  induction idxs as [| m idxs IH]; intros w0 p n w Hn Hd; [discriminate |].
  destruct p as [| p]; cbn [scanned_runs].
  - injection Hn as ->. change (Some (load_result d (snapshot_path project n) w0) = Some w).
    unfold load_result. now rewrite Hd.
  - change (scanned_runs d project (load_result d (snapshot_path project m) w0) idxs !! p
            = Some w).
    eapply IH; eassumption.
Qed.

(** C3, as the program has it.  Let every scanned run have a cost log of
    at least two entries, and let the second-to-last entry of at least one
    of them lie below 99999, the bound [minCost] starts from.  Then [main],
    from the scan on, runs to its [return 1], and the run it reloads on
    line 320 is the first of the scanned runs whose second-to-last cost
    entry is the least (the last entry of a cost log is never looked at).
    No basis function is synthesized before that reload and no snapshot is
    loaded after it, so that the audit and the movie work on that run.
    (The sizes are those [std::vector] and [unsigned] impose.) *)
Theorem best_run_is_reloaded (ext : Collaborators) (M : Z) (project : string)
        (generator : Generator) (examples : list Mat) (st : State) :
  0 <= M < UINT_MOD ->
  let idxs := scan_indices (disk st) project M 1 in
  let runs := scanned_runs (disk st) project (wavenet st) idxs in
  Forall (fun w => (2 <= length (w_costLog w))%nat /\
                   Z.of_nat (length (w_costLog w)) < SIZE_MOD /\
                   Z.of_nat (length (w_filterLog w)) < UINT_MOD) runs ->
  Exists (fun w => (penultimate_of w < Qc_of_Z 99999)%Qc) runs ->
  let out := analysis ext M project generator examples st in
  exists (p : nat) (w : Wavenet) (pre post : list event),
    runs !! p = Some w /\
    Forall (fun w' => (penultimate_of w <= penultimate_of w')%Qc) runs /\
    (forall (q : nat) (w' : Wavenet),
        (q < p)%nat -> runs !! q = Some w' -> (penultimate_of w < penultimate_of w')%Qc) /\
    fst out = Returned 1 /\
    trace (snd out)
    = (trace st ++ pre ++ EngineLoad (snapshot_path project (Z.of_nat p + 1)) :: post)%list /\
    Forall (fun e => synthesizes e = false) pre /\
    Forall (fun e => loads_snapshot e = false) post.
Proof.
  intros HM idxs runs Hsizes Hsome out.
  pose proof (scan_run ext M project st) as Hscan. cbv zeta in Hscan.
  fold idxs in Hscan. fold runs in Hscan.
  assert (Hlong : Forall (fun w => ~ short_log w) runs).
  { eapply Forall_impl; [exact Hsizes |]. intros w (H2 & _). unfold short_log. lia. }
  rewrite (first_short_None runs Hlong) in Hscan.
  destruct Hscan as (v & Hscan & Hsel & Hsnap & Hcg & Hfg).
  assert (Hlen : length idxs = length runs)
    by (symmetry; apply scanned_runs_length).
  assert (Hcc : forall w', w' ∈ runs -> compared_cost w' = penultimate_of w').
  { intros w' Hin. rewrite Forall_forall in Hsizes.
    destruct (Hsizes w' Hin) as (H2 & H64 & _).
    now apply compared_cost_penultimate. }
  destruct (select_spec idxs runs (0, Qc_of_Z 99999) Hlen)
    as [[Hall _] | (p & n & w & Hn & Hw & Hsel' & Hlt & Hmin & Hfirst)].
  { exfalso. cbn [snd] in Hall. apply Exists_exists in Hsome as (w & Hin & Hw).
    rewrite Forall_forall in Hall. specialize (Hall w Hin).
    rewrite (Hcc w Hin) in Hall. exact (Qcle_not_lt _ _ Hall Hw). }
  assert (Hwin : w ∈ runs) by (eapply list_elem_of_lookup_2; exact Hw).
  assert (Hnp : n = Z.of_nat p + 1).
  { destruct (scan_indices_spec (disk st) project M) as (Heq & _).
    fold idxs in Heq. rewrite Heq in Hn. apply lookup_seqZ in Hn. lia. }
  assert (Hbest : sv_bestBasis v + 1 = n).
  { rewrite Hsel' in Hsel. injection Hsel as Hb _. lia. }
  (* the stages, one after the other *)
  set (st2 := mkState (reverse (idxs ≫= scan_calls project) ++ calls st)%list
                      (disk st) (default (wavenet st) (last runs))) in *.
  pose proof (draw_cost_graphs_emits M project HM (wavenet st2) v Hcg st2 eq_refl) as Hdcg.
  set (st3 := mkState _ _ _) in Hdcg.
  destruct (cost_maps_calls ext project examples st3)
    as (r & lcm & st4 & Hcm & Hcalls4 & Hw4 & Hsyn4 & Hdisk4).
  pose proof (draw_cost_map_emits M project HM (wavenet st4) v Hfg st4 eq_refl) as Hdcm.
  set (st5 := mkState _ _ _) in Hdcm.
  set (path := snapshot_path project n).
  set (w6 := load_result (disk st5) path (wavenet st5)).
  set (st6 := mkState (EngineLoad path :: calls st5) (disk st5) w6).
  assert (Hload : load_best v st5 = (Normal tt, st6)).
  { unfold load_best. rewrite Hsnap. unfold Snapshot_setNumber. cbn [snap_pattern].
    rewrite Hbest. reflexivity. }
  set (W := shape_at generator 0). set (H := shape_at generator 1).
  pose proof (audit_emits_any ext project (wavenet st6) W H st6 eq_refl) as Haudit.
  set (st7 := mkState _ _ _) in Haudit.
  assert (Hfl : Z.of_nat (length (w_filterLog w6)) < UINT_MOD).
  { rewrite Forall_forall in Hsizes. subst w6. unfold load_result.
    destruct (disk st5 !! path) as [[w' | m] |] eqn:Hd.
    - change (disk st5) with (disk st4) in Hd. apply Hdisk4 in Hd.
      change (disk st3) with (disk st) in Hd.
      pose proof (scanned_runs_snapfile (disk st) project idxs (wavenet st) p n w' Hn Hd)
        as Hw'.
      fold runs in Hw'. rewrite Hw in Hw'. injection Hw' as <-.
      now apply Hsizes.
    - change (wavenet st5) with (wavenet st4). rewrite Hw4.
      change (wavenet st3) with (default (wavenet st) (last runs)).
      destruct (last runs) as [wl |] eqn:Hl.
      + apply Hsizes. apply last_Some in Hl as [l' ->].
        apply elem_of_app. right. constructor.
      + apply last_None in Hl. rewrite Hl in Hwin. inversion Hwin.
    - change (wavenet st5) with (wavenet st4). rewrite Hw4.
      change (wavenet st3) with (default (wavenet st) (last runs)).
      destruct (last runs) as [wl |] eqn:Hl.
      + apply Hsizes. apply last_Some in Hl as [l' ->].
        apply elem_of_app. right. constructor.
      + apply last_None in Hl. rewrite Hl in Hwin. inversion Hwin. }
  destruct (movie_loop_run project W H (w_filterLog w6) Hfl
              (Z.to_nat (Z.of_nat (length (w_filterLog w6)))) 0 st7
              ltac:(lia) ltac:(lia) eq_refl)
    as (st8 & Hmovie & Hcalls8 & _).
  assert (Hmov : movie project W H st7 = (Normal (rank (Z.of_nat (length (w_filterLog w6)))
                                                      (Z.of_nat (length (w_filterLog w6)))), st8)).
  { unfold movie. rewrite (bind_normal get_wavenet _ st7 w6 st7 eq_refl).
    cbv zeta. rewrite (u32_small (Z.of_nat (length (w_filterLog w6)))) by lia.
    exact Hmovie. }
  assert (Hout : out = (Returned 1, st8)).
  { subst out. unfold analysis.
    rewrite (bind_normal _ _ _ _ _ Hscan).
    rewrite (bind_normal _ _ _ _ _ Hdcg).
    rewrite (bind_normal _ _ _ _ _ Hcm).
    rewrite (bind_normal _ _ _ _ _ Hdcm).
    rewrite (bind_normal _ _ _ _ _ Hload).
    cbv zeta. fold W H.
    rewrite (bind_normal _ _ _ _ _ Haudit).
    rewrite (bind_normal _ _ _ _ _ Hmov).
    reflexivity. }
  rewrite Hout. cbn [fst snd].
  exists p, w,
    ((idxs ≫= scan_calls project)
     ++ [CanvasSaveAs (outdir_of project ++ "CostGraph" ++ ".pdf")]
     ++ lcm ++ [CanvasSaveAs (outdir_of project ++ "CostMap.pdf")])%list,
    (((i ← seqZ 0 (Utilities.sq W); j ← seqZ 0 (Utilities.sq H);
       audit_calls ext w6 W H i j)
      ++ [CanvasSaveAs (outdir_of project ++ "NormDistributions.pdf")])
     ++ (i ← seqZ 0 (Z.of_nat (Z.to_nat (Z.of_nat (length (w_filterLog w6)))));
         movie_calls project W H (Z.of_nat (length (w_filterLog w6))) i))%list.
  split; [exact Hw |]. split; [| split; [| split; [reflexivity |]]].
  - rewrite Forall_forall in Hmin |- *. intros w' Hin.
    rewrite <- (Hcc w Hwin), <- (Hcc w' Hin). now apply Hmin.
  - intros q w' Hq Hw'.
    rewrite <- (Hcc w Hwin), <- (Hcc w' (list_elem_of_lookup_2 _ _ _ Hw')).
    now apply (Hfirst q).
  - split; [| split].
    + rewrite (trace_after st7 st8 _ Hcalls8).
      rewrite (trace_after st6 st7 _ eq_refl).
      change (trace st6) with (trace (mkState (EngineLoad path :: calls st5) (disk st5) w6)).
      rewrite trace_emitted.
      change (trace (mkState (calls st5) (disk st5) w6)) with (trace st5).
      rewrite (trace_after st4 st5 _ eq_refl).
      rewrite (trace_after st3 st4 _ Hcalls4).
      rewrite (trace_after st2 st3 _ eq_refl).
      rewrite (trace_after st st2 _ eq_refl).
      subst path. rewrite Hnp.
      rewrite <- !List.app_assoc. reflexivity.
    + apply Forall_app. split; [apply scan_calls_no_synthesis |].
      apply Forall_cons. split; [reflexivity |].
      apply Forall_app. split; [exact Hsyn4 | repeat constructor].
    + apply Forall_app. split; [| apply movie_calls_no_load].
      apply Forall_app. split; [apply audit_calls_no_load | repeat constructor].
Qed.

Lemma best_run_is_reloaded_witness :
  let project := "Run.Needle.N4" in
  let st := initial_state
              (Samples.snapshots project [Samples.run 5; Samples.run 3; Samples.run 4])
              Samples.fresh in
  let runs := scanned_runs (disk st) project (wavenet st)
                           (scan_indices (disk st) project 5 1) in
  let out := analysis Samples.collaborators 5 project (mkGenerator Needle true [1; 1]) [] st in
  exists (p : nat) (w : Wavenet) (pre post : list event),
    runs !! p = Some w /\
    Forall (fun w' => (penultimate_of w <= penultimate_of w')%Qc) runs /\
    (forall (q : nat) (w' : Wavenet),
        (q < p)%nat -> runs !! q = Some w' -> (penultimate_of w < penultimate_of w')%Qc) /\
    fst out = Returned 1 /\
    trace (snd out)
    = (trace st ++ pre ++ EngineLoad (snapshot_path project (Z.of_nat p + 1)) :: post)%list /\
    Forall (fun e => synthesizes e = false) pre /\
    Forall (fun e => loads_snapshot e = false) post.
Proof.
  intros project st runs out.
  assert (Hruns : runs = [Samples.run 5; Samples.run 3; Samples.run 4])
    by (vm_compute; reflexivity).
  apply (best_run_is_reloaded Samples.collaborators 5 project
           (mkGenerator Needle true [1; 1]) [] st).
  - split; [lia | reflexivity].
  - fold runs. rewrite Hruns.
    repeat (apply Forall_cons; split;
            [split; [simpl; lia | split; reflexivity] |]).
    apply Forall_nil. exact I.
  - fold runs. rewrite Hruns. apply Exists_cons_hd. reflexivity.
Defined.

Lemma filter_none {A} (f : A -> bool) (l : list A) :
  Forall (fun a => f a = false) l -> List.filter f l = [].
Proof.
  induction 1 as [| a l Ha _ IH]; [reflexivity |]. simpl. now rewrite Ha.
Qed.

(** C3 as the specification words it does not hold: when no second-to-last cost is below
    99999, [bestBasis] stays 0 and snapshot 1 is reloaded, whatever the
    costs.  Here snapshot 2 has the lesser cost, and snapshot 1 is the one
    loaded last. *)
Lemma costly_runs_keep_the_first :
  let project := "Run.Needle.N4" in
  let st := initial_state
              (Samples.snapshots project [Samples.run 200000; Samples.run 100000])
              Samples.fresh in
  let runs := scanned_runs (disk st) project (wavenet st)
                           (scan_indices (disk st) project 5 1) in
  let out := analysis Samples.collaborators 5 project (mkGenerator Needle true [1; 1]) [] st in
  ~ (exists (p : nat) (w : Wavenet) (pre post : list event),
        runs !! p = Some w /\
        Forall (fun w' => (penultimate_of w <= penultimate_of w')%Qc) runs /\
        trace (snd out)
        = (trace st ++ pre ++ EngineLoad (snapshot_path project (Z.of_nat p + 1)) :: post)%list /\
        Forall (fun e => synthesizes e = false) pre /\
        Forall (fun e => loads_snapshot e = false) post).
Proof.
  intros project st runs out (p & w & pre & post & Hw & Hmin & Htrace & _ & Hpost).
  assert (Hruns : runs = [Samples.run 200000; Samples.run 100000])
    by (vm_compute; reflexivity).
  assert (Hlast : last (List.filter loads_snapshot (trace (snd out)))
                  = Some (EngineLoad (snapshot_path project 1)))
    by (vm_compute; reflexivity).
  rewrite Htrace in Hlast.
  rewrite !List.filter_app in Hlast. cbn [List.filter loads_snapshot] in Hlast.
  rewrite (filter_none _ _ Hpost) in Hlast.
  rewrite List.app_assoc, last_snoc in Hlast.
  rewrite Hruns in Hw, Hmin.
  destruct p as [| [| p]]; [| | discriminate Hw].
  - injection Hw as <-.
    apply Forall_cons in Hmin as [_ Hmin]. apply Forall_cons in Hmin as [Hmin _].
    vm_compute in Hmin. now apply Hmin.
  - injection Hlast as Hpath. vm_compute in Hpath. discriminate Hpath.
Qed.

(** With no second-to-last cost below the bound, the selection stays at
    snapshot 1. *)
Lemma select_stays (idxs : list Z) (runs : list Wavenet) :
  length idxs = length runs ->
  Forall (fun w => (Qc_of_Z 99999 <= compared_cost w)%Qc) runs ->
  select (0, Qc_of_Z 99999) idxs runs = (0, Qc_of_Z 99999).
Proof.
  intros Hlen Hall.
  destruct (select_spec idxs runs (0, Qc_of_Z 99999) Hlen)
    as [[_ Hsel] | (p & n & w & _ & Hw & _ & Hlt & _)]; [exact Hsel |].
  exfalso. rewrite Forall_forall in Hall.
  exact (Qcle_not_lt _ _ (Hall w (list_elem_of_lookup_2 _ _ _ Hw)) Hlt).
Qed.

(** ** From the head of [main] to the scan (lines 26-105) *)

Lemma draw_example_run ext g project i examples st :
  0 <= i < SIZE_MOD -> Z.of_nat (length examples) = i ->
  draw_example ext g project i examples st
  = (Normal (examples ++ [generator_next ext (g_kind g) (g_shape g) i])%list,
     mkState (CanvasSaveAs (outdir_of project ++ "exampleSignal." ++ to_string (i + 1)
                              ++ "." ++ project ++ ".pdf")
              :: GeneratorNext :: calls st)
             (disk st) (wavenet st)).
Proof.
  intros Hi Hlen. unfold draw_example.
  rewrite (bind_normal (emit GeneratorNext) _ st tt _ eq_refl).
  set (examples' := (examples ++ _)%list).
  assert (Hin : usize i < Z.of_nat (length examples')).
  { subst examples'. rewrite length_app. simpl.
    pose proof (usize_le i ltac:(lia)). lia. }
  match goal with
  | |- bind (vector_at _ _) _ ?s = _ =>
      destruct (vector_at_lt examples' i s Hin) as (a & Ha & _);
      rewrite (bind_normal _ _ _ _ _ Ha)
  end.
  reflexivity.
Qed.

Lemma draw_examples_loop ext g project : forall n i examples st,
  0 <= i -> i + Z.of_nat n <= SIZE_MOD -> Z.of_nat (length examples) = i ->
  for_range i n (draw_example ext g project) examples st
  = (Normal (examples ++ (generator_next ext (g_kind g) (g_shape g) <$> seqZ i (Z.of_nat n)))%list,
     mkState (reverse (j ← seqZ i (Z.of_nat n);
                       [GeneratorNext;
                        CanvasSaveAs (outdir_of project ++ "exampleSignal."
                                        ++ to_string (j + 1) ++ "." ++ project ++ ".pdf")])
              ++ calls st)%list
             (disk st) (wavenet st)).
Proof.
  induction n as [| n IH]; intros i examples st Hi Hn Hlen.
  - destruct st. simpl. now rewrite List.app_nil_r.
  - rewrite for_range_S.
    rewrite (bind_normal _ _ _ _ _ (draw_example_run ext g project i examples st
                                      ltac:(lia) Hlen)).
    rewrite IH; [| lia | lia | rewrite length_app; simpl; lia].
    cbn [calls disk wavenet].
    rewrite seqZ_S_head, fmap_cons, bind_cons, reverse_app.
    rewrite <- !List.app_assoc. reflexivity.
Qed.

(** In a mode other than [File], [main] saves the engine state, draws the
    ten examples and goes on to the scan with the engine as it was and
    with a disk that differs in [tmp.snap] only. *)
Lemma main_with_reaches_analysis ext M Nfilter mode wired st :
  mode <> File ->
  let project := project_of mode Nfilter in
  let tmp := outdir_of project ++ "tmp.snap" in
  let generator := mkGenerator mode true [16; 16] in
  exists st1,
    main_with ext M Nfilter mode wired st
    = analysis ext M project generator
               (generator_next ext mode [16; 16] <$> seqZ 0 10) st1 /\
    trace st1 = (trace st ++ EngineSave tmp :: example_calls project)%list /\
    disk st1 = <[tmp := SnapFile (wavenet st)]> (disk st) /\
    wavenet st1 = wavenet st.
Proof.
  intros Hmode project tmp generator.
  set (st0 := mkState (EngineSave tmp :: calls st)
                      (<[tmp := SnapFile (wavenet st)]> (disk st)) (wavenet st)).
  pose proof (draw_examples_loop ext generator project 10 0 [] st0
                ltac:(lia) ltac:(discriminate) eq_refl) as Hloop.
  match type of Hloop with _ = (_, ?s) => set (st1 := s) in Hloop end.
  exists (mkState (GeneratorClose :: calls st1) (disk st1) (wavenet st1)).
  split; [| split; [| split; reflexivity]].
  - unfold main_with. fold project. fold tmp.
    rewrite (bind_normal (wavenet_save tmp) _ st tt st0 eq_refl).
    assert (Hsel : forall s, select_generator mode wired s
                             = (Normal (mkGenerator mode true []), s))
      by (intros s; destruct mode; [congruence | reflexivity ..]).
    rewrite (bind_normal _ _ _ _ _ (Hsel _)).
    change (Generator_setShape (mkGenerator mode true []) [16; 16]) with generator.
    unfold draw_examples.
    rewrite (bind_normal _ _ _ _ _
               (bind_normal _ (fun examples => bind (emit GeneratorClose)
                                                 (fun _ => ret examples))
                            _ _ _ Hloop)).
    rewrite List.app_nil_l. f_equal.
  - rewrite trace_emitted.
    change (trace (mkState (calls st1) (disk st1) (wavenet st1))) with (trace st1).
    rewrite (trace_after st0 st1 _ eq_refl).
    change (trace st0) with (trace (mkState (EngineSave tmp :: calls st)
                                            (disk st0) (wavenet st0))).
    rewrite trace_emitted.
    change (trace (mkState (calls st) (disk st0) (wavenet st0))) with (trace st).
    unfold example_calls. rewrite <- !List.app_assoc. reflexivity.
Qed.

(** ** [main] ends within the rounds the model gives its loops *)

Create HintDb fuel discriminated.

Lemma fueled_ret {A} (a : A) : fueled (ret a).
Proof. intros st. discriminate. Qed.

Lemma fueled_throw {A} : fueled (@throw A).
Proof. intros st. discriminate. Qed.

Lemma fueled_return_from_main {A} (code : Z) : fueled (@return_from_main A code).
Proof. intros st. discriminate. Qed.

Lemma fueled_emit (e : event) : fueled (emit e).
Proof. intros st. discriminate. Qed.

Lemma fueled_get_wavenet : fueled get_wavenet.
Proof. intros st. discriminate. Qed.

Lemma fueled_fileExists (filename : string) : fueled (fileExists filename).
Proof. intros st. discriminate. Qed.

Lemma fueled_wavenet_save (path : string) : fueled (wavenet_save path).
Proof. intros st. discriminate. Qed.

Lemma fueled_wavenet_load (path : string) : fueled (wavenet_load path).
Proof. intros st. discriminate. Qed.

Lemma fueled_wavenet_setFilter (iCoeff : Z) (filter : Mat) :
  fueled (wavenet_setFilter iCoeff filter).
Proof. intros st. discriminate. Qed.

Lemma fueled_mat_save (m : Mat) (path : string) : fueled (mat_save m path).
Proof. intros st. discriminate. Qed.

Lemma fueled_mat_load (path : string) : fueled (mat_load path).
Proof. intros st. discriminate. Qed.

Lemma fueled_vector_at {A} (v : list A) (i : Z) : fueled (vector_at v i).
Proof.
  intros st. unfold vector_at.
  destruct (decide (usize i < Z.of_nat (length v))); [| discriminate].
  destruct (v !! Z.to_nat (usize i)); discriminate.
Qed.

Lemma fueled_vector_at_put {A} (v : list A) (i : Z) (a : A) : fueled (vector_at_put v i a).
Proof.
  intros st. unfold vector_at_put.
  destruct (decide (usize i < Z.of_nat (length v))); discriminate.
Qed.

Lemma fueled_bind {A B} (m : Exec A) (k : A -> Exec B) :
  fueled m -> (forall a, fueled (k a)) -> fueled (bind m k).
Proof.
  intros Hm Hk st. unfold bind. specialize (Hm st).
  destruct (m st) as [[a | | code |] st']; cbn [fst] in *;
    [apply Hk | discriminate | discriminate | congruence].
Qed.

Lemma fueled_if {A} (b : bool) (m1 m2 : Exec A) :
  fueled m1 -> fueled m2 -> fueled (if b then m1 else m2).
Proof. now destruct b. Qed.

Lemma fueled_for_range {S : Type} (body : Z -> S -> Exec S) :
  (forall i s, fueled (body i s)) -> forall n i s, fueled (for_range i n body s).
Proof.
  intros Hbody. induction n as [| n IH]; intros i s.
  - apply fueled_ret.
  - rewrite for_range_S. apply fueled_bind; [apply Hbody | intros s'; apply IH].
Qed.

Lemma fueled_select_generator mode wired : fueled (select_generator mode wired).
Proof.
  intros st. destruct mode; [| discriminate ..].
  destruct wired as [g |]; simpl; [| discriminate].
  destruct (g_good g); discriminate.
Qed.

Lemma fueled_scan ext M project : fueled (scan ext M project).
Proof.
  intros st. pose proof (scan_run ext M project st) as Hrun. cbv zeta in Hrun.
  destruct (first_short _).
  - destruct Hrun as (wp & _ & ->). discriminate.
  - destruct Hrun as (v & -> & _). discriminate.
Qed.

#[local] Hint Resolve fueled_ret fueled_throw fueled_return_from_main fueled_emit
  fueled_get_wavenet fueled_fileExists fueled_wavenet_save fueled_wavenet_load
  fueled_wavenet_setFilter fueled_mat_save fueled_mat_load fueled_vector_at
  fueled_vector_at_put fueled_select_generator fueled_scan : fuel.

Ltac fuel :=
  repeat (intros; cbv zeta;
          lazymatch goal with
          | |- fueled (bind _ _) => apply fueled_bind
          | |- fueled (for_range _ _ _ _) => apply fueled_for_range
          | |- fueled (if _ then _ else _) => apply fueled_if
          | |- fueled _ => solve [auto with fuel]
          end).

(** [main] ends: whatever the mode, the generator, the disk and the engine,
    it returns or throws, and the scan loop never needs more rounds than
    it is given. *)
Lemma main_has_fuel ext M Nfilter mode wired :
  fueled (main_with ext M Nfilter mode wired).
Proof.
  unfold main_with, analysis, draw_examples, draw_example, draw_cost_graphs,
    cost_maps, draw_cost_map, load_best, audit, audit_pair, movie, movie_step,
    render_pads.
  fuel.
Qed.

End AnalyseSpec.

(** * Further properties of the utility functions *)

Module UtilitiesMore.
Import Utilities UtilitiesSpec.

(** ** split and join *)

Lemma join_String d c item elems :
  join d (String c item :: elems) = String c (join d (item :: elems)).
Proof. destruct elems; reflexivity. Qed.

Lemma last_char_String c c' s : last_char (String c (String c' s)) = last_char (String c' s).
Proof. reflexivity. Qed.

(** X1. Of a string that ends with the delimiter, [split] drops exactly
    that last delimiter: joining the elements and putting the delimiter
    back at the end gives the string. *)
Theorem split_drops_final_delimiter (d : ascii) : forall s,
  ends_with s d -> join d (split s d) ++ String d "" = s.
Proof.
  induction s as [| c s IH]; intros Hend; [discriminate Hend |].
  destruct s as [| c' s'].
  - injection Hend as ->. rewrite split_delim, split_empty. reflexivity.
  - unfold ends_with in Hend. rewrite last_char_String in Hend.
    specialize (IH Hend).
    destruct (ascii_dec c d) as [-> | Hc].
    + rewrite split_delim, join_cons by (apply split_nonempty; discriminate).
      rewrite append_empty, append_String. now rewrite IH.
    + rewrite split_other by exact Hc.
      destruct (split (String c' s') d) as [| item elems] eqn:E;
        [exfalso; exact (split_nonempty d _ (String_nonempty _ _) E) |].
      rewrite join_String, append_String. now rewrite IH.
Qed.

Lemma split_drops_final_delimiter_witness :
  join "," (split "a,,b," ",") ++ String "," "" = "a,,b,".
Proof. apply split_drops_final_delimiter. reflexivity. Defined.

(** X2. No element [split] returns contains the delimiter. *)
Theorem split_elements_free (d : ascii) : forall s,
  Forall (fun item => ~ occurs d item) (split s d).
Proof.
  induction s as [| c s IH]; [constructor |].
  destruct (ascii_dec c d) as [-> | Hc].
  - rewrite split_delim. constructor; [simpl; tauto | exact IH].
  - rewrite split_other by exact Hc.
    destruct (split s d) as [| item elems].
    + repeat constructor. simpl. tauto.
    + apply Forall_cons in IH as [Hitem Helems].
      constructor; [simpl; tauto | exact Helems].
Qed.

Lemma split_count (d : ascii) : forall s,
  length (split s d)
  = (count_char d s
     + match last_char s with
       | None => 0
       | Some c => if Ascii.eqb c d then 0 else 1
       end)%nat.
Proof.
  induction s as [| c s IH]; [reflexivity |].
  destruct (ascii_dec c d) as [-> | Hc].
  - rewrite split_delim. cbn [length count_char]. rewrite Ascii.eqb_refl, IH.
    destruct s as [| c' s']; [simpl; now rewrite Ascii.eqb_refl |].
    rewrite last_char_String. lia.
  - rewrite split_other by exact Hc. cbn [count_char].
    apply Ascii.eqb_neq in Hc. rewrite Hc.
    destruct s as [| c' s']; [simpl; now rewrite Hc |].
    rewrite last_char_String, <- IH.
    destruct (split (String c' s') d) eqn:E; [| reflexivity].
    exfalso. exact (split_nonempty d _ (String_nonempty _ _) E).
Qed.

(** X3. [split] returns one element for every delimiter of the string, and
    one more for what follows the last delimiter, unless nothing follows
    it: as many elements as delimiters when the string is empty or ends
    with the delimiter, one more otherwise. *)
Theorem split_length (d : ascii) (s : string) :
  (s = "" \/ ends_with s d -> length (split s d) = count_char d s) /\
  (s <> "" /\ ~ ends_with s d -> length (split s d) = S (count_char d s)).
Proof.
  rewrite split_count. unfold ends_with. split.
  - intros [-> | ->]; [reflexivity |]. rewrite Ascii.eqb_refl. lia.
  - intros [Hne Hend]. destruct (last_char s) as [c |] eqn:E.
    + destruct (Ascii.eqb c d) eqn:Hc; [| lia].
      apply Ascii.eqb_eq in Hc. subst. now contradiction Hend.
    + destruct s as [| c s]; [congruence |]. exfalso.
      clear Hne Hend. revert c E. induction s as [| c' s IH]; intros c E; [discriminate |].
      rewrite last_char_String in E. exact (IH c' E).
Qed.

Lemma split_length_witness :
  length (split "a,,b," ",") = count_char "," "a,,b," /\
  length (split ",a,,b" ",") = S (count_char "," ",a,,b").
Proof.
  split.
  - apply (split_length "," "a,,b,"). right. reflexivity.
  - apply (split_length "," ",a,,b"). split; [discriminate |].
    unfold ends_with. simpl. congruence.
Defined.

Lemma split_whole (d : ascii) : forall a,
  a <> "" -> ~ occurs d a -> split a d = [a].
Proof.
  induction a as [| c a IH]; intros Hne Hno; [congruence |].
  simpl in Hno. rewrite split_other by tauto.
  destruct a as [| c' a']; [reflexivity |].
  rewrite IH; [reflexivity | discriminate | tauto].
Qed.

(** X4. Splitting a joined list gives the list back when no element
    contains the delimiter and the last element, if there is one, is not
    empty. *)
Theorem split_of_join (d : ascii) : forall elems,
  Forall (fun item => ~ occurs d item) elems ->
  last elems <> Some "" ->
  split (join d elems) d = elems.
Proof.
  induction elems as [| item elems IH]; intros Hfree Hlast; [reflexivity |].
  apply Forall_cons in Hfree as [Hitem Hfree].
  destruct elems as [| item' elems'].
  - change (join d [item]) with item. apply split_whole; [| exact Hitem].
    intros ->. now apply Hlast.
  - rewrite join_cons by discriminate.
    rewrite split_at_delim by exact Hitem.
    rewrite IH; [reflexivity | exact Hfree |].
    now rewrite last_cons_cons in Hlast.
Qed.

Lemma split_of_join_witness :
  split (join "," [""; "a"; ""; "b"]) "," = [""; "a"; ""; "b"].
Proof.
  apply split_of_join.
  - repeat (apply Forall_cons; split; [simpl; intuition discriminate |]).
    apply Forall_nil. exact I.
  - discriminate.
Defined.

(** ** The string predicates *)

Lemma isEmpty_blank (behind : nat -> ascii) : forall s pos,
  find_if_is_end (isEmpty_lambda behind) pos s = true -> all_chars blank_char s.
Proof.
  induction s as [| c s IH]; intros pos H; [exact I |].
  simpl in H. destruct (isEmpty_lambda behind pos c) eqn:E; [discriminate |].
  split; [| now apply (IH (S pos))].
  unfold isEmpty_lambda, strcmp_is_zero in E. apply negb_false_iff in E.
  apply andb_prop in E as [E _]. now apply Ascii.eqb_eq in E.
Qed.

Lemma isNumber_of_blanks (behind : nat -> ascii) : forall s pos,
  all_chars blank_char s ->
  find_if_is_end (isNumber_lambda behind) pos s = true <->
  forall k, (k < String.length s)%nat -> behind (pos + k)%nat = zero.
Proof.
  induction s as [| c s IH]; intros pos Hs.
  - simpl. split; [intros _ k Hk; lia | reflexivity].
  - destruct Hs as [Hc Hs]. unfold blank_char in Hc. subst c.
    cbn [find_if_is_end String.length].
    assert (Hl : isNumber_lambda behind pos " " = negb (Ascii.eqb (behind pos) zero))
      by reflexivity.
    rewrite Hl. destruct (Ascii.eqb (behind pos) zero) eqn:E; cbn [negb].
    + apply Ascii.eqb_eq in E. rewrite (IH (S pos) Hs). split.
      * intros H [| k] Hk; [now rewrite Nat.add_0_r |].
        rewrite Nat.add_succ_r. apply (H k). lia.
      * intros H k Hk. specialize (H (S k) ltac:(lia)).
        now rewrite Nat.add_succ_r in H.
    + split; [discriminate |]. intros H. specialize (H 0%nat ltac:(lia)).
      rewrite Nat.add_0_r in H. apply Ascii.eqb_neq in E. contradiction.
Qed.

(** X5. The two predicates have a lambda each, and each lambda reads the
    byte behind its own parameter.  A string [isEmpty] accepts is a string
    of blanks; [isNumber] accepts it exactly when the byte behind its
    lambda's parameter is NUL at every character of the string. *)
Theorem blank_strings_are_numbers (behindE behindN : nat -> ascii) (s : string) :
  isEmpty behindE s = true ->
  (isNumber behindN s = true <->
   forall pos, (pos < String.length s)%nat -> behindN pos = zero).
Proof.
  unfold isEmpty, isNumber. intros H. apply andb_prop in H as [Hne Hall].
  rewrite Hne. cbn [andb].
  apply (isNumber_of_blanks behindN s 0). exact (isEmpty_blank behindE s 0 Hall).
Qed.

Lemma blank_strings_are_numbers_witness :
  (isNumber (fun _ => zero) "   " = true <->
   forall pos, (pos < 3)%nat -> (fun _ : nat => zero) pos = zero) /\
  (isNumber (fun _ => "x"%char) "   " = true <->
   forall pos, (pos < 3)%nat -> (fun _ : nat => "x"%char) pos = zero).
Proof.
  split.
  - exact (blank_strings_are_numbers (fun _ => zero) (fun _ => zero) "   " eq_refl).
  - exact (blank_strings_are_numbers (fun _ => zero) (fun _ => "x"%char) "   " eq_refl).
Defined.

Lemma find_if_is_end_iff (p : nat -> ascii -> bool) (P : ascii -> Prop) :
  (forall pos c, p pos c = false <-> P c) ->
  forall s pos, find_if_is_end p pos s = true <-> all_chars P s.
Proof.
  intros Hp. induction s as [| c s IH]; intros pos; simpl; [tauto |].
  destruct (p pos c) eqn:E.
  - split; [discriminate |]. intros [Hc _]. apply (Hp pos) in Hc. congruence.
  - rewrite IH. apply (Hp pos) in E. tauto.
Qed.

Lemma string_empty_iff s : negb (string_empty s) = true <-> s <> "".
Proof. destruct s; simpl; split; congruence. Qed.

(** X6. Where the byte behind the lambda's parameter is NUL at every call,
    [isNumber] holds of exactly the non-empty strings of digits, ['.'] and
    [' '] (any number of points and blanks, in any place), and [isEmpty]
    of exactly the non-empty strings of blanks. *)
Theorem string_predicates_terminated (behind : nat -> ascii) :
  (forall pos, behind pos = zero) ->
  forall s,
    (isNumber behind s = true <-> s <> "" /\ all_chars numeric_char s) /\
    (isEmpty behind s = true <-> s <> "" /\ all_chars blank_char s).
Proof.
  intros Hb s. unfold isNumber, isEmpty. rewrite !andb_true_iff, !string_empty_iff.
  assert (HN : forall pos c, isNumber_lambda behind pos c = false <-> numeric_char c).
  { intros pos c. unfold isNumber_lambda, strcmp_is_zero, numeric_char.
    rewrite Hb, negb_false_iff, !andb_true_r, !orb_true_iff, !Ascii.eqb_eq. tauto. }
  assert (HE : forall pos c, isEmpty_lambda behind pos c = false <-> blank_char c).
  { intros pos c. unfold isEmpty_lambda, strcmp_is_zero, blank_char.
    rewrite Hb, negb_false_iff, andb_true_r. apply Ascii.eqb_eq. }
  rewrite (find_if_is_end_iff _ _ HN), (find_if_is_end_iff _ _ HE). tauto.
Qed.

Lemma string_predicates_terminated_witness :
  (isNumber (fun _ => zero) "1.2.3 ." = true <->
   "1.2.3 ." <> "" /\ all_chars numeric_char "1.2.3 .") /\
  (isEmpty (fun _ => zero) "1 " = true <-> "1 " <> "" /\ all_chars blank_char "1 ").
Proof.
  split.
  - exact (proj1 (string_predicates_terminated (fun _ => zero) (fun _ => eq_refl) "1.2.3 .")).
  - exact (proj2 (string_predicates_terminated (fun _ => zero) (fun _ => eq_refl) "1 ")).
Defined.

(** X7. Where the byte behind the lambda's parameter is never NUL, no
    [strcmp] of the lambdas gives 0: [isEmpty] holds of no string, and
    [isNumber] of exactly the non-empty strings of digits. *)
Theorem string_predicates_unterminated (behind : nat -> ascii) :
  (forall pos, behind pos <> zero) ->
  forall s,
    isEmpty behind s = false /\
    (isNumber behind s = true <-> s <> "" /\ all_chars (fun c => isdigit c = true) s).
Proof.
  intros Hb s.
  assert (Hcmp : forall pos c l, strcmp_is_zero c (behind pos) l = false).
  { intros pos c l. unfold strcmp_is_zero.
    destruct (Ascii.eqb (behind pos) zero) eqn:E; [| apply andb_false_r].
    apply Ascii.eqb_eq in E. now destruct (Hb pos). }
  split.
  - unfold isEmpty. destruct s as [| c s]; [reflexivity |].
    simpl. unfold isEmpty_lambda. now rewrite Hcmp.
  - unfold isNumber. rewrite andb_true_iff, string_empty_iff.
    assert (HN : forall pos c, isNumber_lambda behind pos c = false <-> isdigit c = true).
    { intros pos c. unfold isNumber_lambda.
      rewrite !Hcmp, !orb_false_r. apply negb_false_iff. }
    rewrite (find_if_is_end_iff _ _ HN). tauto.
Qed.

Lemma string_predicates_unterminated_witness :
  isEmpty (fun _ => "x"%char) " " = false /\
  (isNumber (fun _ => "x"%char) "12.5" = true <->
   "12.5" <> "" /\ all_chars (fun c => isdigit c = true) "12.5").
Proof.
  assert (Hb : forall pos : nat, (fun _ : nat => "x"%char) pos <> zero)
    by (intros pos; discriminate).
  split.
  - exact (proj1 (string_predicates_unterminated (fun _ => "x"%char) Hb " ")).
  - exact (proj2 (string_predicates_unterminated (fun _ => "x"%char) Hb "12.5")).
Defined.

End UtilitiesMore.

(** * Further properties of the analysis program *)

Module AnalyseMore.
Import Analyse AnalyseSpec.

(** ** The paths [main] builds (lines 42-71, 207-210, 405) *)

Abbreviation no_percent := (Utilities.all_chars (fun c => c <> "%"%char)).

Lemma all_chars_app (P : ascii -> Prop) : forall a b,
  Utilities.all_chars P a -> Utilities.all_chars P b -> Utilities.all_chars P (a ++ b).
Proof.
  induction a as [| c a IH]; intros b Ha Hb; [exact Hb |].
  destruct Ha as [Hc Ha]. rewrite append_String_l. split; [exact Hc | now apply IH].
Qed.

Lemma no_percent_uint (d : Decimal.uint) : no_percent (NilEmpty.string_of_uint d).
Proof. induction d; simpl; (split; [discriminate | assumption]) || exact I. Qed.

Lemma no_percent_to_string (n : Z) : no_percent (to_string n).
Proof.
  unfold to_string.
  assert (H : forall d, no_percent (NilZero.string_of_uint d)).
  { intros d. destruct d; try apply no_percent_uint. simpl. split; [discriminate | exact I]. }
  destruct (Z.to_int n); simpl; [apply H | split; [discriminate | apply H]].
Qed.

Lemma no_percent_project mode Nfilter : no_percent (project_of mode Nfilter).
Proof.
  unfold project_of.
  apply all_chars_app; [simpl; intuition discriminate |].
  apply all_chars_app; [destruct mode; simpl; intuition discriminate |].
  apply all_chars_app; [simpl; intuition discriminate | apply no_percent_to_string].
Qed.

Lemma no_percent_outdir mode Nfilter : no_percent (outdir_of (project_of mode Nfilter)).
Proof.
  unfold outdir_of.
  apply all_chars_app; [simpl; intuition discriminate |].
  apply all_chars_app; [apply no_percent_project | simpl; intuition discriminate].
Qed.

Lemma append_assoc_l : forall a b c : string, (a ++ b) ++ c = a ++ (b ++ c).
Proof.
  induction a as [| x a IH]; intros b c; [reflexivity |].
  rewrite !append_String_l. now rewrite IH.
Qed.

Lemma append_cancel_l : forall a x y : string, a ++ x = a ++ y -> x = y.
Proof.
  induction a as [| c a IH]; intros x y H; [exact H |].
  rewrite !append_String_l in H. injection H as H. now apply IH.
Qed.

(** A text without ['%'] is copied by [snprintf]. *)
Lemma sprintf1_copy conv' : forall a rest n,
  no_percent a ->
  sprintf1 (String "%" conv') (a ++ rest) n = a ++ sprintf1 (String "%" conv') rest n.
Proof.
  induction a as [| c a IH]; intros rest n Ha; [reflexivity |].
  destruct Ha as [Hc Ha]. rewrite !append_String_l. cbn [sprintf1 String.prefix].
  destruct (ascii_dec "%" c) as [E | _]; [congruence |].
  now rewrite IH.
Qed.

Lemma substring_all : forall s m, (String.length s <= m)%nat -> String.substring 0 m s = s.
Proof.
  induction s as [| c s IH]; intros m Hm; [now destruct m |].
  simpl in Hm. destruct m as [| m]; [lia |]. simpl. rewrite IH by lia. reflexivity.
Qed.

Lemma sprintf1_u rest n : sprintf1 "%06u" ("%06u" ++ rest) n = pad6 n ++ rest.
Proof.
  change ("%06u" ++ rest) with (String "%" (String "0" (String "6" (String "u" rest)))).
  cbn -[pad6]. replace (String.prefix "" rest) with true by now destruct rest.
  f_equal. apply substring_all. lia.
Qed.

Lemma sprintf1_d rest n : sprintf1 "%06d" ("%06d" ++ rest) n = pad6 n ++ rest.
Proof.
  change ("%06d" ++ rest) with (String "%" (String "0" (String "6" (String "d" rest)))).
  cbn -[pad6]. replace (String.prefix "" rest) with true by now destruct rest.
  f_equal. apply substring_all. lia.
Qed.

(** The shape of a snapshot path. *)
Lemma snapshot_path_shape mode Nfilter n :
  let project := project_of mode Nfilter in
  snapshot_path project n
  = outdir_of project ++ "snapshots/" ++ project ++ "." ++ pad6 n ++ ".snap".
Proof.
  cbv zeta. unfold snapshot_path, Snapshot_file, pattern_of. cbn [snap_pattern snap_number].
  rewrite sprintf1_copy by apply no_percent_outdir. f_equal.
  rewrite (sprintf1_copy "06u" "snapshots/") by (simpl; intuition discriminate). f_equal.
  rewrite sprintf1_copy by apply no_percent_project. f_equal.
Qed.

(** Reading a padded number back. *)
Lemma uint_of_zeros (k : nat) (s : string) (d : Decimal.uint) :
  NilEmpty.uint_of_string s = Some d ->
  exists d', NilEmpty.uint_of_string (zeros k ++ s) = Some d' /\ Z.of_uint d' = Z.of_uint d.
Proof.
  intros Hs. induction k as [| k (d' & Hd' & Hv)]; [exists d; split; [exact Hs | reflexivity] |].
  exists (Decimal.D0 d'). split; [| exact Hv].
  change (zeros (S k) ++ s) with (String "0" (zeros k ++ s)).
  cbn [NilEmpty.uint_of_string]. now rewrite Hd'.
Qed.

Lemma padded_value (k : nat) (n : Z) :
  0 <= n ->
  exists d, NilEmpty.uint_of_string (zeros k ++ to_string n) = Some d /\ Z.of_uint d = n.
Proof.
  intros Hn.
  assert (Hs : exists d, NilEmpty.uint_of_string (to_string n) = Some d /\ Z.of_uint d = n).
  { unfold to_string. pose proof (DecimalZ.of_to n) as Hof.
    destruct (Z.to_int n) as [u | u] eqn:E.
    - cbn [NilZero.string_of_int Z.of_int] in *.
      destruct u; try (eexists; split; [apply NilEmpty.usu | exact Hof]).
      exists (Decimal.D0 Decimal.Nil). split; [reflexivity | exact Hof].
    - exfalso. destruct n; simpl in E; try discriminate. lia. }
  destruct Hs as (d & Hd & Hv).
  destruct (uint_of_zeros k _ _ Hd) as (d' & Hd' & Hv').
  exists d'. split; [exact Hd' | congruence].
Qed.

Lemma padded_inj (k : nat) (n m : Z) :
  0 <= n -> 0 <= m -> forall k', zeros k ++ to_string n = zeros k' ++ to_string m -> n = m.
Proof.
  intros Hn Hm k' E.
  destruct (padded_value k n Hn) as (d & Hd & <-).
  destruct (padded_value k' m Hm) as (d' & Hd' & <-).
  rewrite E in Hd. congruence.
Qed.

Lemma pad6_nonneg (n : Z) :
  0 <= n -> pad6 n = zeros (6 - String.length (to_string n)) ++ to_string n.
Proof. intros Hn. unfold pad6. now destruct (decide (n < 0)); [lia |]. Qed.

Lemma pad6_neg (n : Z) :
  n < 0 ->
  pad6 n = String "-" (zeros (5 - String.length (to_string (- n))) ++ to_string (- n)).
Proof. intros Hn. unfold pad6. now destruct (decide (n < 0)); [| lia]. Qed.

Lemma pad6_value (n : Z) :
  0 <= n ->
  exists d, NilEmpty.uint_of_string (pad6 n) = Some d /\ Z.of_uint d = n.
Proof. intros Hn. rewrite pad6_nonneg by exact Hn. now apply padded_value. Qed.

Lemma pad6_inj (n m : Z) : 0 <= n -> 0 <= m -> pad6 n = pad6 m -> n = m.
Proof.
  intros Hn Hm E.
  destruct (pad6_value n Hn) as (d & Hd & <-).
  destruct (pad6_value m Hm) as (d' & Hd' & <-).
  rewrite E in Hd. congruence.
Qed.

(** The number is followed by a point, which no decimal has. *)
Lemma digits_then_point : forall (a b x y : string),
  Utilities.all_chars (fun c => Utilities.isdigit c = true) a ->
  Utilities.all_chars (fun c => Utilities.isdigit c = true) b ->
  a ++ String "." x = b ++ String "." y -> a = b.
Proof.
  induction a as [| c a IH]; intros b x y Ha Hb E.
  - destruct b as [| c' b]; [reflexivity |].
    rewrite append_empty_l, append_String_l in E. injection E as <- _.
    destruct Hb as [Hb _]. discriminate Hb.
  - destruct b as [| c' b].
    + rewrite append_empty_l, append_String_l in E. injection E as -> _.
      destruct Ha as [Ha _]. discriminate Ha.
    + rewrite !append_String_l in E. injection E as -> E.
      destruct Ha as [_ Ha]. destruct Hb as [_ Hb]. f_equal. eapply IH; eassumption.
Qed.

Lemma digits_uint (d : Decimal.uint) :
  Utilities.all_chars (fun c => Utilities.isdigit c = true) (NilEmpty.string_of_uint d).
Proof. induction d; simpl; (split; [reflexivity | assumption]) || exact I. Qed.

Lemma digits_zeros (k : nat) :
  Utilities.all_chars (fun c => Utilities.isdigit c = true) (zeros k).
Proof. induction k; simpl; [exact I | split; [reflexivity | assumption]]. Qed.

Lemma digits_to_string (n : Z) :
  0 <= n -> Utilities.all_chars (fun c => Utilities.isdigit c = true) (to_string n).
Proof.
  intros Hn.
  unfold to_string. destruct n as [| p | p]; [simpl; tauto | | lia].
  simpl. destruct (Pos.to_uint p) as [| u | u | u | u | u | u | u | u | u | u];
    [simpl; tauto | ..];
    match goal with
    | |- Utilities.all_chars _ (NilZero.string_of_uint ?d) => exact (digits_uint d)
    end.
Qed.

Lemma digits_pad6 (n : Z) :
  0 <= n -> Utilities.all_chars (fun c => Utilities.isdigit c = true) (pad6 n).
Proof.
  intros Hn. rewrite pad6_nonneg by exact Hn.
  apply all_chars_app; [apply digits_zeros | now apply digits_to_string].
Qed.

(** X8. The snapshot of number [n] of a project of [main] lies at
    [<outdir>snapshots/<project>.<n, six digits at least>.snap], and
    different numbers (not negative) lie at different paths. *)
Theorem snapshot_paths_distinct (mode : GeneratorMode) (Nfilter n m : Z) :
  0 <= n -> 0 <= m ->
  let project := project_of mode Nfilter in
  snapshot_path project n
  = outdir_of project ++ "snapshots/" ++ project ++ "." ++ pad6 n ++ ".snap" /\
  (snapshot_path project n = snapshot_path project m -> n = m).
Proof.
  intros Hn Hm project. split; [apply snapshot_path_shape |].
  subst project. rewrite !snapshot_path_shape. cbv zeta. intros E.
  do 3 apply append_cancel_l in E.
  rewrite !append_String_l, !append_empty_l in E. injection E as E.
  change (".snap") with (String "." "snap") in E.
  apply pad6_inj; [exact Hn | exact Hm |].
  eapply digits_then_point; [apply digits_pad6, Hn | apply digits_pad6, Hm | exact E].
Qed.

Lemma snapshot_paths_distinct_witness :
  snapshot_path (project_of Needle 4) 3
  = "./output/Run.Needle.N4/snapshots/Run.Needle.N4.000003.snap" /\
  (snapshot_path (project_of Needle 4) 3 = snapshot_path (project_of Needle 4) 12 -> 3 = 12).
Proof.
  exact (snapshot_paths_distinct Needle 4 3 12 ltac:(lia) ltac:(lia)).
Defined.

Lemma snapshot_path_not_tmp mode Nfilter n :
  let project := project_of mode Nfilter in
  snapshot_path project n <> outdir_of project ++ "tmp.snap".
Proof.
  cbv zeta. rewrite snapshot_path_shape. cbv zeta. intros E.
  apply append_cancel_l in E. rewrite !append_String_l in E. discriminate E.
Qed.

Lemma snapshot_path_not_cache mode Nfilter n :
  let project := project_of mode Nfilter in
  snapshot_path project n <> costMapName project /\
  snapshot_path project n <> costMapSparseName project /\
  snapshot_path project n <> costMapRegName project.
Proof.
  cbv zeta. rewrite snapshot_path_shape. cbv zeta.
  unfold outdir_of, costMapName, costMapSparseName, costMapRegName.
  rewrite !append_String_l.
  repeat split; intros E; discriminate E.
Qed.

(** X9. None of the files [main] writes in the model of the disk (the
    engine state saved to [tmp.snap] and the three cost-map matrices) lies
    at the path of a snapshot of the project. *)
Theorem written_paths_spare_snapshots (mode : GeneratorMode) (Nfilter n : Z) :
  let project := project_of mode Nfilter in
  snapshot_path project n <> outdir_of project ++ "tmp.snap" /\
  snapshot_path project n ∉ cache_names project.
Proof.
  cbv zeta. split; [apply snapshot_path_not_tmp |].
  destruct (snapshot_path_not_cache mode Nfilter n) as (H1 & H2 & H3).
  unfold cache_names. rewrite !elem_of_cons, elem_of_nil. tauto.
Qed.

Lemma cache_names_differ (project : string) :
  costMapName project <> costMapSparseName project /\
  costMapName project <> costMapRegName project /\
  costMapSparseName project <> costMapRegName project.
Proof.
  unfold costMapName, costMapSparseName, costMapRegName.
  rewrite !append_String_l.
  repeat split; intros E; discriminate E.
Qed.

(** X10. The cost maps a cold run computes are the ones every later run
    reads back: after the step has run without the raw artifact, a second
    run of it (with any examples, any collaborators and any engine state)
    sweeps nothing and returns the three grids of the first sweep, read
    from the three artifacts. *)
Theorem cost_maps_round_trip (ext ext' : Collaborators) (project : string)
        (examples examples' : list Mat) (w' : Wavenet) (st : State) :
  disk st !! costMapName project = None ->
  let costs := wavenet_costMap ext (wavenet st) examples in
  let st1 := snd (cost_maps ext project examples st) in
  let st2 := mkState (calls st1) (disk st1) w' in
  let out := cost_maps ext' project examples' st2 in
  fst out = Normal costs /\
  trace (snd out)
  = (trace st2 ++ [MatLoad (costMapName project); MatLoad (costMapSparseName project);
                   MatLoad (costMapRegName project)])%list /\
  disk (snd out) = disk st1.
Proof.
  intros Hmiss costs st1 st2 out.
  destruct (cache_names_differ project) as (Hrs & Hrr & Hsr).
  assert (Hd1 : disk st1
                = <[costMapRegName project := MatFile (snd costs)]>
                    (<[costMapSparseName project := MatFile (snd (fst costs))]>
                       (<[costMapName project := MatFile (fst (fst costs))]> (disk st)))).
  { subst st1. unfold cost_maps, bind, fileExists.
    rewrite bool_decide_eq_false_2 by (rewrite Hmiss; intros [? ?]; discriminate).
    reflexivity. }
  assert (Hraw : disk st2 !! costMapName project = Some (MatFile (fst (fst costs)))).
  { cbn [disk st2]. rewrite Hd1.
    rewrite lookup_insert_ne by congruence. rewrite lookup_insert_ne by congruence.
    apply lookup_insert_eq. }
  assert (Hsparse : disk st2 !! costMapSparseName project
                    = Some (MatFile (snd (fst costs)))).
  { cbn [disk st2]. rewrite Hd1.
    rewrite lookup_insert_ne by congruence. apply lookup_insert_eq. }
  assert (Hreg : disk st2 !! costMapRegName project = Some (MatFile (snd costs))).
  { cbn [disk st2]. rewrite Hd1. apply lookup_insert_eq. }
  subst out. unfold cost_maps at 1 2 3. unfold bind, fileExists.
  rewrite bool_decide_eq_true_2 by (rewrite Hraw; eauto).
  cbn [negb mat_load fst snd disk calls wavenet].
  rewrite Hraw, Hsparse, Hreg. unfold ret. cbn [fst snd disk].
  split; [now destruct costs as [[c0 c1] c2] |].
  split; [| reflexivity].
  unfold trace. cbn [calls]. rewrite !reverse_cons.
  now rewrite <- !List.app_assoc.
Qed.

Lemma cost_maps_round_trip_witness :
  let project := "Run.Needle.N4" in
  let st := initial_state ∅ Samples.fresh in
  let st1 := snd (cost_maps Samples.collaborators project [] st) in
  let st2 := mkState (calls st1) (disk st1) (Samples.run 1) in
  fst (cost_maps Samples.collaborators project [[[Q2Qc 5]]] st2)
  = Normal ([[Q2Qc 1]], [[Q2Qc 2]], [[Q2Qc 3]]).
Proof.
  intros project st st1 st2.
  exact (proj1 (cost_maps_round_trip Samples.collaborators Samples.collaborators project
                  [] [[[Q2Qc 5]]] (Samples.run 1) st eq_refl)).
Defined.

(** X11. The cache is keyed by the generator mode alone: two projects of
    [main] have the same three cache names iff they have the same mode,
    whatever their filter counts (not negative).  A cost map computed for
    one filter count is the one read back for every other. *)
Theorem cache_keyed_by_mode (mode mode' : GeneratorMode) (Nfilter Nfilter' : Z) :
  0 <= Nfilter -> 0 <= Nfilter' ->
  cache_names (project_of mode Nfilter) = cache_names (project_of mode' Nfilter')
  <-> mode = mode'.
Proof.
  intros Hn Hn'. unfold cache_names, costMapName, costMapSparseName, costMapRegName.
  rewrite !regex_replace_project by assumption. split.
  - intros E. injection E as E _ _.
    destruct mode, mode'; try reflexivity; vm_compute in E; discriminate E.
  - now intros ->.
Qed.

Lemma cache_keyed_by_mode_witness :
  cache_names (project_of Needle 4) = cache_names (project_of Needle 6) /\
  cache_names (project_of Needle 4) <> cache_names (project_of Uniform 4).
Proof.
  split.
  - apply (cache_keyed_by_mode Needle Needle 4 6); [lia | lia | reflexivity].
  - intros E. apply (cache_keyed_by_mode Needle Uniform 4 4) in E; [discriminate E | lia | lia].
Defined.

Lemma frame_path_shape mode Nfilter k :
  let outdir := outdir_of (project_of mode Nfilter) in
  (String.length (outdir ++ "movie/bestBasis_" ++ pad6 (int_of_unsigned k) ++ ".png")
   <= 99)%nat ->
  frame_path outdir k = outdir ++ "movie/bestBasis_" ++ pad6 (int_of_unsigned k) ++ ".png".
Proof.
  cbv zeta. intros Hfit. unfold frame_path.
  rewrite sprintf1_copy by apply no_percent_outdir.
  change ("movie/bestBasis_%06d.png") with ("movie/bestBasis_" ++ "%06d" ++ ".png").
  rewrite (sprintf1_copy "06d" "movie/bestBasis_") by (simpl; intuition discriminate).
  rewrite sprintf1_d. now apply substring_all.
Qed.

(** A padded number is told from another by its sign and its digits. *)
Lemma pad6_point_inj (n m : Z) (x y : string) :
  pad6 n ++ String "." x = pad6 m ++ String "." y -> n = m.
Proof.
  intros E.
  destruct (Z_lt_ge_dec n 0) as [Hn | Hn], (Z_lt_ge_dec m 0) as [Hm | Hm].
  - rewrite (pad6_neg n Hn), (pad6_neg m Hm), !append_String_l in E.
    injection E as E.
    assert (Hd : forall i, 0 <= i ->
               Utilities.all_chars (fun c => Utilities.isdigit c = true)
                 (zeros (5 - String.length (to_string i)) ++ to_string i))
      by (intros i Hi; apply all_chars_app; [apply digits_zeros | now apply digits_to_string]).
    apply digits_then_point in E; [| apply Hd; lia | apply Hd; lia].
    apply padded_inj in E; lia.
  - exfalso. rewrite (pad6_neg n Hn), append_String_l in E.
    pose proof (digits_pad6 m ltac:(lia)) as Hd.
    destruct (pad6 m) as [| c r].
    + rewrite append_empty_l in E. discriminate E.
    + rewrite append_String_l in E. injection E as <- _.
      destruct Hd as [Hd _]. discriminate Hd.
  - exfalso. rewrite (pad6_neg m Hm), append_String_l in E.
    pose proof (digits_pad6 n ltac:(lia)) as Hd.
    destruct (pad6 n) as [| c r].
    + rewrite append_empty_l in E. discriminate E.
    + rewrite append_String_l in E. injection E as -> _.
      destruct Hd as [Hd _]. discriminate Hd.
  - apply pad6_inj; [lia | lia |].
    eapply digits_then_point; [apply digits_pad6; lia | apply digits_pad6; lia | exact E].
Qed.

(** X12. [iFrame] is an [unsigned] printed with ["%06d"].  As long as the
    name of a frame fits the buffer of 100 characters, frame [k] below
    2^31 is saved as [<outdir>movie/bestBasis_<k, six digits at
    least>.png]; from 2^31 on the number printed is the negative
    [k - 2^32], its sign among the six characters.  Different frames are
    saved under different names, on either side of 2^31. *)
Theorem frame_paths_distinct (mode : GeneratorMode) (Nfilter k k' : Z) :
  0 <= k < UINT_MOD -> 0 <= k' < UINT_MOD ->
  let outdir := outdir_of (project_of mode Nfilter) in
  let name i := outdir ++ "movie/bestBasis_" ++ pad6 (int_of_unsigned i) ++ ".png" in
  (String.length (name k) <= 99)%nat ->
  (String.length (name k') <= 99)%nat ->
  (k < 2 ^ 31 ->
   frame_path outdir k
   = outdir ++ "movie/bestBasis_"
     ++ zeros (6 - String.length (to_string k)) ++ to_string k ++ ".png") /\
  (2 ^ 31 <= k ->
   frame_path outdir k
   = outdir ++ "movie/bestBasis_-"
     ++ zeros (5 - String.length (to_string (UINT_MOD - k))) ++ to_string (UINT_MOD - k)
     ++ ".png") /\
  (frame_path outdir k = frame_path outdir k' -> k = k').
Proof.
  intros Hk Hk' outdir name Hfit Hfit'. subst name outdir. cbv beta in Hfit, Hfit'.
  rewrite !frame_path_shape by assumption.
  split; [| split].
  - intros Hlo. do 2 f_equal. unfold int_of_unsigned.
    destruct (decide (k < 2 ^ 31)); [| lia].
    rewrite pad6_nonneg by lia. now rewrite append_assoc_l.
  - intros Hhi. f_equal. unfold int_of_unsigned.
    destruct (decide (k < 2 ^ 31)); [lia |].
    rewrite pad6_neg by lia.
    replace (- (k - UINT_MOD)) with (UINT_MOD - k) by lia.
    change ("movie/bestBasis_-") with ("movie/bestBasis_" ++ "-").
    rewrite (append_assoc_l "movie/bestBasis_" "-"). f_equal.
    rewrite !append_String_l, append_empty_l. f_equal. now rewrite append_assoc_l.
  - intros E. do 2 apply append_cancel_l in E.
    change (".png") with (String "." "png") in E.
    apply pad6_point_inj in E. unfold int_of_unsigned, UINT_MOD in *.
    destruct (decide (k < 2 ^ 31)), (decide (k' < 2 ^ 31)); lia.
Qed.

Lemma frame_paths_distinct_witness :
  frame_path (outdir_of (project_of Gaussian 4)) 7
  = "./output/Run.Gaussian.N4/movie/bestBasis_000007.png" /\
  frame_path (outdir_of (project_of Gaussian 4)) 4294967295
  = "./output/Run.Gaussian.N4/movie/bestBasis_-00001.png" /\
  (frame_path (outdir_of (project_of Gaussian 4)) 7
   = frame_path (outdir_of (project_of Gaussian 4)) 4294967295 -> 7 = 4294967295).
Proof.
  destruct (frame_paths_distinct Gaussian 4 7 4294967295) as (Hlo & _ & Hinj);
    [vm_compute; split; [discriminate | reflexivity] ..
    | vm_compute; lia | vm_compute; lia |].
  destruct (frame_paths_distinct Gaussian 4 4294967295 7) as (_ & Hhi & _);
    [vm_compute; split; [discriminate | reflexivity] ..
    | vm_compute; lia | vm_compute; lia |].
  split; [exact (Hlo ltac:(lia)) |]. split; [exact (Hhi ltac:(lia)) | exact Hinj].
Defined.

(** ** From the head of [main] to the scan (lines 79-105) *)

Lemma leading_ext (P Q : Z -> bool) (l : list Z) :
  (forall n, P n = Q n) -> leading P l = leading Q l.
Proof.
  intros H. induction l as [| n l IH]; [reflexivity |].
  simpl. now rewrite H, IH.
Qed.

Lemma scanned_runs_ext d d' project : forall l w,
  (forall n, d !! snapshot_path project n = d' !! snapshot_path project n) ->
  scanned_runs d project w l = scanned_runs d' project w l.
Proof.
  induction l as [| n l IH]; intros w H; [reflexivity |].
  cbn [scanned_runs]. unfold load_result. rewrite (H n). f_equal. now apply IH.
Qed.

(** X13. In a mode other than [File], [main] saves the engine state to
    [tmp.snap], draws exactly ten samples, saving each as
    [exampleSignal.<1..10>.<project>.pdf] in turn, closes the generator and
    goes on to the scan with the ten samples as examples and the shape
    16 x 16.  The engine is as it was and no snapshot file of the project
    has changed, so that the scan visits the snapshots of the disk [main]
    started with. *)
Theorem main_draws_ten_examples (ext : Collaborators) (M Nfilter : Z)
        (mode : GeneratorMode) (wired : option Generator) (st : State) :
  mode <> File ->
  let project := project_of mode Nfilter in
  exists st1,
    main_with ext M Nfilter mode wired st
    = analysis ext M project (mkGenerator mode true [16; 16])
               (generator_next ext mode [16; 16] <$> seqZ 0 10) st1 /\
    trace st1
    = (trace st ++ EngineSave (outdir_of project ++ "tmp.snap") :: example_calls project)%list /\
    List.filter draws_sample (example_calls project) = replicate 10 GeneratorNext /\
    wavenet st1 = wavenet st /\
    (forall n, disk st1 !! snapshot_path project n = disk st !! snapshot_path project n) /\
    scan_indices (disk st1) project M 1 = scan_indices (disk st) project M 1 /\
    scanned_runs (disk st1) project (wavenet st1) (scan_indices (disk st1) project M 1)
    = scanned_runs (disk st) project (wavenet st) (scan_indices (disk st) project M 1).
Proof.
  intros Hmode project.
  destruct (main_with_reaches_analysis ext M Nfilter mode wired st Hmode)
    as (st1 & Hrun & Htrace & Hdisk & Hw).
  fold project in Hrun, Htrace, Hdisk.
  assert (Hsnap : forall n, disk st1 !! snapshot_path project n
                            = disk st !! snapshot_path project n).
  { intros n. rewrite Hdisk. apply lookup_insert_ne.
    intros E. exact (snapshot_path_not_tmp mode Nfilter n (eq_sym E)). }
  assert (Hidx : scan_indices (disk st1) project M 1 = scan_indices (disk st) project M 1).
  { unfold scan_indices. apply leading_ext. intros n. unfold present. now rewrite Hsnap. }
  exists st1. split; [exact Hrun |]. split; [exact Htrace |].
  split; [reflexivity |]. split; [exact Hw |]. split; [exact Hsnap |].
  split; [exact Hidx |].
  rewrite Hidx, Hw. now apply scanned_runs_ext.
Qed.

Lemma main_draws_ten_examples_witness :
  exists st1,
    main_with Samples.collaborators 5 4 Needle None (initial_state ∅ Samples.fresh)
    = analysis Samples.collaborators 5 (project_of Needle 4) (mkGenerator Needle true [16; 16])
               (generator_next Samples.collaborators Needle [16; 16] <$> seqZ 0 10) st1 /\
    wavenet st1 = Samples.fresh.
Proof.
  destruct (main_draws_ten_examples Samples.collaborators 5 4 Needle None
              (initial_state ∅ Samples.fresh) ltac:(discriminate))
    as (st1 & Hrun & _ & _ & Hw & _).
  exists st1. split; [exact Hrun | exact Hw].
Defined.

(** ** The ways [main] ends *)

Lemma returns_one_only_bind {A B} (m : Exec A) (k : A -> Exec B) :
  returns_one_only m -> (forall a, returns_one_only (k a)) -> returns_one_only (bind m k).
Proof.
  intros Hm Hk st. unfold bind. specialize (Hm st).
  destruct (m st) as [[a | | code |] st']; cbn [fst] in *;
    [apply Hk | exact I | exact Hm | exact Hm].
Qed.

Lemma returns_one_only_if {A} (b : bool) (m1 m2 : Exec A) :
  returns_one_only m1 -> returns_one_only m2 -> returns_one_only (if b then m1 else m2).
Proof. now destruct b. Qed.

Lemma returns_one_only_for_range {S : Type} (body : Z -> S -> Exec S) :
  (forall i s, returns_one_only (body i s)) ->
  forall n i s, returns_one_only (for_range i n body s).
Proof.
  intros Hbody. induction n as [| n IH]; intros i s.
  - intros st. exact I.
  - rewrite for_range_S.
    apply returns_one_only_bind; [apply Hbody | intros s'; apply IH].
Qed.

Lemma returns_one_only_vector_at {A} (v : list A) (i : Z) : returns_one_only (vector_at v i).
Proof.
  intros st. unfold vector_at.
  destruct (decide (usize i < Z.of_nat (length v))); [| exact I].
  destruct (v !! Z.to_nat (usize i)); exact I.
Qed.

Lemma returns_one_only_select_generator mode wired :
  returns_one_only (select_generator mode wired).
Proof.
  intros st. destruct mode; [| exact I ..].
  destruct wired as [g |]; simpl; [| reflexivity].
  destruct (g_good g); simpl; [exact I | reflexivity].
Qed.

Lemma returns_one_only_scan ext M project : returns_one_only (scan ext M project).
Proof.
  intros st. pose proof (scan_run ext M project st) as Hrun. cbv zeta in Hrun.
  destruct (first_short _).
  - destruct Hrun as (wp & _ & ->). exact I.
  - destruct Hrun as (v & -> & _). exact I.
Qed.

Lemma returns_one_only_plain {A} (m : Exec A) :
  (forall st, exists a st', m st = (Normal a, st')) -> returns_one_only m.
Proof. intros H st. destruct (H st) as (a & st' & ->). exact I. Qed.

Ltac one_only :=
  repeat (intros; cbv zeta;
          lazymatch goal with
          | |- returns_one_only (bind _ _) => apply returns_one_only_bind
          | |- returns_one_only (for_range _ _ _ _) => apply returns_one_only_for_range
          | |- returns_one_only (if _ then _ else _) => apply returns_one_only_if
          | |- returns_one_only (vector_at _ _) => apply returns_one_only_vector_at
          | |- returns_one_only (select_generator _ _) =>
              apply returns_one_only_select_generator
          | |- returns_one_only (scan _ _ _) => apply returns_one_only_scan
          | |- returns_one_only (return_from_main 1) => intros ?; reflexivity
          | |- returns_one_only _ =>
              apply returns_one_only_plain; intros ?; eexists _, _; reflexivity
          end).

Lemma leaves_main_bind {A B} (m : Exec A) (k : A -> Exec B) :
  (forall a, leaves_main (k a)) -> leaves_main (bind m k).
Proof.
  intros Hk st b. unfold bind.
  destruct (m st) as [[a | | code |] st']; cbn [fst]; [apply Hk | discriminate ..].
Qed.

(** X14. In each of the four modes the switch of line 44 names, [main]
    ends in one of two ways only: it returns 1 or it throws.  It returns 1
    when the file generator is not ready and it returns 1 when the analysis
    has run to its end; the [return 0] of the switch's default branch is
    not reached, and no other code is returned. *)
Theorem main_returns_one_or_throws (ext : Collaborators) (M Nfilter : Z)
        (mode : GeneratorMode) (wired : option Generator) (st : State) :
  fst (main_with ext M Nfilter mode wired st) = Returned 1 \/
  fst (main_with ext M Nfilter mode wired st) = Thrown.
Proof.
  assert (Hone : returns_one_only (main_with ext M Nfilter mode wired)).
  { unfold main_with, analysis, draw_examples, draw_example, draw_cost_graphs,
      cost_maps, draw_cost_map, load_best, audit, audit_pair, movie, movie_step,
      render_pads.
    one_only. }
  assert (Hleave : leaves_main (main_with ext M Nfilter mode wired)).
  { unfold main_with, analysis. cbv zeta.
    repeat (apply leaves_main_bind; intros).
    intros ? ?. discriminate. }
  specialize (Hone st). specialize (Hleave st).
  destruct (fst (main_with ext M Nfilter mode wired st)) as [a | | code |].
  - now destruct (Hleave a).
  - now right.
  - left. now rewrite Hone.
  - contradiction.
Qed.

(** ** What the scan records (lines 124-151) *)

Lemma filter_points_all ext (filterLog : list Mat) : forall n lo xy st,
  0 <= lo -> lo + Z.of_nat n <= Z.of_nat (length filterLog) ->
  lo + Z.of_nat n <= UINT_MOD ->
  for_range lo n (filter_point ext filterLog) xy st
  = (Normal (xy ++ ((fun f => (as_scalar_row ext f 0, as_scalar_row ext f 1))
                      <$> take n (drop (Z.to_nat lo) filterLog)))%list, st).
Proof.
  induction n as [| n IH]; intros lo xy st Hlo Hn Hu.
  - simpl. now rewrite List.app_nil_r.
  - rewrite for_range_S. unfold filter_point at 1.
    destruct (lookup_lt_is_Some_2 filterLog (Z.to_nat lo) ltac:(lia)) as [f Hf].
    pose proof UINT_below_SIZE as HU.
    pose proof (vector_at_in_range filterLog lo f st ltac:(lia) Hf) as Hat.
    unfold bind at 1. unfold bind at 1. rewrite Hat.
    unfold bind at 1. rewrite Hat. unfold ret at 1.
    rewrite IH by lia.
    rewrite (drop_S filterLog f (Z.to_nat lo) Hf).
    replace (Z.to_nat (lo + 1)) with (S (Z.to_nat lo)) by lia.
    cbn [take]. rewrite fmap_cons, <- List.app_assoc. reflexivity.
Qed.

Section Records.

Variable ext : Collaborators.
Variable M : Z.
Variable project : string.

(** One round of the loop on a run with two costs at least, with what it
    leaves in the variables. *)
Lemma scan_body_records (v : ScanVars) (st : State) (n : Z) :
  sv_snap v = mkSnapshot (pattern_of project) n ->
  1 <= n <= M ->
  length (sv_costGraphs v) = Z.to_nat M ->
  length (sv_filterGraphs v) = Z.to_nat M ->
  let w := load_result (disk st) (snapshot_path project n) (wavenet st) in
  let st1 := mkState (EnginePrint :: EngineLoad (snapshot_path project n) :: calls st)
                     (disk st) w in
  short_logb w = false ->
  exists v',
    scan_body ext v st = (Normal v', st1) /\
    sv_snap v' = mkSnapshot (pattern_of project) (n + 1) /\
    sv_costGraphs v'
    = <[Z.to_nat (usize (n - 1)) := costGraph ext (w_costLog w)]> (sv_costGraphs v) /\
    sv_filterGraphs v'
    = <[Z.to_nat (usize (n - 1)) := filter_graph ext (w_filterLog w)]> (sv_filterGraphs v) /\
    sv_longestCost v' = longest_step (sv_longestCost v) w.
Proof.
  intros Hsnap Hn Hcg Hfg w st1 Hshort.
  unfold scan_body. rewrite Hsnap. cbn [snap_number].
  change (Snapshot_file (mkSnapshot (pattern_of project) n))
    with (snapshot_path project n).
  set (st0 := mkState (EngineLoad (snapshot_path project n) :: calls st) (disk st) w).
  rewrite (bind_normal (wavenet_load (snapshot_path project n)) _ st tt st0 eq_refl).
  rewrite (bind_normal (emit EnginePrint) _ st0 tt st1 eq_refl).
  rewrite (bind_normal get_wavenet _ st1 w st1 eq_refl).
  cbv zeta.
  assert (Hidx : usize (n - 1) < Z.of_nat (length (sv_costGraphs v)))
    by (pose proof (usize_le (n - 1) ltac:(lia)); lia).
  rewrite (bind_normal _ _ _ _ _ (vector_at_put_lt _ _ _ st1 Hidx)).
  set (cg := <[Z.to_nat (usize (n - 1)) := costGraph ext (w_costLog w)]> (sv_costGraphs v)).
  assert (Hcg' : length cg = Z.to_nat M) by (subst cg; now rewrite length_insert).
  assert (Hidx' : usize (n - 1) < Z.of_nat (length cg)) by (rewrite Hcg', <- Hcg; exact Hidx).
  destruct (vector_at_lt cg (n - 1) st1 Hidx') as (g & Hg & _).
  rewrite (bind_normal _ _ _ _ _ Hg).
  rewrite (bind_normal _ _ _ _ _ Hg).
  apply short_logb_false in Hshort. unfold short_log in Hshort.
  set (size := Z.of_nat (length (w_costLog w))).
  assert (Hsz : usize (size - 2) < Z.of_nat (length (w_costLog w)))
    by (pose proof (usize_le (size - 2) ltac:(lia)); lia).
  destruct (vector_at_lt (w_costLog w) (size - 2) st1 Hsz) as (c & Hc & Hlook).
  rewrite (bind_normal _ _ _ _ _ Hc).
  assert (Hbest :
            exists best,
              (if decide (c < sv_minCost v)%Qc
               then bind (vector_at (w_costLog w) (size - 2)) (fun c' => ret (n - 1, c'))
               else ret (sv_bestBasis v, sv_minCost v)) st1
              = (Normal best, st1)).
  { destruct (decide (c < sv_minCost v)%Qc); [| eexists; reflexivity].
    eexists. now rewrite (bind_normal _ _ _ _ _ Hc). }
  destruct Hbest as (best & Hbest).
  rewrite (bind_normal _ _ _ _ _ Hbest).
  pose proof (u32_le (Z.of_nat (length (w_filterLog w))) ltac:(lia)) as Hu.
  assert (Hub : u32 (Z.of_nat (length (w_filterLog w))) < UINT_MOD)
    by (apply Z.mod_pos_bound; reflexivity).
  rewrite (bind_normal _ _ _ _ _
             (filter_points_all ext (w_filterLog w)
                (Z.to_nat (u32 (Z.of_nat (length (w_filterLog w))))) 0 [] st1
                ltac:(lia) ltac:(lia) ltac:(lia))).
  assert (Hidx2 : usize (n - 1) < Z.of_nat (length (sv_filterGraphs v)))
    by (rewrite Hfg, <- Hcg; exact Hidx).
  rewrite (bind_normal _ _ _ _ _ (vector_at_put_lt _ _ _ st1 Hidx2)).
  eexists. split; [reflexivity |].
  cbn [sv_snap sv_costGraphs sv_filterGraphs sv_longestCost].
  repeat split.
Qed.

Lemma scan_loop_records : forall (fuel : nat) (v : ScanVars) (st : State) (n : Z),
  sv_snap v = mkSnapshot (pattern_of project) n ->
  1 <= n ->
  Z.max 0 (M + 1 - n) < Z.of_nat fuel ->
  length (sv_costGraphs v) = Z.to_nat M ->
  length (sv_filterGraphs v) = Z.to_nat M ->
  let idxs := scan_indices (disk st) project M n in
  let runs := scanned_runs (disk st) project (wavenet st) idxs in
  Forall (fun w => ~ short_log w) runs ->
  exists v' st',
    scan_loop ext M fuel v st = (Normal v', st') /\
    sv_costGraphs v'
    = record_graphs (fun w => costGraph ext (w_costLog w)) (sv_costGraphs v) idxs runs /\
    sv_filterGraphs v'
    = record_graphs (fun w => filter_graph ext (w_filterLog w)) (sv_filterGraphs v) idxs runs /\
    sv_longestCost v' = foldl longest_step (sv_longestCost v) runs.
Proof.
  induction fuel as [| fuel IH]; intros v st n Hsnap Hn Hfuel Hcg Hfg; [simpl in Hfuel; lia |].
  cbv zeta. rewrite scan_indices_unfold.
  cbn [scan_loop].
  assert (Hex : Snapshot_exists (sv_snap v) st = (Normal (present (disk st) project n), st))
    by (rewrite Hsnap; reflexivity).
  rewrite (bind_normal _ _ _ _ _ Hex). rewrite Hsnap. cbn [snap_number].
  destruct (present (disk st) project n && bool_decide (n <= M)) eqn:Hgo.
  - apply andb_prop in Hgo as [_ HnM]. apply bool_decide_eq_true_1 in HnM.
    cbn [scanned_runs]. intros Hlong. apply Forall_cons in Hlong as [Hw Hlong].
    apply short_logb_false in Hw.
    destruct (scan_body_records v st n Hsnap ltac:(lia) Hcg Hfg Hw)
      as (v1 & Hrun & Hsnap1 & Hcg1 & Hfg1 & Hlc1).
    rewrite (bind_normal _ _ _ _ _ Hrun).
    match type of Hrun with _ = (_, ?s) => set (st1 := s) in * end.
    destruct (IH v1 st1 (n + 1) Hsnap1 ltac:(lia) ltac:(lia)
                ltac:(rewrite Hcg1, length_insert; exact Hcg)
                ltac:(rewrite Hfg1, length_insert; exact Hfg) Hlong)
      as (v2 & st2 & Hloop & Hcg2 & Hfg2 & Hlc2).
    exists v2, st2. split; [exact Hloop |].
    cbn [record_graphs foldl]. rewrite Hcg2, Hfg2, Hlc2, Hcg1, Hfg1, Hlc1.
    repeat split.
  - intros _. exists v, st. repeat split.
Qed.

End Records.

Lemma record_graphs_lookup (graph : Wavenet -> TGraph) :
  forall (idxs : list Z) (runs : list Wavenet) (graphs : list TGraph) (n0 : Z),
    idxs = seqZ n0 (Z.of_nat (length idxs)) ->
    1 <= n0 -> n0 + Z.of_nat (length idxs) - 1 <= Z.of_nat (length graphs) ->
    Z.of_nat (length graphs) < SIZE_MOD ->
    length runs = length idxs ->
    (forall q w, runs !! q = Some w ->
       record_graphs graph graphs idxs runs !! (Z.to_nat (n0 - 1) + q)%nat = Some (graph w)) /\
    (forall p, (p < Z.to_nat (n0 - 1) \/ Z.to_nat (n0 - 1) + length idxs <= p)%nat ->
       record_graphs graph graphs idxs runs !! p = graphs !! p).
Proof.
  induction idxs as [| n idxs IH]; intros runs graphs n0 Hseq Hn0 Hlen Hsize Hruns.
  - destruct runs; [| discriminate]. split; [intros q w Hq; discriminate Hq | reflexivity].
  - destruct runs as [| w runs]; [discriminate |]. injection Hruns as Hruns.
    cbn [length] in Hseq, Hlen. rewrite seqZ_S_head in Hseq.
    injection Hseq as Hnn Hseq. subst n0.
    cbn [record_graphs].
    assert (Hu : usize (n - 1) = n - 1) by (unfold usize; apply Z.mod_small; lia).
    rewrite Hu.
    set (graphs' := <[Z.to_nat (n - 1) := graph w]> graphs).
    destruct (IH runs graphs' (n + 1) Hseq ltac:(lia)
                ltac:(subst graphs'; rewrite length_insert; lia)
                ltac:(subst graphs'; rewrite length_insert; lia) Hruns)
      as (IHa & IHb).
    split.
    + intros q w' Hq. destruct q as [| q].
      * injection Hq as <-. rewrite Nat.add_0_r.
        rewrite IHb by lia. subst graphs'. apply list_lookup_insert_eq. lia.
      * replace (Z.to_nat (n - 1) + S q)%nat with (Z.to_nat (n + 1 - 1) + q)%nat by lia.
        now apply IHa.
    + intros p Hp. cbn [length] in Hp.
      rewrite IHb by lia. subst graphs'. apply list_lookup_insert_ne. lia.
Qed.

Lemma longest_fold (runs : list Wavenet) : forall (longest : nat),
  Forall (fun w => Z.of_nat (length (w_costLog w)) < UINT_MOD) runs ->
  foldl longest_step (Z.of_nat longest) runs
  = Z.of_nat (Nat.max longest (max_list ((fun w => length (w_costLog w)) <$> runs))).
Proof.
  induction runs as [| w runs IH]; intros longest Hall; [simpl; f_equal; lia |].
  apply Forall_cons in Hall as [Hw Hall]. cbn [foldl fmap list_fmap max_list].
  unfold longest_step at 2. cbv zeta.
  destruct (decide (Z.of_nat longest < Z.of_nat (length (w_costLog w)))).
  - rewrite u32_small by lia. rewrite IH by exact Hall. f_equal. unfold id. lia.
  - rewrite IH by exact Hall. f_equal. unfold id. lia.
Qed.

(** X15. When every scanned run has two costs at least, the scan ends
    with the graphs of the runs in place: position [p] of [costGraphs]
    holds the cost graph of scanned run [p + 1] and position [p] of
    [filterGraphs] the points of its filter log, the positions of the
    snapshots not scanned hold empty graphs, and [longestCost] is the
    length of the longest cost log scanned. *)
Theorem scan_records_graphs (ext : Collaborators) (M : Z) (project : string) (st : State) :
  0 <= M < UINT_MOD ->
  let idxs := scan_indices (disk st) project M 1 in
  let runs := scanned_runs (disk st) project (wavenet st) idxs in
  Forall (fun w => ~ short_log w) runs ->
  Forall (fun w => Z.of_nat (length (w_costLog w)) < UINT_MOD) runs ->
  exists v,
    fst (scan ext M project st) = Normal v /\
    (forall p w, runs !! p = Some w ->
       sv_costGraphs v !! p = Some (costGraph ext (w_costLog w)) /\
       sv_filterGraphs v !! p = Some (filter_graph ext (w_filterLog w))) /\
    (forall p, (length runs <= p < Z.to_nat M)%nat ->
       sv_costGraphs v !! p = Some [] /\ sv_filterGraphs v !! p = Some []) /\
    sv_longestCost v = Z.of_nat (max_list ((fun w => length (w_costLog w)) <$> runs)).
Proof.
  intros HM idxs runs Hlong Hsizes.
  destruct (scan_loop_records ext M project (S (Z.to_nat M)) (scan_init M project) st 1
              eq_refl ltac:(lia) ltac:(lia)
              (length_replicate _ _) (length_replicate _ _) Hlong)
    as (v & st' & Hrun & Hcg & Hfg & Hlc).
  fold idxs in Hcg, Hfg. fold runs in Hcg, Hfg, Hlc.
  exists v. unfold scan. rewrite Hrun. split; [reflexivity |].
  destruct (scan_indices_spec (disk st) project M) as (Heq & HkM & _).
  fold idxs in Heq, HkM.
  assert (Hlen : length runs = length idxs) by apply scanned_runs_length.
  pose proof UINT_below_SIZE as HU.
  cbn [scan_init sv_costGraphs sv_filterGraphs sv_longestCost] in Hcg, Hfg, Hlc.
  destruct (record_graphs_lookup (fun w => costGraph ext (w_costLog w)) idxs runs
              (replicate (Z.to_nat M) []) 1 Heq ltac:(lia)
              ltac:(rewrite length_replicate; lia) ltac:(rewrite length_replicate; lia) Hlen) as (Ca & Cb).
  destruct (record_graphs_lookup (fun w => filter_graph ext (w_filterLog w)) idxs runs
              (replicate (Z.to_nat M) []) 1 Heq ltac:(lia)
              ltac:(rewrite length_replicate; lia) ltac:(rewrite length_replicate; lia) Hlen) as (Fa & Fb).
  split; [| split].
  - intros p w Hw. rewrite Hcg, Hfg.
    specialize (Ca p w Hw). specialize (Fa p w Hw). simpl in Ca, Fa. now split.
  - intros p Hp. rewrite Hcg, Hfg, Cb, Fb by (simpl; lia).
    rewrite lookup_replicate_2 by lia. now split.
  - rewrite Hlc. change 0 with (Z.of_nat 0). rewrite longest_fold by exact Hsizes.
    f_equal.
Qed.

Lemma scan_records_graphs_witness :
  let project := "Run.Needle.N4" in
  let st := initial_state (Samples.snapshots project [Samples.run 5; Samples.run 3])
                          Samples.fresh in
  exists v,
    fst (scan Samples.collaborators 5 project st) = Normal v /\
    sv_costGraphs v !! 1%nat
    = Some (costGraph Samples.collaborators (w_costLog (Samples.run 3))) /\
    sv_costGraphs v !! 2%nat = Some [] /\
    sv_longestCost v = 3.
Proof.
  intros project st.
  assert (Hruns : scanned_runs (disk st) project (wavenet st)
                               (scan_indices (disk st) project 5 1)
                  = [Samples.run 5; Samples.run 3]) by (vm_compute; reflexivity).
  destruct (scan_records_graphs Samples.collaborators 5 project st) as (v & Hv & Hin & Hout & Hl).
  - split; [lia | reflexivity].
  - rewrite Hruns. repeat (apply Forall_cons; split; [unfold short_log; simpl; lia |]).
    apply Forall_nil. exact I.
  - rewrite Hruns. repeat (apply Forall_cons; split; [reflexivity |]).
    apply Forall_nil. exact I.
  - exists v. split; [exact Hv |]. rewrite Hruns in Hin, Hout, Hl.
    split; [exact (proj1 (Hin 1%nat (Samples.run 3) eq_refl)) |].
    split; [exact (proj1 (Hout 2%nat ltac:(simpl; lia))) | exact Hl].
Defined.

(** ** The audit, counted (lines 327-336) *)

Lemma filter_bind_length {A} (p : event -> bool) (f : A -> list event) (c : nat) :
  (forall x, length (List.filter p (f x)) = c) ->
  forall l : list A, length (List.filter p (l ≫= f)) = (length l * c)%nat.
Proof.
  intros Hf. induction l as [| x l IH]; [reflexivity |].
  rewrite bind_cons, List.filter_app, List.length_app, Hf, IH. simpl. lia.
Qed.

(** X16. The audit synthesizes at pixels of the shape only: every row it
    asks for lies in [[0, W)] and every column in [[0, H)].  It fills the
    histogram [W * W * H * H] times and synthesizes twice as often. *)
Theorem audit_stays_in_shape (ext : Collaborators) (project : string) (W H : Z)
        (st : State) :
  0 <= W < 65536 -> 0 <= H < 65536 ->
  exists l,
    trace (snd (audit ext project W H st))
    = (trace st ++ l ++ [CanvasSaveAs (outdir_of project ++ "NormDistributions.pdf")])%list /\
    Forall (in_shape W H) l /\
    Z.of_nat (length (List.filter is_fill l)) = W * W * (H * H) /\
    Z.of_nat (length (List.filter synthesizes l)) = 2 * (W * W * (H * H)).
Proof.
  intros HW HH.
  exists (i ← seqZ 0 (W * W); j ← seqZ 0 (H * H); audit_calls ext (wavenet st) W H i j).
  split; [| split; [| split]].
  - rewrite (audit_emits ext (wavenet st) project W H HW HH st eq_refl). cbn [snd].
    rewrite trace_calls_app, reverse_involutive. reflexivity.
  - apply Forall_bind, Forall_forall. intros i Hi. apply elem_of_seqZ in Hi.
    apply Forall_bind, Forall_forall. intros j Hj. apply elem_of_seqZ in Hj.
    assert (0 < W) by nia. assert (0 < H) by nia.
    assert (Hr : 0 <= i mod W < W) by (apply Z.mod_pos_bound; lia).
    assert (Hc : 0 <= j / H < H).
    { split; [apply Z.div_pos; lia | apply Z.div_lt_upper_bound; lia]. }
    unfold audit_calls.
    repeat (apply List.Forall_cons; [cbn; tauto |]). apply List.Forall_nil.
  - rewrite (filter_bind_length is_fill _ (Z.to_nat (H * H) * 1)).
    + rewrite length_seqZ. nia.
    + intros i. rewrite (filter_bind_length is_fill _ 1); [now rewrite length_seqZ |].
      reflexivity.
  - rewrite (filter_bind_length synthesizes _ (Z.to_nat (H * H) * 2)).
    + rewrite length_seqZ. nia.
    + intros i. rewrite (filter_bind_length synthesizes _ 2); [now rewrite length_seqZ |].
      reflexivity.
Qed.

Lemma audit_stays_in_shape_witness :
  exists l,
    trace (snd (audit Samples.collaborators "Run.Needle.N4" 2 3
                      (initial_state ∅ Samples.fresh)))
    = (l ++ [CanvasSaveAs "./output/Run.Needle.N4/NormDistributions.pdf"])%list /\
    Forall (in_shape 2 3) l /\
    Z.of_nat (length (List.filter is_fill l)) = 36.
Proof.
  destruct (audit_stays_in_shape Samples.collaborators "Run.Needle.N4" 2 3
              (initial_state ∅ Samples.fresh) ltac:(lia) ltac:(lia))
    as (l & Ht & Hin & Hfill & _).
  exists l. split; [exact Ht |]. split; [exact Hin | exact Hfill].
Defined.

(** ** The movie, counted (lines 373-410) *)

Lemma rank_all N : forall (k : nat),
  (forall j, 0 <= j < Z.of_nat k -> retained N j = true) ->
  rank N (Z.of_nat k) = Z.of_nat k.
Proof.
  induction k as [| k IH]; intros Hall; [reflexivity |].
  rewrite Nat2Z.inj_succ, <- Z.add_1_r, rank_succ by lia.
  rewrite IH by (intros j Hj; apply Hall; lia).
  rewrite Hall by lia. reflexivity.
Qed.

Lemma retained_short N i : N <= 201 -> 0 <= i < N -> retained N i = true.
Proof.
  intros HN Hi. unfold retained. apply bool_decide_eq_true_2.
  destruct (decide (i = 100)) as [-> | Hne]; [right; right; reflexivity |].
  lia.
Qed.

Lemma bind_ext_in {A B} (f g : A -> list B) (l : list A) :
  (forall x, x ∈ l -> f x = g x) -> l ≫= f = l ≫= g.
Proof.
  induction l as [| x l IH]; intros H; [reflexivity |].
  rewrite !bind_cons, (H x) by constructor. f_equal.
  apply IH. intros y Hy. apply H. now constructor.
Qed.

(** The movie on an engine whose filter log has [N] states. *)
Lemma movie_run (project : string) (W H : Z) (st : State) :
  let N := Z.of_nat (length (w_filterLog (wavenet st))) in
  N < UINT_MOD ->
  exists st',
    movie project W H st = (Normal (rank N N), st') /\
    trace st' = (trace st ++ (i ← seqZ 0 N; movie_calls project W H N i))%list /\
    disk st' = disk st.
Proof.
  intros N HN. unfold movie.
  rewrite (bind_normal get_wavenet _ st (wavenet st) st eq_refl).
  fold N. rewrite (u32_small N) by lia.
  destruct (movie_loop_run project W H (w_filterLog (wavenet st)) HN
              (Z.to_nat N) 0 st ltac:(lia) ltac:(lia) eq_refl)
    as (st' & Hrun & Hc & Hd).
  fold N in Hrun, Hc. change (rank N 0) with 0 in Hrun.
  exists st'. split; [exact Hrun |]. split; [| exact Hd].
  rewrite (trace_after st st' _ Hc). now rewrite Z2Nat.id by lia.
Qed.

(** X17. A filter log of at most 201 states is rendered in full: every
    state gets its frame, and the frame of state [i] carries the number
    [i]. *)
Theorem movie_renders_short_logs_in_full (project : string) (W H : Z) (st : State) :
  let N := Z.of_nat (length (w_filterLog (wavenet st))) in
  N <= 201 ->
  let out := movie project W H st in
  fst out = Normal N /\
  trace (snd out)
  = (trace st
     ++ (i ← seqZ 0 N;
         SetFilter i :: frame_pixels W H
         ++ [CanvasSaveAs (frame_path (outdir_of project) i)]))%list.
Proof.
  intros N HN out. subst out.
  destruct (movie_run project W H st) as (st' & Hrun & Ht & _);
    [fold N; unfold UINT_MOD; lia |].
  fold N in Hrun, Ht. rewrite Hrun. cbn [fst snd].
  assert (Hrank : forall i, 0 <= i <= N -> rank N i = i).
  { intros i Hi. rewrite <- (Z2Nat.id i) by lia. apply rank_all.
    intros j Hj. apply retained_short; lia. }
  split; [now rewrite Hrank by lia |].
  rewrite Ht. f_equal. apply bind_ext_in. intros i Hi. apply elem_of_seqZ in Hi.
  unfold movie_calls. rewrite retained_short by lia. now rewrite Hrank by lia.
Qed.

Lemma movie_renders_short_logs_in_full_witness :
  let st := initial_state ∅ (Samples.run 1) in
  let out := movie "Run.Needle.N4" 1 1 st in
  fst out = Normal 3 /\
  trace (snd out)
  = [SetFilter 0; BasisFunction 1 1 0 0;
     CanvasSaveAs "./output/Run.Needle.N4/movie/bestBasis_000000.png";
     SetFilter 1; BasisFunction 1 1 0 0;
     CanvasSaveAs "./output/Run.Needle.N4/movie/bestBasis_000001.png";
     SetFilter 2; BasisFunction 1 1 0 0;
     CanvasSaveAs "./output/Run.Needle.N4/movie/bestBasis_000002.png"].
Proof.
  intros st out.
  exact (movie_renders_short_logs_in_full "Run.Needle.N4" 1 1 st ltac:(simpl; lia)).
Defined.

Lemma retained_middle N i :
  100 <= i < N - 100 -> retained N i = bool_decide (i mod 4 = 0).
Proof.
  intros Hi. unfold retained. apply bool_decide_ext. lia.
Qed.

Lemma rank_middle N : forall (k : nat),
  100 + Z.of_nat k <= N - 100 ->
  rank N (100 + Z.of_nat k) = 100 + (Z.of_nat k + 3) / 4.
Proof.
  induction k as [| k IH]; intros Hk.
  - rewrite Z.add_0_r. change ((Z.of_nat 0 + 3) / 4) with 0. rewrite Z.add_0_r.
    apply (rank_all N 100). intros j Hj. unfold retained.
    apply bool_decide_eq_true_2. lia.
  - replace (100 + Z.of_nat (S k)) with (100 + Z.of_nat k + 1) by lia.
    rewrite rank_succ by lia. rewrite IH by lia.
    rewrite retained_middle by lia.
    destruct (bool_decide (((100 + Z.of_nat k) mod 4) = 0)) eqn:E.
    + apply bool_decide_eq_true_1 in E. Z.div_mod_to_equations. lia.
    + apply bool_decide_eq_false_1 in E. Z.div_mod_to_equations. lia.
Qed.

Lemma rank_tail N : forall (k : nat),
  0 <= N - 100 -> Z.of_nat k <= 100 ->
  rank N (N - 100 + Z.of_nat k) = rank N (N - 100) + Z.of_nat k.
Proof.
  induction k as [| k IH]; intros HN Hk; [now rewrite !Z.add_0_r |].
  replace (N - 100 + Z.of_nat (S k)) with (N - 100 + Z.of_nat k + 1) by lia.
  rewrite rank_succ by lia. rewrite IH by lia.
  unfold retained. rewrite bool_decide_eq_true_2 by lia. lia.
Qed.

(** X18. Of a filter log of [N >= 200] states the movie has
    [200 + (N - 197) / 4] frames: the first hundred states, the last
    hundred, and every fourth of those between. *)
Theorem movie_frame_count (project : string) (W H : Z) (st : State) :
  let N := Z.of_nat (length (w_filterLog (wavenet st))) in
  200 <= N < UINT_MOD ->
  fst (movie project W H st) = Normal (200 + (N - 197) / 4).
Proof.
  intros N HN.
  destruct (movie_run project W H st) as (st' & Hrun & _); [fold N; lia |].
  fold N in Hrun. rewrite Hrun. cbn [fst]. f_equal.
  assert (E1 : rank N N = rank N (N - 100) + 100).
  { pose proof (rank_tail N 100 ltac:(lia) ltac:(lia)) as E.
    replace (N - 100 + Z.of_nat 100) with N in E by lia. lia. }
  assert (E2 : rank N (N - 100) = 100 + (N - 200 + 3) / 4).
  { pose proof (rank_middle N (Z.to_nat (N - 200)) ltac:(lia)) as E.
    rewrite Z2Nat.id in E by lia.
    replace (100 + (N - 200)) with (N - 100) in E by lia. exact E. }
  rewrite E1, E2. Z.div_mod_to_equations. lia.
Qed.

Lemma movie_frame_count_witness :
  let log := replicate 205 [[Q2Qc 1]] in
  fst (movie "Run.Needle.N4" 1 1 (initial_state ∅ (mkWavenet [] log []))) = Normal 202.
Proof.
  intros log.
  exact (movie_frame_count "Run.Needle.N4" 1 1 (initial_state ∅ (mkWavenet [] log []))
           ltac:(split; [simpl; lia | reflexivity])).
Defined.

(** ** The stages of [main] from the scan on (lines 108-449) *)

Lemma cost_maps_run (ext : Collaborators) (project : string) (examples : list Mat)
      (st : State) :
  exists r st',
    cost_maps ext project examples st = (Normal r, st') /\
    calls st' = (reverse (cost_map_calls (disk st) project) ++ calls st)%list /\
    wavenet st' = wavenet st /\
    (forall path, path ∉ cache_names project -> disk st' !! path = disk st !! path).
Proof.
  unfold cost_maps, bind, fileExists, cost_map_calls.
  destruct (bool_decide (is_Some (disk st !! costMapName project))); cbn [negb].
  - eexists _, _. split; [reflexivity |]. cbn [calls wavenet disk mat_load emit].
    split; [reflexivity |]. split; [reflexivity |]. reflexivity.
  - eexists _, _. split; [reflexivity |]. cbn [calls wavenet disk].
    split; [reflexivity |]. split; [reflexivity |].
    intros path Hp. unfold cache_names in Hp.
    rewrite !elem_of_cons, elem_of_nil in Hp.
    rewrite !lookup_insert_ne by (intros E; apply Hp; rewrite E; tauto).
    reflexivity.
Qed.

(** From the scan to [return 1], when no scanned cost log is short. *)
Lemma analysis_run (ext : Collaborators) (M : Z) (project : string)
      (generator : Generator) (examples : list Mat) (st : State) :
  0 <= M < UINT_MOD ->
  let idxs := scan_indices (disk st) project M 1 in
  let runs := scanned_runs (disk st) project (wavenet st) idxs in
  Forall (fun w => ~ short_log w) runs ->
  let path := snapshot_path project (best_index idxs runs + 1) in
  path ∉ cache_names project ->
  let w := load_result (disk st) path (default (wavenet st) (last runs)) in
  Z.of_nat (length (w_filterLog w)) < UINT_MOD ->
  let W := shape_at generator 0 in
  let H := shape_at generator 1 in
  exists st',
    analysis ext M project generator examples st = (Returned 1, st') /\
    trace st'
    = (trace st
       ++ (idxs ≫= scan_calls project)
       ++ [CanvasSaveAs (outdir_of project ++ "CostGraph.pdf")]
       ++ cost_map_calls (disk st) project
       ++ [CanvasSaveAs (outdir_of project ++ "CostMap.pdf"); EngineLoad path]
       ++ audit_trace ext project w W H
       ++ movie_trace project w W H)%list.
Proof.
  intros HM idxs runs Hlong path Hpath w Hfl W H.
  pose proof (scan_run ext M project st) as Hscan. cbv zeta in Hscan.
  fold idxs in Hscan. fold runs in Hscan.
  rewrite (first_short_None runs Hlong) in Hscan.
  destruct Hscan as (v & Hscan & Hsel & Hsnap & Hcg & Hfg).
  assert (Hbest : sv_bestBasis v = best_index idxs runs).
  { unfold best_index. now rewrite <- Hsel. }
  set (st2 := mkState (reverse (idxs ≫= scan_calls project) ++ calls st)%list
                      (disk st) (default (wavenet st) (last runs))) in *.
  pose proof (draw_cost_graphs_emits M project HM (wavenet st2) v Hcg st2 eq_refl) as Hdcg.
  set (st3 := mkState _ _ _) in Hdcg.
  destruct (cost_maps_run ext project examples st3)
    as (r & st4 & Hcm & Hcalls4 & Hw4 & Hdisk4).
  pose proof (draw_cost_map_emits M project HM (wavenet st4) v Hfg st4 eq_refl) as Hdcm.
  set (st5 := mkState _ _ _) in Hdcm.
  assert (Hw6 : load_result (disk st5) path (wavenet st5) = w).
  { subst w. unfold load_result.
    change (disk st5) with (disk st4). rewrite (Hdisk4 path Hpath).
    change (wavenet st5) with (wavenet st4). rewrite Hw4. reflexivity. }
  set (st6 := mkState (EngineLoad path :: calls st5) (disk st5) w).
  assert (Hload : load_best v st5 = (Normal tt, st6)).
  { unfold load_best. rewrite Hsnap. unfold Snapshot_setNumber. cbn [snap_pattern].
    rewrite Hbest. unfold wavenet_load. fold (snapshot_path project (best_index idxs runs + 1)).
    fold path. subst st6. f_equal. f_equal. exact Hw6. }
  pose proof (audit_emits_any ext project (wavenet st6) W H st6 eq_refl) as Haudit.
  set (st7 := mkState _ _ _) in Haudit.
  destruct (movie_loop_run project W H (w_filterLog w) Hfl
              (Z.to_nat (Z.of_nat (length (w_filterLog w)))) 0 st7
              ltac:(lia) ltac:(lia) eq_refl)
    as (st8 & Hmovie & Hcalls8 & _).
  assert (Hmov : movie project W H st7
                 = (Normal (rank (Z.of_nat (length (w_filterLog w)))
                                 (Z.of_nat (length (w_filterLog w)))), st8)).
  { unfold movie. rewrite (bind_normal get_wavenet _ st7 w st7 eq_refl).
    cbv zeta. rewrite (u32_small (Z.of_nat (length (w_filterLog w)))) by lia.
    exact Hmovie. }
  exists st8. split.
  - unfold analysis.
    rewrite (bind_normal _ _ _ _ _ Hscan).
    rewrite (bind_normal _ _ _ _ _ Hdcg).
    rewrite (bind_normal _ _ _ _ _ Hcm).
    rewrite (bind_normal _ _ _ _ _ Hdcm).
    rewrite (bind_normal _ _ _ _ _ Hload).
    cbv zeta. fold W H.
    rewrite (bind_normal _ _ _ _ _ Haudit).
    rewrite (bind_normal _ _ _ _ _ Hmov).
    reflexivity.
  - rewrite (trace_after st7 st8 _ Hcalls8).
    rewrite (trace_after st6 st7 _ eq_refl).
    change (trace st6) with (trace (mkState (EngineLoad path :: calls st5) (disk st5) w)).
    rewrite trace_emitted.
    change (trace (mkState (calls st5) (disk st5) w)) with (trace st5).
    rewrite (trace_after st4 st5 _ eq_refl).
    rewrite (trace_after st3 st4 _ Hcalls4).
    rewrite (trace_after st2 st3 _ eq_refl).
    rewrite (trace_after st st2 _ eq_refl).
    unfold audit_trace, movie_trace. cbv zeta.
    rewrite Z2Nat.id by lia.
    rewrite <- !List.app_assoc. reflexivity.
Qed.

(** X19. From the scan on, when no scanned cost log is short, [main] goes
    through its stages in this order and returns 1: the scan of the
    snapshots, the canvas of the cost graphs, the cost maps (read back or
    swept and saved), the canvas of the cost map, the reload of snapshot
    [bestBasis + 1], the audit and the movie, both on the engine that
    reload leaves.  [bestBasis] is the selection of the scan, whether or
    not any cost lay below the starting bound. *)
Theorem analysis_stages (ext : Collaborators) (M : Z) (mode : GeneratorMode)
        (Nfilter : Z) (generator : Generator) (examples : list Mat) (st : State) :
  let project := project_of mode Nfilter in
  0 <= M < UINT_MOD ->
  let idxs := scan_indices (disk st) project M 1 in
  let runs := scanned_runs (disk st) project (wavenet st) idxs in
  Forall (fun w => ~ short_log w) runs ->
  let path := snapshot_path project (best_index idxs runs + 1) in
  let w := load_result (disk st) path (default (wavenet st) (last runs)) in
  Z.of_nat (length (w_filterLog w)) < UINT_MOD ->
  let W := shape_at generator 0 in
  let H := shape_at generator 1 in
  let out := analysis ext M project generator examples st in
  fst out = Returned 1 /\
  trace (snd out)
  = (trace st
     ++ (idxs ≫= scan_calls project)
     ++ [CanvasSaveAs (outdir_of project ++ "CostGraph.pdf")]
     ++ cost_map_calls (disk st) project
     ++ [CanvasSaveAs (outdir_of project ++ "CostMap.pdf"); EngineLoad path]
     ++ audit_trace ext project w W H
     ++ movie_trace project w W H)%list.
Proof.
  intros project HM idxs runs Hlong path w Hfl W H out.
  assert (Hpath : path ∉ cache_names project).
  { destruct (snapshot_path_not_cache mode Nfilter (best_index idxs runs + 1))
      as (H1 & H2 & H3).
    unfold cache_names. rewrite !elem_of_cons, elem_of_nil. tauto. }
  destruct (analysis_run ext M project generator examples st HM Hlong Hpath Hfl)
    as (st' & Hrun & Ht).
  subst out. rewrite Hrun. split; [reflexivity | exact Ht].
Qed.

Lemma analysis_stages_witness :
  let project := project_of Needle 4 in
  let st := initial_state
              (Samples.snapshots project [Samples.run 200000; Samples.run 100000])
              Samples.fresh in
  let out := analysis Samples.collaborators 5 project (mkGenerator Needle true [1; 1]) [] st in
  fst out = Returned 1 /\
  List.filter loads_snapshot (trace (snd out))
  = [EngineLoad (snapshot_path project 1); EngineLoad (snapshot_path project 2);
     EngineLoad (snapshot_path project 1)].
Proof.
  intros project st out.
  assert (Hruns : scanned_runs (disk st) project (wavenet st)
                               (scan_indices (disk st) project 5 1)
                  = [Samples.run 200000; Samples.run 100000])
    by (vm_compute; reflexivity).
  destruct (analysis_stages Samples.collaborators 5 Needle 4
              (mkGenerator Needle true [1; 1]) [] st) as [Hret Ht].
  - split; [lia | reflexivity].
  - fold project. rewrite Hruns.
    repeat (apply List.Forall_cons; [unfold short_log; simpl; lia |]).
    apply List.Forall_nil.
  - vm_compute. reflexivity.
  - split; [exact Hret |]. fold project out in Ht. rewrite Ht. vm_compute. reflexivity.
Defined.

(** X20. The scan asks [snap.exists()] before every load; line 320 does
    not.  With no snapshot 1 on disk the scan loads nothing, the cost
    graphs and the cost maps are drawn, and [main] arrives at line 320
    with [bestBasis = 0] and calls [wavenet.load] at the path of
    snapshot 1, where there is still no file; up to that call the engine
    is as [main] found it. *)
Theorem missing_snapshot_is_loaded_unchecked (ext : Collaborators) (M : Z)
        (mode : GeneratorMode) (Nfilter : Z) (generator : Generator)
        (examples : list Mat) (st : State) :
  let project := project_of mode Nfilter in
  0 <= M < UINT_MOD ->
  disk st !! snapshot_path project 1 = None ->
  let W := shape_at generator 0 in
  let H := shape_at generator 1 in
  exists st5,
    analysis ext M project generator examples st
    = (wavenet_load (snapshot_path project 1) ;;
       audit ext project W H ;;
       _ <- movie project W H ;;
       return_from_main 1)%exec st5 /\
    trace st5
    = (trace st
       ++ [CanvasSaveAs (outdir_of project ++ "CostGraph.pdf")]
       ++ cost_map_calls (disk st) project
       ++ [CanvasSaveAs (outdir_of project ++ "CostMap.pdf")])%list /\
    disk st5 !! snapshot_path project 1 = None /\
    wavenet st5 = wavenet st.
Proof.
  intros project HM Hnone W H.
  assert (Hidxs : scan_indices (disk st) project M 1 = []).
  { rewrite scan_indices_unfold. unfold present. rewrite Hnone.
    rewrite bool_decide_eq_false_2 by (intros [x Hx]; discriminate Hx).
    reflexivity. }
  assert (Hpath : snapshot_path project 1 ∉ cache_names project).
  { destruct (snapshot_path_not_cache mode Nfilter 1) as (H1 & H2 & H3).
    unfold cache_names. rewrite !elem_of_cons, elem_of_nil. tauto. }
  pose proof (scan_run ext M project st) as Hscan. cbv zeta in Hscan.
  rewrite Hidxs in Hscan. cbn [scanned_runs first_short] in Hscan.
  destruct Hscan as (v & Hscan & Hsel & Hsnap & Hcg & Hfg).
  cbn [select length mbind last default] in Hscan, Hsel, Hsnap.
  injection Hsel as Hbest _.
  set (st2 := mkState _ _ _) in Hscan.
  pose proof (draw_cost_graphs_emits M project HM (wavenet st2) v Hcg st2 eq_refl) as Hdcg.
  set (st3 := mkState _ _ _) in Hdcg.
  destruct (cost_maps_run ext project examples st3)
    as (r & st4 & Hcm & Hcalls4 & Hw4 & Hdisk4).
  pose proof (draw_cost_map_emits M project HM (wavenet st4) v Hfg st4 eq_refl) as Hdcm.
  set (st5 := mkState _ _ _) in Hdcm.
  exists st5. split; [| split; [| split]].
  - unfold analysis.
    rewrite (bind_normal _ _ _ _ _ Hscan).
    rewrite (bind_normal _ _ _ _ _ Hdcg).
    rewrite (bind_normal _ _ _ _ _ Hcm).
    rewrite (bind_normal _ _ _ _ _ Hdcm).
    unfold load_best. rewrite Hsnap, Hbest. reflexivity.
  - rewrite (trace_after st4 st5 _ eq_refl).
    rewrite (trace_after st3 st4 _ Hcalls4).
    rewrite (trace_after st2 st3 _ eq_refl).
    rewrite (trace_after st st2 _ eq_refl).
    rewrite <- !List.app_assoc. reflexivity.
  - change (disk st5) with (disk st4). rewrite (Hdisk4 _ Hpath). exact Hnone.
  - change (wavenet st5) with (wavenet st4). rewrite Hw4. reflexivity.
Qed.

Lemma missing_snapshot_is_loaded_unchecked_witness :
  let project := project_of Needle 4 in
  let st := initial_state ∅ (Samples.run 1) in
  exists st5,
    analysis Samples.collaborators 5 project (mkGenerator Needle true [1; 1]) [] st
    = (wavenet_load (snapshot_path project 1) ;;
       audit Samples.collaborators project 1 1 ;;
       _ <- movie project 1 1 ;;
       return_from_main 1)%exec st5 /\
    List.filter loads_snapshot (trace st5) = [] /\
    disk st5 !! snapshot_path project 1 = None.
Proof.
  intros project st.
  destruct (missing_snapshot_is_loaded_unchecked Samples.collaborators 5 Needle 4
              (mkGenerator Needle true [1; 1]) [] st) as (st5 & Hrun & Ht & Hd & _).
  - split; [lia | reflexivity].
  - reflexivity.
  - exists st5. split; [exact Hrun |]. split; [| exact Hd].
    rewrite Ht. vm_compute. reflexivity.
Defined.

(** X21. When a scanned run has a cost log of fewer than two entries,
    [main] ends by the exception of [costLog.at] without having written
    anything since the scan began: no canvas, no matrix and no frame is
    saved, and the disk is as the scan found it. *)
Theorem short_cost_log_writes_nothing (ext : Collaborators) (M : Z) (project : string)
        (generator : Generator) (examples : list Mat) (st : State) :
  let idxs := scan_indices (disk st) project M 1 in
  let runs := scanned_runs (disk st) project (wavenet st) idxs in
  Exists short_log runs ->
  let out := analysis ext M project generator examples st in
  fst out = Thrown /\
  disk (snd out) = disk st /\
  exists l, trace (snd out) = (trace st ++ l)%list /\
            Forall (fun e => writes_file e = false) l.
Proof.
  intros idxs runs Hshort out.
  pose proof (scan_run ext M project st) as Hscan. cbv zeta in Hscan.
  fold idxs in Hscan. fold runs in Hscan.
  destruct (first_short_Some runs Hshort) as [p Hp]. rewrite Hp in Hscan.
  destruct Hscan as (wp & _ & Hscan).
  subst out. unfold analysis. rewrite (bind_thrown _ _ _ _ Hscan). cbn [fst snd disk].
  split; [reflexivity |]. split; [reflexivity |].
  exists (take (S p) idxs ≫= scan_calls project). split.
  - now apply trace_after.
  - apply Forall_bind, Forall_forall. intros n _. repeat constructor.
Qed.

Lemma short_cost_log_writes_nothing_witness :
  let project := project_of Needle 4 in
  let st := initial_state (Samples.snapshots project [Samples.run 1; Samples.fresh])
                          Samples.fresh in
  let out := analysis Samples.collaborators 5 project (mkGenerator Needle true [1; 1]) [] st in
  fst out = Thrown /\ disk (snd out) = disk st.
Proof.
  intros project st out.
  destruct (short_cost_log_writes_nothing Samples.collaborators 5 project
              (mkGenerator Needle true [1; 1]) [] st) as (Hret & Hd & _).
  - assert (Hruns : scanned_runs (disk st) project (wavenet st)
                                 (scan_indices (disk st) project 5 1)
                    = [Samples.run 1; Samples.fresh])
      by (vm_compute; reflexivity).
    rewrite Hruns. apply Exists_cons_tl, Exists_cons_hd. unfold short_log. simpl. lia.
  - split; [exact Hret | exact Hd].
Defined.

(** ** The engine during the movie (lines 377-380) *)






End AnalyseMore.
